(** * PodSummarize backend: the job registry and the processing pipeline

    A shallow embedding of [backend/app]: the pydantic models of
    [models.py], the in-memory job tracker [PipelineState] and the
    orchestrator [process_job] of [services/pipeline.py], the artifact
    helpers of [services/storage.py], the four stage adapters
    ([transcription], [diarization], [llm], [tts]) and the [/process] and
    [/tts] entry points of [main.py].

    Python exceptions are values of [exn] carried by [Result]; the mutable
    process state (the registry singleton, the [TranscriptResult] objects
    it refers to, the results directory) is the record [World]; coroutines
    are resumptions over [World] that give the control back at every
    [await] that really suspends. *)

From Stdlib Require Import QArith Ascii.
From stdpp Require Import gmap strings list fin_maps pretty.

Set Warnings "-register-all".

(* ================================================================== *)
(** ** models.py                                                       *)
(* ================================================================== *)

Inductive ProcessingStage :=
| UPLOADED | TRANSCRIBING | DIARIZING | SUMMARIZING | TTS | COMPLETED | FAILED.

#[global] Instance ProcessingStage_eq_dec : EqDecision ProcessingStage.
Proof. solve_decision. Defined.

(** Offsets are Python floats that the code only copies; they are kept as
    rationals. *)
Record SpeakerTurn := mkSpeakerTurn {
  speaker : string;
  start : Q;
  end_ : Q;
  text : string
}.

Record TranscriptResult := mkTranscriptResult {
  language : option string;
  duration : option Q;
  turns : list SpeakerTurn
}.

Record SummarySection := mkSummarySection {
  section_speaker : string;
  highlights : list string
}.

Record SummaryResult := mkSummaryResult {
  overview : string;
  per_speaker : list SummarySection;
  key_points : list string
}.

Record ProcessingStatus := mkProcessingStatus {
  job_id : string;
  stage : ProcessingStage;
  detail : option string;
  created_at : Z;
  updated_at : Z;
  errors : list string;
  assets : gmap string string
}.

Record ProcessRequest := mkProcessRequest {
  req_job_id : string;
  enable_tts : bool
}.

Record ProcessResponse := mkProcessResponse {
  resp_job_id : string;
  resp_status : ProcessingStatus
}.

Record ResultsResponse := mkResultsResponse {
  res_job_id : string;
  res_status : ProcessingStatus;
  res_transcript : option TranscriptResult;
  res_summary : option SummaryResult;
  res_audio_url : option string;
  res_summary_audio_url : option string
}.

Record TTSRequest := mkTTSRequest {
  tts_job_id : string;
  tts_text : string;
  tts_voice : option string
}.

Record TTSResponse := mkTTSResponse {
  ttsr_job_id : string;
  ttsr_audio_url : string
}.

(* ================================================================== *)
(** ** Exceptions                                                      *)
(* ================================================================== *)

(** The exception classes the modelled code raises or lets through. All of
    them derive from [Exception], so [except Exception] catches each. *)
Inductive exn :=
| KeyError (key : string)
| TranscriptionError (msg : string)
| DiarizationError (msg : string)
| SummarizationError (msg : string)
| TTSError (msg : string)
| OSError (msg : string)
| ProviderError (msg : string)
| HTTPException (status_code : nat) (http_detail : string).

(** [c in s]. *)
Fixpoint mentions (c : Ascii.ascii) (s : string) : bool :=
  match s with
  | EmptyString => false
  | String c' s' => Ascii.eqb c' c || mentions c s'
  end.

(** [s.isascii()]. *)
Fixpoint isascii (s : string) : bool :=
  match s with
  | EmptyString => true
  | String c s' => (Ascii.nat_of_ascii c <? 128)%nat && isascii s'
  end.

Definition double_quote : Ascii.ascii := Ascii.ascii_of_nat 34.

Definition hex_digit (n : nat) : Ascii.ascii :=
  default "0"%char (String.get n "0123456789abcdef").

Definition backslash : Ascii.ascii := Ascii.ascii_of_nat 92.

Definition escape (c : Ascii.ascii) : string := String backslash (String c "").

(** A character as [repr] shows it between the quotes [quote]: the quote
    and the backslash are escaped, a control character is written as a
    backslash and [t], [n], [r] or [x] with two hexadecimal digits, the
    others stand for themselves. *)
Definition repr_char (quote c : Ascii.ascii) : string :=
  let n := Ascii.nat_of_ascii c in
  if Ascii.eqb c quote || Ascii.eqb c backslash then escape c
  else if (n =? 9)%nat then escape "t"
  else if (n =? 10)%nat then escape "n"
  else if (n =? 13)%nat then escape "r"
  else if (n <? 32)%nat || (n =? 127)%nat then
    escape "x" +:+ String (hex_digit (n / 16)) (String (hex_digit (n mod 16)) "")
  else String c "".

Fixpoint repr_chars (quote : Ascii.ascii) (s : string) : string :=
  match s with
  | EmptyString => EmptyString
  | String c s' => repr_char quote c +:+ repr_chars quote s'
  end.

(** [repr(s)] of a string: between single quotes, or between double
    quotes when the string holds a single quote and no double quote. The
    bytes of a character outside ASCII are kept, as [repr] keeps every
    printable character. *)
Definition repr (s : string) : string :=
  let quote :=
    if mentions "'" s && negb (mentions double_quote s) then double_quote
    else "'"%char in
  String quote (repr_chars quote s +:+ String quote "").

(** [str(exc)]: the message, and for [KeyError] the repr of the key. *)
Definition str_exn (e : exn) : string :=
  match e with
  | KeyError key => repr key
  | TranscriptionError msg | DiarizationError msg | SummarizationError msg
  | TTSError msg | OSError msg | ProviderError msg => msg
  | HTTPException code d => pretty code +:+ ": " +:+ d
  end.

Inductive Result (A : Type) :=
| Ok (a : A)
| Raise (e : exn).
Arguments Ok {A} a.
Arguments Raise {A} e.

(* ================================================================== *)
(** ** The process state                                               *)
(* ================================================================== *)

(** A path below [settings.results_dir]: the job directory and the file
    name in it. *)
Record Path := mkPath {
  parent : string;
  name : string
}.

(** What a file of a job directory holds. A JSON file written by
    [model.json(indent=2)] is represented by the model it serialises. A
    write that fails once the file is open leaves [Truncated n c]: the
    first [n] bytes of what [c] stands for, none when [n] is [0]. *)
Inductive Content :=
| TranscriptJson (t : TranscriptResult)
| SummaryJson (s : SummaryResult)
| Binary (data : list Z)
| Truncated (n : nat) (c : Content).

Inductive Adapter := Transcribe | Diarize | Summarize | Synthesize.

#[global] Instance Adapter_eq_dec : EqDecision Adapter.
Proof. solve_decision. Defined.

(** The trace of what the orchestrator did to a job: the stage written by
    [update_stage], the message recorded by [add_error], and each adapter
    call together with the stage the registry showed for the job at the
    moment of the call. *)
Inductive Event :=
| EvStage (job : string) (s : ProcessingStage)
| EvError (job : string) (msg : string)
| EvCall (job : string) (a : Adapter) (seen : option ProcessingStage).

(** [_jobs] holds the status records, which are only reached through the
    dict. [_transcripts] holds references: [process_job] keeps its
    [TranscriptResult] in a local variable after storing it and assigns to
    its [turns] later, so the objects live in [objects] and the dict maps a
    job to the index of its object. A directory of [results_dir] is a list
    of entries in directory order. *)
Record World := mkWorld {
  _jobs : gmap string ProcessingStatus;
  _transcripts : gmap string nat;
  objects : list TranscriptResult;
  _summaries : gmap string SummaryResult;
  _summary_audio : gmap string string;
  results_dir : gmap string (list (string * Content));
  ticks : nat;
  trace : list Event
}.

Definition set_jobs (f : gmap string ProcessingStatus -> gmap string ProcessingStatus)
    (w : World) : World :=
  mkWorld (f (_jobs w)) (_transcripts w) (objects w) (_summaries w)
          (_summary_audio w) (results_dir w) (ticks w) (trace w).

Definition set_transcripts (f : gmap string nat -> gmap string nat) (w : World) : World :=
  mkWorld (_jobs w) (f (_transcripts w)) (objects w) (_summaries w)
          (_summary_audio w) (results_dir w) (ticks w) (trace w).

Definition set_objects (f : list TranscriptResult -> list TranscriptResult)
    (w : World) : World :=
  mkWorld (_jobs w) (_transcripts w) (f (objects w)) (_summaries w)
          (_summary_audio w) (results_dir w) (ticks w) (trace w).

Definition set_summaries (f : gmap string SummaryResult -> gmap string SummaryResult)
    (w : World) : World :=
  mkWorld (_jobs w) (_transcripts w) (objects w) (f (_summaries w))
          (_summary_audio w) (results_dir w) (ticks w) (trace w).

Definition set_summary_audio (f : gmap string string -> gmap string string)
    (w : World) : World :=
  mkWorld (_jobs w) (_transcripts w) (objects w) (_summaries w)
          (f (_summary_audio w)) (results_dir w) (ticks w) (trace w).

Definition set_results_dir
    (f : gmap string (list (string * Content)) -> gmap string (list (string * Content)))
    (w : World) : World :=
  mkWorld (_jobs w) (_transcripts w) (objects w) (_summaries w)
          (_summary_audio w) (f (results_dir w)) (ticks w) (trace w).

Definition set_ticks (f : nat -> nat) (w : World) : World :=
  mkWorld (_jobs w) (_transcripts w) (objects w) (_summaries w)
          (_summary_audio w) (results_dir w) (f (ticks w)) (trace w).

Definition set_trace (f : list Event -> list Event) (w : World) : World :=
  mkWorld (_jobs w) (_transcripts w) (objects w) (_summaries w)
          (_summary_audio w) (results_dir w) (ticks w) (f (trace w)).

(** [PipelineState.__init__] on an empty results directory. *)
Definition empty_world : World :=
  mkWorld ∅ ∅ [] ∅ ∅ ∅ 0 [].

(* ================================================================== *)
(** ** Coroutines                                                      *)
(* ================================================================== *)

(** A coroutine either has finished, with a value or a raised exception,
    or is suspended at an [await]; resuming it runs it on the current
    state up to its next suspension. *)
Inductive Co (A : Type) : Type :=
| Fin (r : Result A)
| Susp (k : World -> World * Co A).
Arguments Fin {A} r.
Arguments Susp {A} k.

(** Code running from the current state up to its next suspension. *)
Definition M (A : Type) : Type := World -> World * Co A.

Definition ret {A} (a : A) : M A := fun w => (w, Fin (Ok a)).

Definition raise {A} (e : exn) : M A := fun w => (w, Fin (Raise e)).

Fixpoint bindCo {A B} (c : Co A) (f : A -> M B) : M B :=
  match c with
  | Fin (Ok a) => f a
  | Fin (Raise e) => raise e
  | Susp k =>
      fun w => (w, Susp (fun w1 => let (w2, c') := k w1 in bindCo c' f w2))
  end.

Definition bind {A B} (m : M A) (f : A -> M B) : M B :=
  fun w => let (w', c) := m w in bindCo c f w'.

(** [try: m except Exception as exc: h exc]. *)
Fixpoint exceptCo {A} (c : Co A) (h : exn -> M A) : M A :=
  match c with
  | Fin (Ok a) => ret a
  | Fin (Raise e) => h e
  | Susp k =>
      fun w => (w, Susp (fun w1 => let (w2, c') := k w1 in exceptCo c' h w2))
  end.

Definition try_except {A} (m : M A) (h : exn -> M A) : M A :=
  fun w => let (w', c) := m w in exceptCo c h w'.

(** Lifting the result of a call that does not suspend. *)
Definition lift {A} (r : Result A) : M A := fun w => (w, Fin r).

(** An [await] that suspends ([asyncio.sleep], a network round trip): the
    coroutine gives the control back and goes on when it is resumed. *)
Definition suspend : M unit := fun w => (w, Susp (fun w1 => (w1, Fin (Ok tt)))).

Definition gets {A} (f : World -> A) : M A := fun w => (w, Fin (Ok (f w))).

Definition modify (f : World -> World) : M unit := fun w => (f w, Fin (Ok tt)).

#[global] Instance M_ret : MRet M := @ret.
#[global] Instance M_bind : MBind M := fun A B f m => bind m f.

(** Running a coroutine alone, resuming it as soon as it suspends. *)
Fixpoint runCo {A} (c : Co A) (w : World) : World * Result A :=
  match c with
  | Fin r => (w, r)
  | Susp k => let (w', c') := k w in runCo c' w'
  end.

Definition run {A} (m : M A) (w : World) : World * Result A :=
  let (w', c) := m w in runCo c w'.

(* ================================================================== *)
(** ** The environment: settings and external services                 *)
(* ================================================================== *)

(** [config.Settings], the fields the modelled code reads.
    [settings_results_dir] is [str(settings.results_dir)], the path as
    [pathlib] prints it: [.] for the current directory, and no separator
    at its end unless it is a root. *)
Record Settings := mkSettings {
  settings_results_dir : string;
  transcription_provider : string;
  openai_api_key : option string;
  assembly_ai_key : option string;
  google_credentials_json : option string;
  llm_provider : string;
  llm_api_key : option string;
  gemini_api_key : option string;
  tts_provider : string;
  azure_speech_key : option string;
  azure_speech_region : option string;
  elevenlabs_api_key : option string
}.

(** A segment as faster-whisper yields it. *)
Record WhisperSegment := mkWhisperSegment {
  seg_start : Q;
  seg_end : Q;
  seg_text : string
}.

(** A segment as Hoard returns it: a dict, any key of which may miss. *)
Record HoardSegment := mkHoardSegment {
  h_speaker : option string;
  h_start : option Q;
  h_end : option Q;
  h_text : option string
}.

(** The JSON object a summarisation provider answers with. *)
Record SectionItem := mkSectionItem {
  i_speaker : option string;
  i_highlights : option (list string)
}.

Record LLMResponse := mkLLMResponse {
  r_overview : option string;
  r_key_points : option (list string);
  r_per_speaker : option (list SectionItem)
}.

Record UploadFile := mkUploadFile {
  filename : option string;
  upload_data : list Z
}.

(** An [OSError] of a file write: its message, and how many bytes had been
    written when it was raised. [None] is for a file that could not be
    opened, and is left as it was; once the file is open it has been
    created or emptied, so that [Some 0] leaves it empty. *)
Record WriteFault := mkWriteFault {
  fault_message : string;
  fault_written : option nat
}.

(** Everything outside the process: the wall clock, the settings, the
    provider libraries and network services, and the faults of the disk.
    - [clock n] is what the [n]-th call of [datetime.utcnow()] returns;
    - [faster_whisper] is [WhisperModel.transcribe] with the language of
      its info object, when it has one;
    - [HoardDiarizer] is [None] when the [hoard] package is not installed,
      else [HoardDiarizer().run] on the audio path and the timed texts;
    - [openai_post] and [gemini_post] are the round trips of [_call_openai]
      and [_call_gemini] with the decoding of the answer: [None] when the
      answer has not the expected format;
    - [http_get] answers the body of a download;
    - [azure_post] answers the audio bytes, [elevenlabs_post] the status
      code, the text and the bytes of the response;
    - [mkdir_fault] gives the message of the [OSError] of a directory
      creation that fails, [write_fault] the fault of a file write that
      fails;
    - [fmt_2f] is the float format [:.2f]. *)
Record Env := mkEnv {
  clock : nat -> Z;
  settings : Settings;
  faster_whisper : Path -> Result (option string * list WhisperSegment);
  HoardDiarizer :
    option (Path -> list (Q * Q * string) -> Result (list HoardSegment));
  openai_post : string -> Result (option LLMResponse);
  gemini_post : string -> Result (option LLMResponse);
  http_get : string -> Result (list Z);
  azure_post : TTSRequest -> Result (list Z);
  elevenlabs_post : TTSRequest -> Result (nat * string * list Z);
  mkdir_fault : string -> option string;
  write_fault : string -> string -> option WriteFault;
  fmt_2f : Q -> string
}.

(* ================================================================== *)
(** ** Python helpers                                                  *)
(* ================================================================== *)

(** Truth value of an [Optional[str]]: [None] and the empty string are
    false. *)
Definition truthy (o : option string) : bool :=
  match o with
  | Some s => negb (String.eqb s "")
  | None => false
  end.

(** [o or d] on an optional string. *)
Definition or_str (o : option string) (d : string) : string :=
  match o with
  | Some s => if String.eqb s "" then d else s
  | None => d
  end.

(** [o or []]. *)
Definition or_nil {A} (o : option (list A)) : list A := default [] o.

Definition lower_ascii (c : Ascii.ascii) : Ascii.ascii :=
  let n := Ascii.nat_of_ascii c in
  if (65 <=? n)%nat && (n <=? 90)%nat then Ascii.ascii_of_nat (n + 32) else c.

(** The three bytes of the Kelvin sign, U+212A. *)
Definition is_kelvin (c1 c2 c3 : Ascii.ascii) : bool :=
  (Ascii.nat_of_ascii c1 =? 226)%nat && (Ascii.nat_of_ascii c2 =? 132)%nat
  && (Ascii.nat_of_ascii c3 =? 170)%nat.

(** [str.lower()], as far as a comparison with an ASCII name can tell: on
    the ASCII capitals and on the Kelvin sign, the one other character
    whose lower case is an ASCII letter. *)
Fixpoint lower (s : string) : string :=
  match s with
  | EmptyString => EmptyString
  | String c1 s1 =>
      match s1 with
      | String c2 (String c3 s3) =>
          if is_kelvin c1 c2 c3 then String "k" (lower s3)
          else String (lower_ascii c1) (lower s1)
      | _ => String (lower_ascii c1) (lower s1)
      end
  end.

(** [c.isspace()] of an ASCII character. *)
Definition is_space (c : Ascii.ascii) : bool :=
  let n := Ascii.nat_of_ascii c in
  (n =? 32)%nat || ((9 <=? n)%nat && (n <=? 13)%nat)
  || ((28 <=? n)%nat && (n <=? 31)%nat).

Fixpoint lstrip (s : string) : string :=
  match s with
  | EmptyString => EmptyString
  | String c s' => if is_space c then lstrip s' else s
  end.

Fixpoint rstrip (s : string) : string :=
  match s with
  | EmptyString => EmptyString
  | String c s' =>
      match rstrip s' with
      | EmptyString => if is_space c then EmptyString else String c EmptyString
      | r => String c r
      end
  end.

(** [str.strip()] of an ASCII string: the white space removed is that of
    ASCII. *)
Definition strip (s : string) : string := rstrip (lstrip s).

(** ["sep".join(parts)]. *)
Fixpoint join (sep : string) (parts : list string) : string :=
  match parts with
  | [] => ""
  | [p] => p
  | p :: rest => p +:+ sep +:+ join sep rest
  end.

(** The part of [s] from its last dot on, when it has a dot. *)
Fixpoint from_last_dot (s : string) : option string :=
  match s with
  | EmptyString => None
  | String c s' =>
      match from_last_dot s' with
      | Some r => Some r
      | None => if Ascii.eqb c "."%char then Some s else None
      end
  end.

(** [PurePath.suffix] of a bare file name: empty unless the last dot is
    neither the first nor the last character. *)
Definition suffix (file_name : string) : string :=
  match file_name with
  | EmptyString => ""
  | String _ rest =>
      match from_last_dot rest with
      | Some r => if (1 <? String.length r)%nat then r else ""
      | None => ""
      end
  end.

(** [s.split(sep)] for a separator of one character. *)
Fixpoint split_on (sep : Ascii.ascii) (s : string) : list string :=
  match s with
  | EmptyString => [EmptyString]
  | String c s' =>
      if Ascii.eqb c sep then EmptyString :: split_on sep s'
      else match split_on sep s' with
           | piece :: pieces => String c piece :: pieces
           | [] => [String c EmptyString]
           end
  end.

(** [PurePosixPath(s).name]: the last component of the path, the empty
    pieces and the [.] pieces between the separators not being
    components; empty when the path has no component. *)
Definition path_name (s : string) : string :=
  default "" (last (filter (fun piece : string => piece ≠ "" /\ piece ≠ ".")
                           (split_on "/" s))).

(** A name that is one component of a path and nothing else: not empty,
    not [.] nor [..], with no separator and no null character. The job
    identifiers that [generate_job_id] makes and the file names that the
    services write are such names. *)
Definition plain_name (s : string) : bool :=
  negb (String.eqb s "") && negb (String.eqb s ".") && negb (String.eqb s "..")
  && negb (mentions "/" s) && negb (mentions (Ascii.ascii_of_nat 0) s).

Fixpoint ends_with (c : Ascii.ascii) (s : string) : bool :=
  match s with
  | EmptyString => false
  | String c' EmptyString => Ascii.eqb c' c
  | String _ s' => ends_with c s'
  end.

(* ================================================================== *)
(** ** Primitive effects                                               *)
(* ================================================================== *)

Section Effects.
Variable E : Env.

(** [datetime.utcnow()]. *)
Definition utcnow : M Z :=
  fun w => (set_ticks S w, Fin (Ok (clock E (ticks w)))).

(** [asyncio.sleep(delay)] with a positive delay. *)
Definition sleep : M unit := suspend.

(** The network round trip of [httpx.AsyncClient.post]. *)
Definition post {A} (answer : Result A) : M A := suspend ;; lift answer.
End Effects.

Definition emit (ev : Event) : M unit := modify (set_trace (fun t => t ++ [ev])).

(** [TranscriptResult(...)]: a new object, known by its reference. *)
Definition new_transcript (t : TranscriptResult) : M nat :=
  fun w => (set_objects (fun h => h ++ [t]) w, Fin (Ok (length (objects w)))).

(** Reading the object behind a reference. *)
Definition deref (ref : nat) : M TranscriptResult :=
  gets (fun w => default (mkTranscriptResult None None []) (objects w !! ref)).

(** [transcript.turns]. *)
Definition read_turns (ref : nat) : M (list SpeakerTurn) :=
  gets (fun w => turns (default (mkTranscriptResult None None []) (objects w !! ref))).

(** [transcript.turns = new_turns]. *)
Definition assign_turns (ref : nat) (new_turns : list SpeakerTurn) : M unit :=
  modify (set_objects
    (alter (fun t => mkTranscriptResult (language t) (duration t) new_turns) ref)).

(* ================================================================== *)
(** ** The event loop                                                  *)
(* ================================================================== *)

Module asyncio.
(** The state of the process and the tasks of the loop, in the order of
    their creation. One thread runs them: a task runs alone from the
    moment it is resumed to its next suspension. *)
Record Loop := mkLoop {
  world : World;
  tasks : list (Co ProcessingStatus)
}.

(** [asyncio.create_task(coro)]: the coroutine is queued, and starts
    when the loop first resumes it. *)
Definition create_task (coro : M ProcessingStatus) (l : Loop) : Loop :=
  mkLoop (world l) (tasks l ++ [Susp coro]).

(** The loop resumes task [i]; a finished task stays as it is. *)
Definition resume (i : nat) (l : Loop) : Loop :=
  match tasks l !! i with
  | Some (Susp k) =>
      let (w', c') := k (world l) in mkLoop w' (<[i := c']> (tasks l))
  | _ => l
  end.

(** The loop resumes the tasks in the order [schedule] gives. *)
Definition run_schedule (schedule : list nat) (l : Loop) : Loop :=
  foldl (fun l i => resume i l) l schedule.

Definition finished {A} (c : Co A) : bool :=
  match c with
  | Fin _ => true
  | Susp _ => false
  end.
End asyncio.

(** The three ways the code writes to a status record: [update_stage],
    [add_error] and an assignment to a key of [assets]. *)
Definition with_stage (s : ProcessingStage) (d : option string) (now : Z)
    (status : ProcessingStatus) : ProcessingStatus :=
  mkProcessingStatus (job_id status) s d (created_at status) now
                     (errors status) (assets status).

Definition with_error (message : string) (now : Z)
    (status : ProcessingStatus) : ProcessingStatus :=
  mkProcessingStatus (job_id status) FAILED (detail status) (created_at status) now
                     (errors status ++ [message]) (assets status).

Definition with_asset (key url : string)
    (status : ProcessingStatus) : ProcessingStatus :=
  mkProcessingStatus (job_id status) (stage status) (detail status)
                     (created_at status) (updated_at status) (errors status)
                     (<[key := url]> (assets status)).

(* ================================================================== *)
(** ** services/storage.py                                             *)
(* ================================================================== *)

Module storage.
Section WithEnv.
Variable E : Env.

(** [job_dir.mkdir(parents=True, exist_ok=True)]: the directory is
    created when it does not exist, and returned. *)
Definition get_job_dir (job_id : string) : M string :=
  match mkdir_fault E job_id with
  | Some msg => raise (OSError msg)
  | None =>
      modify (set_results_dir (fun d =>
        match d !! job_id with
        | Some _ => d
        | None => <[job_id := []]> d
        end)) ;;
      mret job_id
  end.

Definition media_url (job_id file_name : string) : string :=
  "/media/" +:+ job_id +:+ "/" +:+ file_name.

(** Writing a file of a directory: an existing entry is overwritten in
    place, a new one comes last. *)
Fixpoint write_entry (file_name : string) (c : Content)
    (entries : list (string * Content)) : list (string * Content) :=
  match entries with
  | [] => [(file_name, c)]
  | (n, c0) :: rest =>
      if String.eqb n file_name then (n, c) :: rest
      else (n, c0) :: write_entry file_name c rest
  end.

(** [path.write_text(...)], [path.write_bytes(...)] and the [open("wb")]
    block of [save_upload]: the file is opened, which creates or empties
    it, and then written. A fault leaves what had been written. *)
Definition write_file (job_dir file_name : string) (c : Content) : M Path :=
  match write_fault E job_dir file_name with
  | Some fault =>
      match fault_written fault with
      | Some n =>
          modify (set_results_dir (fun d =>
            <[job_dir := write_entry file_name (Truncated n c)
                           (default [] (d !! job_dir))]> d))
      | None => mret tt
      end ;;
      raise (OSError (fault_message fault))
  | None =>
      modify (set_results_dir (fun d =>
        <[job_dir := write_entry file_name c (default [] (d !! job_dir))]> d)) ;;
      mret (mkPath job_dir file_name)
  end.

(** [Path(file.filename or "audio").suffix or ".mp3"]. *)
Definition upload_suffix (file : UploadFile) : string :=
  let sfx := suffix (path_name (or_str (filename file) "audio")) in
  if String.eqb sfx "" then ".mp3" else sfx.

Definition save_upload (job_id : string) (file : UploadFile) : M (Path * string) :=
  job_dir ← get_job_dir job_id;
  let sfx := upload_suffix file in
  dest_path ← write_file job_dir ("source" +:+ sfx) (Binary (upload_data file));
  mret (dest_path, name dest_path).

Definition save_text (job_id file_name : string) (content : Content) : M Path :=
  job_dir ← get_job_dir job_id;
  write_file job_dir file_name content.

Definition save_binary (job_id file_name : string) (data : list Z) : M Path :=
  job_dir ← get_job_dir job_id;
  write_file job_dir file_name (Binary data).

(** The files of a directory that the pattern [source.*] matches. *)
Definition source_files (job_dir : string) (w : World) : list Path :=
  map (fun e => mkPath job_dir (fst e))
    (filter (fun e => String.prefix "source." (fst e) = true)
            (default [] (results_dir w !! job_dir))).

(** [list(job_dir.glob("source.*"))]. *)
Definition glob_source (job_dir : string) : M (list Path) :=
  gets (source_files job_dir).
End WithEnv.
End storage.

(* ================================================================== *)
(** ** services/transcription.py                                       *)
(* ================================================================== *)

Module transcription.
Section WithEnv.
Variable E : Env.

Definition _transcribe_with_whisper (audio_path : Path)
    : M (string * list SpeakerTurn) :=
  '(lang, segments) ← lift (faster_whisper E audio_path);
  mret (default "en" lang,
        map (fun seg =>
               mkSpeakerTurn "unknown" (seg_start seg) (seg_end seg)
                             (strip (seg_text seg)))
            segments).

Definition _transcribe_with_assembly_ai (audio_path : Path)
    : M (string * list SpeakerTurn) :=
  if truthy (assembly_ai_key (settings E)) then
    sleep ;;
    mret ("en", [mkSpeakerTurn "unknown" 0 2
                   "Transcription via AssemblyAI not implemented."])
  else raise (TranscriptionError "AssemblyAI key not configured.").

Definition _transcribe_with_google (audio_path : Path)
    : M (string * list SpeakerTurn) :=
  if truthy (google_credentials_json (settings E)) then
    sleep ;;
    mret ("en", [mkSpeakerTurn "unknown" 0 2
                   "Transcription via Google not implemented."])
  else raise (TranscriptionError "Google Speech credentials not configured.").

Definition transcribe_audio (audio_path : Path) : M (string * list SpeakerTurn) :=
  try_except (_transcribe_with_whisper audio_path) (fun whisper_error =>
    if String.eqb (transcription_provider (settings E)) "openai" then
      raise (TranscriptionError
               ("Whisper transcription failed: " +:+ str_exn whisper_error))
    else if String.eqb (transcription_provider (settings E)) "assemblyai" then
      _transcribe_with_assembly_ai audio_path
    else if String.eqb (transcription_provider (settings E)) "google" then
      _transcribe_with_google audio_path
    else raise (TranscriptionError "Unsupported transcription provider configured.")).
End WithEnv.
End transcription.

(* ================================================================== *)
(** ** services/diarization.py                                         *)
(* ================================================================== *)

Module diarization.
Section WithEnv.
Variable E : Env.

Definition speakers : list string := ["Speaker 1"; "Speaker 2"].

(** The branch taken when Hoard is not installed: pseudo speakers in
    round-robin fashion. *)
Definition fallback (transcript_turns : list SpeakerTurn) : list SpeakerTurn :=
  imap (fun index turn =>
          mkSpeakerTurn
            (default "" (speakers !! (index mod length speakers)%nat))
            (start turn) (end_ turn) (text turn))
       transcript_turns.

Definition of_segments (diarized_segments : list HoardSegment) : list SpeakerTurn :=
  imap (fun index segment =>
          mkSpeakerTurn
            (default ("Speaker " +:+ pretty (index + 1)%nat) (h_speaker segment))
            (default 0%Q (h_start segment))
            (default 0%Q (h_end segment))
            (default "" (h_text segment)))
       diarized_segments.

Definition diarize (transcript_turns : list SpeakerTurn) (audio_path : Path)
    : M (list SpeakerTurn) :=
  match HoardDiarizer E with
  | None =>
      sleep ;;
      mret (fallback transcript_turns)
  | Some hoard_run =>
      diarized_segments ←
        lift (hoard_run audio_path
                (map (fun turn => (start turn, end_ turn, text turn))
                     transcript_turns));
      match diarized_segments with
      | [] => raise (DiarizationError "Hoard returned no diarization segments.")
      | _ => mret (of_segments diarized_segments)
      end
  end.
End WithEnv.
End diarization.

(* ================================================================== *)
(** ** services/llm.py                                                 *)
(* ================================================================== *)

Module llm.
Section WithEnv.
Variable E : Env.

Definition _call_openai (content : string) : M LLMResponse :=
  if negb (truthy (llm_api_key (settings E)))
     && negb (truthy (openai_api_key (settings E)))
  then raise (SummarizationError "OpenAI API key not configured.")
  else
    message ← post (openai_post E content);
    match message with
    | Some response => mret response
    | None => raise (SummarizationError "Unexpected OpenAI response format.")
    end.

Definition _call_deepseek (content : string) : M LLMResponse :=
  if negb (truthy (llm_api_key (settings E)))
  then raise (SummarizationError "DeepSeek API key not configured.")
  else
    sleep ;;
    mret (mkLLMResponse
            (Some "DeepSeek summary placeholder.")
            (Some ["Integration with DeepSeek not implemented."])
            (Some [mkSectionItem (Some "Speaker 1") (Some ["Placeholder"])])).

Definition _call_custom (content : string) : M LLMResponse :=
  sleep ;;
  mret (mkLLMResponse
          (Some "Custom provider not configured.")
          (Some ["Set LLM_PROVIDER to openai, gemini, or deepseek."])
          (Some [mkSectionItem (Some "Speaker 1")
                               (Some ["Transcript content truncated."])])).

Definition _call_gemini (content : string) : M LLMResponse :=
  if negb (truthy (gemini_api_key (settings E)))
     && negb (truthy (llm_api_key (settings E)))
  then raise (SummarizationError "Gemini API key not configured.")
  else
    answer ← post (gemini_post E content);
    match answer with
    | Some response => mret response
    | None => raise (SummarizationError "Unexpected Gemini response format.")
    end.

(** The transcript as the prompt shows it, a line per turn. *)
Definition render (transcript_turns : list SpeakerTurn) : string :=
  join (String (ascii_of_nat 10) EmptyString)
    (map (fun turn =>
            "[" +:+ fmt_2f E (start turn) +:+ "-" +:+ fmt_2f E (end_ turn)
                +:+ "] " +:+ speaker turn +:+ ": " +:+ text turn)
         transcript_turns).

Definition summarize (transcript_turns : list SpeakerTurn) : M SummaryResult :=
  match transcript_turns with
  | [] => raise (SummarizationError "Transcript is empty.")
  | _ =>
      let content := render transcript_turns in
      let provider := lower (llm_provider (settings E)) in
      response ←
        (if String.eqb provider "openai" then _call_openai content
         else if String.eqb provider "deepseek" then _call_deepseek content
         else if String.eqb provider "gemini" then _call_gemini content
         else _call_custom content);
      let overview := or_str (r_overview response) "Summary unavailable." in
      let key_points := or_nil (r_key_points response) in
      let per_speaker_data := or_nil (r_per_speaker response) in
      let per_speaker :=
        map (fun item =>
               mkSummarySection (default "Unknown" (i_speaker item))
                                (or_nil (i_highlights item)))
            per_speaker_data in
      mret (mkSummaryResult overview per_speaker key_points)
  end.
End WithEnv.
End llm.

(* ================================================================== *)
(** ** services/tts.py                                                 *)
(* ================================================================== *)

Module tts.
Section WithEnv.
Variable E : Env.

Definition _synthesize_azure (request : TTSRequest) : M Path :=
  if negb (truthy (azure_speech_key (settings E)))
     || negb (truthy (azure_speech_region (settings E)))
  then raise (TTSError "Azure Speech credentials are missing.")
  else
    audio_bytes ← post (azure_post E request);
    storage.save_binary E (tts_job_id request) "summary.mp3" audio_bytes.

Definition _synthesize_google (request : TTSRequest) : M Path :=
  sleep ;;
  storage.save_binary E (tts_job_id request) "summary.mp3" [].

Definition _synthesize_coqui (request : TTSRequest) : M Path :=
  sleep ;;
  storage.save_binary E (tts_job_id request) "summary.mp3" [].

Definition _synthesize_elevenlabs (request : TTSRequest) : M Path :=
  if negb (truthy (elevenlabs_api_key (settings E)))
  then raise (TTSError "ElevenLabs API key missing.")
  else
    '(status_code, response_text, audio_bytes) ← post (elevenlabs_post E request);
    if (status_code =? 200)%nat
    then storage.save_binary E (tts_job_id request) "summary.mp3" audio_bytes
    else raise (TTSError ("ElevenLabs TTS failed: " +:+ response_text)).

Definition synthesize_tts (request : TTSRequest) : M Path :=
  let provider := lower (tts_provider (settings E)) in
  if String.eqb provider "azure" then _synthesize_azure request
  else if String.eqb provider "google" then _synthesize_google request
  else if String.eqb provider "coqui" then _synthesize_coqui request
  else if String.eqb provider "elevenlabs" then _synthesize_elevenlabs request
  else raise (TTSError "TTS provider not configured or unsupported.").
End WithEnv.
End tts.

(* ================================================================== *)
(** ** services/pipeline.py                                            *)
(* ================================================================== *)

Module pipeline.
Section WithEnv.
Variable E : Env.

(** [self._jobs[job_id]]. *)
Definition lookup_job (job_id : string) : M ProcessingStatus :=
  fun w =>
    match _jobs w !! job_id with
    | Some status => ret status w
    | None => raise (KeyError job_id) w
    end.

(** *** class PipelineState *)

Definition create_status (job_id : string) : M ProcessingStatus :=
  now ← utcnow E;
  let status := mkProcessingStatus job_id UPLOADED None now now [] ∅ in
  modify (set_jobs <[job_id := status]>) ;;
  mret status.

Definition update_stage (job_id : string) (stage : ProcessingStage)
    (detail : option string) : M unit :=
  status ← lookup_job job_id;
  now ← utcnow E;
  modify (set_jobs <[job_id := with_stage stage detail now status]>) ;;
  emit (EvStage job_id stage).

Definition add_error (job_id : string) (message : string) : M unit :=
  status ← lookup_job job_id;
  now ← utcnow E;
  modify (set_jobs <[job_id := with_error message now status]>) ;;
  emit (EvError job_id message).

Definition store_transcript (job_id : string) (transcript : nat) : M unit :=
  modify (set_transcripts <[job_id := transcript]>).

Definition store_summary (job_id : string) (summary : SummaryResult) : M unit :=
  modify (set_summaries <[job_id := summary]>).

Definition store_summary_audio (job_id : string) (path : string) : M unit :=
  modify (set_summary_audio <[job_id := path]>).

Definition get (job_id : string) : M ProcessingStatus := lookup_job job_id.

Definition results (job_id : string) : M ResultsResponse :=
  status ← lookup_job job_id;
  gets (fun w =>
    mkResultsResponse job_id status
      (ref ← _transcripts w !! job_id; objects w !! ref)
      (_summaries w !! job_id)
      (assets status !! "source_audio")
      (_summary_audio w !! job_id)).

(** [pipeline_state.get(job_id).assets[key] = url]. *)
Definition set_asset (job_id key url : string) : M unit :=
  status ← get job_id;
  modify (set_jobs <[job_id := with_asset key url status]>).

(** The call of a stage adapter, noted in the trace with the stage the
    registry shows when the call is made. *)
Definition invoke {A} (job_id : string) (a : Adapter) (call : M A) : M A :=
  seen ← gets (fun w => stage <$> _jobs w !! job_id);
  emit (EvCall job_id a seen) ;;
  call.

(** *** process_job: the body of the [try] block *)
Definition process_job_try (job_id : string) (audio_path : Path)
    (enable_tts : bool) : M unit :=
  update_stage job_id TRANSCRIBING (Some "Running transcription") ;;
  '(language, turns) ←
    invoke job_id Transcribe (transcription.transcribe_audio E audio_path);
  transcript ← new_transcript (mkTranscriptResult (Some language) None turns);
  store_transcript job_id transcript ;;
  t ← deref transcript;
  transcript_path ← storage.save_text E job_id "transcript.json" (TranscriptJson t);
  set_asset job_id "transcript" (storage.media_url job_id (name transcript_path)) ;;

  update_stage job_id DIARIZING (Some "Applying Hoard diarization") ;;
  current_turns ← read_turns transcript;
  diarized_turns ←
    invoke job_id Diarize (diarization.diarize E current_turns audio_path);
  assign_turns transcript diarized_turns ;;
  t ← deref transcript;
  diarized_path ← storage.save_text E job_id "diarized.json" (TranscriptJson t);
  set_asset job_id "diarized_transcript"
            (storage.media_url job_id (name diarized_path)) ;;

  update_stage job_id SUMMARIZING (Some "Generating LLM summary") ;;
  final_turns ← read_turns transcript;
  summary ← invoke job_id Summarize (llm.summarize E final_turns);
  store_summary job_id summary ;;
  summary_path ← storage.save_text E job_id "summary.json" (SummaryJson summary);
  set_asset job_id "summary" (storage.media_url job_id (name summary_path)) ;;

  (if enable_tts then
     update_stage job_id TTS (Some "Synthesizing summary audio") ;;
     let tts_request := mkTTSRequest job_id (overview summary) None in
     summary_audio_path ←
       invoke job_id Synthesize (tts.synthesize_tts E tts_request);
     store_summary_audio job_id
       (storage.media_url job_id (name summary_audio_path))
   else mret tt) ;;

  update_stage job_id COMPLETED (Some "Processing complete").

(** *** process_job *)
Definition process_job (job_id : string) (audio_path : Path)
    (enable_tts : bool) : M ProcessingStatus :=
  try_except (process_job_try job_id audio_path enable_tts)
             (fun exc => add_error job_id (str_exn exc)) ;;
  get job_id.

Definition register_audio_asset (job_id : string) (asset_path : Path) : M unit :=
  set_asset job_id "source_audio" (storage.media_url job_id (name asset_path)).

Definition ensure_job (job_id : string) : M ProcessingStatus := get job_id.

Definition get_job_dir (job_id : string) : M string := storage.get_job_dir E job_id.

(** *** launch_background *)
Definition launch_background (job_id : string) (audio_path : Path)
    (enable_tts : bool) (l : asyncio.Loop) : asyncio.Loop :=
  asyncio.create_task (process_job job_id audio_path enable_tts) l.
End WithEnv.
End pipeline.

(* ================================================================== *)
(** ** main.py                                                         *)
(* ================================================================== *)

(** What a handler hands to [background_tasks.add_task]; the tasks run
    once the handler has returned its response. *)
Inductive Background :=
| LaunchBackground (job_id : string) (audio_path : Path) (enable_tts : bool)
| DownloadPodcastAudio (job_id : string) (podcast_url : option string).

Record UploadResponse := mkUploadResponse {
  up_job_id : string;
  up_status : ProcessingStatus
}.

(** [str(path)] for a path [settings.results_dir / job_id / name] whose
    job directory and file name are plain names. *)
Definition str_path (s : Settings) (p : Path) : string :=
  let below := parent p +:+ "/" +:+ name p in
  if String.eqb (settings_results_dir s) "." then below
  else if ends_with "/" (settings_results_dir s)
  then settings_results_dir s +:+ below
  else settings_results_dir s +:+ "/" +:+ below.

Module main.
Section WithEnv.
Variable E : Env.

(** [try: m except KeyError as exc: raise HTTPException(404, ...)]. *)
Definition or_404 {A} (m : M A) : M A :=
  try_except m (fun exc =>
    match exc with
    | KeyError _ => raise (HTTPException 404 "Job not found")
    | _ => raise exc
    end).

(** [upload_podcast], from the identifier [generate_job_id()] returned.
    [status] is the record object that the registry holds and that
    [register_audio_asset] writes to: the response shows it as it is when
    the response is made. *)
Definition upload_podcast (generated : string) (file : option UploadFile)
    (podcast_url : option string) : M (UploadResponse * list Background) :=
  match file, truthy podcast_url with
  | None, false =>
      raise (HTTPException 400 "Provide either an audio file or a podcast URL.")
  | _, _ =>
      let job_id := generated in
      pipeline.create_status E job_id ;;
      match file with
      | Some f =>
          '(audio_path, _) ← storage.save_upload E job_id f;
          pipeline.register_audio_asset job_id audio_path ;;
          status ← pipeline.lookup_job job_id;
          mret (mkUploadResponse job_id status, [])
      | None =>
          status ← pipeline.lookup_job job_id;
          mret (mkUploadResponse job_id status,
                [DownloadPodcastAudio job_id podcast_url])
      end
  end.

Definition _download_podcast_audio (job_id : string) (podcast_url : option string)
    : M unit :=
  try_except
    (match podcast_url with
     | Some url =>
         if String.eqb url "" then raise (ProviderError "Podcast URL missing.")
         else
           audio_bytes ← post (http_get E url);
           job_dir ← pipeline.get_job_dir E job_id;
           path ← storage.write_file E job_dir "source.mp3" (Binary audio_bytes);
           pipeline.register_audio_asset job_id path
     | None => raise (ProviderError "Podcast URL missing.")
     end)
    (fun exc =>
       pipeline.add_error E job_id ("Download failed: " +:+ str_exn exc)).

Definition start_processing (request : ProcessRequest)
    : M (ProcessResponse * list Background) :=
  job_dir ← or_404 (pipeline.get_job_dir E (req_job_id request));
  audio_candidates ← storage.glob_source job_dir;
  match audio_candidates with
  | [] => raise (HTTPException 400 "Audio source not available for processing.")
  | audio_path :: _ =>
      let background_tasks :=
        [LaunchBackground (req_job_id request) audio_path (enable_tts request)] in
      status ← pipeline.ensure_job (req_job_id request);
      mret (mkProcessResponse (req_job_id request) status, background_tasks)
  end.

Definition fetch_results (job_id : string) : M ResultsResponse :=
  or_404 (pipeline.results job_id).

Definition generate_summary_audio (request : TTSRequest) : M TTSResponse :=
  or_404 (pipeline.ensure_job (tts_job_id request)) ;;
  summary_audio_path ← tts.synthesize_tts E request;
  let relative_path := str_path (settings E) summary_audio_path in
  pipeline.store_summary_audio (tts_job_id request) relative_path ;;
  mret (mkTTSResponse (tts_job_id request) relative_path).

(** A [/process] request served by the loop: the handler runs to its
    response, then the background tasks it queued are started. The
    handler has no [await], so nothing runs in between. *)
Definition serve_process (request : ProcessRequest) (l : asyncio.Loop)
    : asyncio.Loop * Result ProcessResponse :=
  match run (start_processing request) (asyncio.world l) with
  | (w', Ok (response, background_tasks)) =>
      (foldl (fun l b =>
                match b with
                | LaunchBackground job_id audio_path enable_tts =>
                    pipeline.launch_background E job_id audio_path enable_tts l
                | DownloadPodcastAudio _ _ => l
                end)
             (asyncio.mkLoop w' (asyncio.tasks l)) background_tasks,
       Ok response)
  | (w', Raise e) => (asyncio.mkLoop w' (asyncio.tasks l), Raise e)
  end.
End WithEnv.
End main.

(* ================================================================== *)
(** ** Vocabulary of the specification                                 *)
(* ================================================================== *)

(** Induction on a coroutine, with the hypothesis for what it resumes to. *)
Fixpoint Co_resume_ind {A} (P : Co A -> Prop)
    (Hfin : forall r, P (Fin r))
    (Hsusp : forall k, (forall w, P (snd (k w))) -> P (Susp k))
    (c : Co A) : P c :=
  match c with
  | Fin r => Hfin r
  | Susp k => Hsusp k (fun w => Co_resume_ind P Hfin Hsusp (snd (k w)))
  end.

(** [wp m Q w]: run alone from [w], [m] ends with a result and in a state
    that [Q] accepts. *)
Definition wp {A} (m : M A) (Q : Result A -> World -> Prop) (w : World) : Prop :=
  Q (snd (run m w)) (fst (run m w)).

(** Every run of [m] takes a state to one related to it by [R]. *)
Definition preserves {A} (R : relation World) (m : M A) : Prop :=
  forall w, R w (fst (run m w)).

(** The job is in the registry. *)
Definition registered (j : string) (w : World) : Prop := is_Some (_jobs w !! j).

(** The transcript the registry holds for a job, as [results] reads it. *)
Definition stored_transcript (j : string) (w : World) : option TranscriptResult :=
  ref ← _transcripts w !! j; objects w !! ref.

(** What a file of a job directory holds. *)
Fixpoint read_entry (file_name : string) (entries : list (string * Content))
    : option Content :=
  match entries with
  | [] => None
  | (n, c) :: rest =>
      if String.eqb n file_name then Some c else read_entry file_name rest
  end.

Definition file_of (j file_name : string) (w : World) : option Content :=
  results_dir w !! j ≫= read_entry file_name.

(** The stages [update_stage] wrote for a job, in the order of the trace. *)
Definition stage_writes (j : string) (evs : list Event) : list ProcessingStage :=
  omap (fun ev =>
          match ev with
          | EvStage j' s => if decide (j' = j) then Some s else None
          | _ => None
          end) evs.

(** The stage a stage adapter runs in. *)
Definition entering (a : Adapter) : ProcessingStage :=
  match a with
  | Transcribe => TRANSCRIBING
  | Diarize => DIARIZING
  | Summarize => SUMMARIZING
  | Synthesize => TTS
  end.

(** The trace of a run that meets no exception. *)
Definition plan (j : string) (enable_tts : bool) : list Event :=
  [EvStage j TRANSCRIBING; EvCall j Transcribe (Some TRANSCRIBING);
   EvStage j DIARIZING; EvCall j Diarize (Some DIARIZING);
   EvStage j SUMMARIZING; EvCall j Summarize (Some SUMMARIZING)]
  ++ (if enable_tts then [EvStage j TTS; EvCall j Synthesize (Some TTS)] else [])
  ++ [EvStage j COMPLETED].

(** *** Relations between a state and a later one *)

(** No job leaves the registry and no error message is lost: the errors
    of a job are a prefix of its later errors. *)
Definition errors_grow : relation World := fun w w' =>
  forall j st, _jobs w !! j = Some st ->
    exists st', _jobs w' !! j = Some st' /\ errors st `prefix_of` errors st'.

(** Nothing but the results directory has changed. *)
Definition only_disk : relation World := fun w w' =>
  w' = set_results_dir (fun _ => results_dir w') w.

(** The trace and the stage of every job are the same. *)
Definition same_stages : relation World := fun w w' =>
  trace w' = trace w /\ forall j, stage <$> _jobs w' !! j = stage <$> _jobs w !! j.

(** The status records and the trace are the same. *)
Definition same_jobs : relation World := fun w w' =>
  trace w' = trace w /\ _jobs w' = _jobs w.

(** The stored transcripts and their objects are the same. *)
Definition same_transcripts : relation World := fun w w' =>
  _transcripts w' = _transcripts w /\ objects w' = objects w.

(** Every [updated_at] of the later state is the one the job had, or was
    read from the clock in between. *)
Definition stamped (E : Env) : relation World := fun w w' =>
  (ticks w <= ticks w')%nat /\
  forall j st', _jobs w' !! j = Some st' ->
    (exists st, _jobs w !! j = Some st /\ updated_at st' = updated_at st) \/
    (exists n, (ticks w <= n < ticks w')%nat /\ updated_at st' = clock E n).

(** The state once the directory of [j] has been asked for: it is created
    if it was not there. *)
Definition made_dir (j : string) (w : World) : World :=
  set_results_dir
    (fun d => match d !! j with Some _ => d | None => <[j := []]> d end) w.

(** The state once [file_name] has been written in the directory of [j]. *)
Definition written (j file_name : string) (c : Content) (w : World) : World :=
  set_results_dir
    (fun d => <[j := storage.write_entry file_name c (default [] (d !! j))]> d)
    (made_dir j w).

(** The states that a save of [c] as the file [n] of the job [j] can
    leave when it fails: the one before, the one with the directory made,
    or the one with the file truncated. *)
Definition broken_save (j n : string) (c : Content) (w w' : World) : Prop :=
  w' = w \/ w' = made_dir j w \/ exists k, w' = written j n (Truncated k c) w.

(** The audio that the speech provider of the settings answers to a
    request: what Azure or ElevenLabs sent, and no byte for the Google
    and Coqui stubs. *)
Definition provided (E : Env) (request : TTSRequest) (audio : list Z) : Prop :=
  let provider := lower (tts_provider (settings E)) in
  (provider = "azure" /\ azure_post E request = Ok audio) \/
  ((provider = "google" \/ provider = "coqui") /\ audio = []) \/
  (provider = "elevenlabs" /\
   exists response_text, elevenlabs_post E request = Ok (200%nat, response_text, audio)).

(** [m] ends with [r], in whatever state it is run. *)
Definition answers {A} (m : M A) (r : Result A) : Prop :=
  forall w, snd (run m w) = r.

(** The files that a run of the pipeline writes in the directory of its
    job. *)
Definition run_files : list string :=
  ["transcript.json"; "diarized.json"; "summary.json"; "summary.mp3"].

(** Every file but those of the job [j] that are named in [names] holds
    what it held. *)
Definition wrote_only (j : string) (names : list string) : relation World :=
  fun w w' =>
    forall j' n, j' ≠ j \/ n ∉ names -> file_of j' n w' = file_of j' n w.

(** In a run started in [w0], the registry shows the job in stage [s] and
    the run has added the events [evs] to the trace. *)
Definition at_stage (j : string) (w0 : World) (s : ProcessingStage)
    (evs : list Event) (w : World) : Prop :=
  stage <$> _jobs w !! j = Some s /\ trace w = trace w0 ++ evs.

(** *** The operations that write to the registry *)

Inductive Mutation :=
| CreateStatus (job_id : string)
| UpdateStage (job_id : string) (stage : ProcessingStage) (detail : option string)
| AddError (job_id : string) (message : string)
| SetAsset (job_id key url : string)
| StoreTranscript (job_id : string) (transcript : TranscriptResult)
| StoreSummary (job_id : string) (summary : SummaryResult)
| StoreSummaryAudio (job_id : string) (path : string)
| ProcessJob (job_id : string) (audio_path : Path) (enable_tts : bool).

Definition mutate (E : Env) (mu : Mutation) : M unit :=
  match mu with
  | CreateStatus j => pipeline.create_status E j ;; mret tt
  | UpdateStage j s d => pipeline.update_stage E j s d
  | AddError j msg => pipeline.add_error E j msg
  | SetAsset j key url => pipeline.set_asset j key url
  | StoreTranscript j t => ref ← new_transcript t; pipeline.store_transcript j ref
  | StoreSummary j s => pipeline.store_summary j s
  | StoreSummaryAudio j path => pipeline.store_summary_audio j path
  | ProcessJob j p tts => pipeline.process_job E j p tts ;; mret tt
  end.

(** The operations done one after the other; one that raises leaves the
    state as it was when it raised, and the next goes on from there. *)
Definition mutate_all (E : Env) (mus : list Mutation) (w : World) : World :=
  foldl (fun w mu => fst (run (mutate E mu) w)) w mus.

Definition is_create (mu : Mutation) : bool :=
  match mu with
  | CreateStatus _ => true
  | _ => false
  end.


(* ================================================================== *)
(** ** Deployments and states used as examples                         *)
(* ================================================================== *)

Definition unreachable {A} : Result A := Raise (ProviderError "service unreachable").

(** No key configured, the custom summariser, and the TTS provider given. *)
Definition settings_of (tts_provider : string) : Settings :=
  mkSettings "storage/results" "openai" None None None "custom" None None
             tts_provider None None None.

Definition env_of (tts_provider : string)
    (whisper : list WhisperSegment)
    (hoard : option (Path -> list (Q * Q * string) -> Result (list HoardSegment)))
    : Env :=
  mkEnv (fun n => Z.of_nat n) (settings_of tts_provider)
        (fun _ => Ok (Some "en", whisper)) hoard
        (fun _ => unreachable) (fun _ => unreachable) (fun _ => unreachable)
        (fun _ => unreachable) (fun _ => unreachable)
        (fun _ => None) (fun _ _ => None) (fun _ => "0.00").

Definition three_segments : list WhisperSegment :=
  [mkWhisperSegment 0 1 "hi"; mkWhisperSegment 1 2 "there";
   mkWhisperSegment 2 3 "bye"].

(** Whisper hears three segments, Hoard is not installed, the Google TTS
    stub is chosen: every stage succeeds offline. *)
Definition env_dev : Env := env_of "google" three_segments None.

(** The same with no TTS provider: speech synthesis raises. *)
Definition env_no_tts : Env := env_of "none" three_segments None.

(** Hoard is installed and crashes. *)
Definition env_hoard_down : Env :=
  env_of "google" three_segments
         (Some (fun _ _ => Raise (ProviderError "hoard crashed"))).

(** Hoard is installed and merges the three turns into one segment. *)
Definition env_hoard_merging : Env :=
  env_of "google" three_segments
         (Some (fun _ _ =>
                  Ok [mkHoardSegment (Some "Speaker A") (Some 0%Q) (Some 3%Q)
                                     (Some "hi there bye")])).

(** Whisper hears nothing. *)
Definition env_silence : Env := env_of "google" [] None.

Definition episode : UploadFile := mkUploadFile (Some "episode.mp3") [73; 68; 51]%Z.

Definition source_mp3 : Path := mkPath "job1" "source.mp3".

(** The state after the upload of a file as job [job1]. *)
Definition uploaded (E : Env) : World :=
  fst (run (main.upload_podcast E "job1" (Some episode) None) empty_world).

(** The state after a request to fetch a URL as job [job2], the download
    not yet done. *)
Definition awaiting_download (E : Env) : World :=
  fst (run (main.upload_podcast E "job2" None (Some "http://example.org/e.mp3"))
           empty_world).

(* ================================================================== *)
(** ** main.py: media files and CORS origins                           *)
(* ================================================================== *)

(** [FileResponse(path, media_type=...)]. *)
Record FileResponse := mkFileResponse {
  file_path : Path;
  media_type : string
}.

Definition get_audio_file_path (E : Env) (job_id file_name : string) : M Path :=
  job_dir ← pipeline.get_job_dir E job_id;
  mret (mkPath job_dir file_name).

(** [serve_media] for a job identifier and a file name that are plain
    names: [path.exists()] is then read among the files of the job
    directory. *)
Definition serve_media (E : Env) (job_id file_name : string) : M FileResponse :=
  path ← get_audio_file_path E job_id file_name;
  found ← gets (fun w => file_of (parent path) (name path) w);
  match found with
  | None => raise (HTTPException 404 "Media file not found.")
  | Some _ =>
      mret (mkFileResponse path
              (if String.eqb (suffix (name path)) ".mp3" then "audio/mpeg"
               else "application/octet-stream"))
  end.

(** [s.split(",")]. *)
Fixpoint split_comma (s : string) : list string :=
  match s with
  | EmptyString => [EmptyString]
  | String c s' =>
      if Ascii.eqb c ","%char then EmptyString :: split_comma s'
      else match split_comma s' with
           | piece :: pieces => String c piece :: pieces
           | [] => [String c EmptyString]
           end
  end.

(** The origins [configure_cors] derives from [settings.cors_origins]. *)
Definition cors_origins_of (cors_origins : string) : list string :=
  omap (fun origin =>
          if String.eqb (strip origin) "" then None else Some (strip origin))
       (split_comma cors_origins).

(** The application, as far as [configure_cors] goes: the origin lists of
    the CORS middlewares added, and [app.state.cors_configured]. *)
Record App := mkApp {
  cors_middlewares : list (list string);
  cors_configured : bool
}.

Definition configure_cors (app : App) (cors_origins : string) : App :=
  let origins := cors_origins_of cors_origins in
  if cors_configured app then app
  else mkApp (match origins with [] => ["*"] | _ => origins end
                :: cors_middlewares app)
             true.

(** No object is lost, the objects below [n] are kept, and so is everything
    the registry and the disk hold for the jobs other than [j]. *)
Definition others_kept (j : string) (n : nat) : relation World := fun w w' =>
  (length (objects w) <= length (objects w'))%nat /\
  (forall r t, (r < n)%nat -> objects w !! r = Some t -> objects w' !! r = Some t) /\
  forall j', j' ≠ j ->
    _jobs w' !! j' = _jobs w !! j' /\
    _transcripts w' !! j' = _transcripts w !! j' /\
    _summaries w' !! j' = _summaries w !! j' /\
    _summary_audio w' !! j' = _summary_audio w !! j' /\
    results_dir w' !! j' = results_dir w !! j'.

(** The state after the upload of [job1], with a second job that holds a
    transcript and a summary audio. *)
Definition two_jobs (E : Env) : World :=
  mutate_all E
    [CreateStatus "job2";
     StoreTranscript "job2"
       (mkTranscriptResult (Some "fr") None [mkSpeakerTurn "Speaker 1" 0 1 "salut"]);
     StoreSummaryAudio "job2" "/media/job2/summary.mp3"]
    (uploaded E).

(** The deployment of [env_dev] on a disk that is full: directories can be
    made and files opened, nothing can be written to them. *)
Definition env_disk_full : Env :=
  mkEnv (clock env_dev) (settings env_dev) (faster_whisper env_dev)
        (HoardDiarizer env_dev) (openai_post env_dev) (gemini_post env_dev)
        (http_get env_dev) (azure_post env_dev) (elevenlabs_post env_dev)
        (fun _ => None)
        (fun _ _ => Some (mkWriteFault "No space left on device" (Some 0%nat)))
        (fmt_2f env_dev).

(** The deployment of [env_dev] with a Whisper model that cannot be
    loaded. *)
Definition env_whisper_down : Env :=
  mkEnv (clock env_dev) (settings env_dev)
        (fun _ => Raise (ProviderError "model not found"))
        (HoardDiarizer env_dev) (openai_post env_dev) (gemini_post env_dev)
        (http_get env_dev) (azure_post env_dev) (elevenlabs_post env_dev)
        (mkdir_fault env_dev) (write_fault env_dev) (fmt_2f env_dev).

(** The default deployment as to speech: ElevenLabs with no key. *)
Definition env_default : Env := env_of "elevenlabs" three_segments None.

(** The deployment of [env_dev] with OpenAI as summariser, which cannot
    be reached. *)
Definition env_llm_down : Env :=
  mkEnv (clock env_dev)
        (mkSettings "storage/results" "openai" None None None
                    "openai" (Some "sk-test") None "google" None None None)
        (faster_whisper env_dev)
        (HoardDiarizer env_dev) (openai_post env_dev) (gemini_post env_dev)
        (http_get env_dev) (azure_post env_dev) (elevenlabs_post env_dev)
        (mkdir_fault env_dev) (write_fault env_dev) (fmt_2f env_dev).

(** The deployment of [env_dev] with a network that answers every
    download with the same three bytes. *)
Definition env_online : Env :=
  mkEnv (clock env_dev) (settings env_dev) (faster_whisper env_dev)
        (HoardDiarizer env_dev) (openai_post env_dev) (gemini_post env_dev)
        (fun _ => Ok [1; 2; 3]%Z) (azure_post env_dev) (elevenlabs_post env_dev)
        (mkdir_fault env_dev) (write_fault env_dev) (fmt_2f env_dev).

(** Every record is filed under its own identifier and its timestamps were
    read from the clock, the creation no later than the last update. *)
Definition well_stamped (E : Env) (w : World) : Prop :=
  forall j st, _jobs w !! j = Some st ->
    job_id st = j /\
    exists nc nu, (nc <= nu < ticks w)%nat /\
      created_at st = clock E nc /\ updated_at st = clock E nu.

(** Time does not go back and well stamped records stay so. *)
Definition keeps_well_stamped (E : Env) : relation World := fun w w' =>
  (ticks w <= ticks w')%nat /\ (well_stamped E w -> well_stamped E w').

(** No job leaves the registry, and the identifier and the creation time
    of its record are kept. *)
Definition identity_kept : relation World := fun w w' =>
  forall j st, _jobs w !! j = Some st ->
    exists st', _jobs w' !! j = Some st' /\
      job_id st' = job_id st /\ created_at st' = created_at st.

(** An origin as it can be listed in [CORS_ORIGINS]: not blank, with no
    comma, and with no white space around it. *)
Definition listable_origin (o : string) : Prop :=
  o ≠ "" /\ mentions "," o = false /\ strip o = o.

(* ================================================================== *)
(** ** Running sequenced and guarded code                              *)
(* ================================================================== *)

Section Run.
Context {A B : Type}.

Lemma runCo_bindCo (c : Co A) (f : A -> M B) (w : World) :
  run (bindCo c f) w =
  match runCo c w with
  | (w', Ok a) => run (f a) w'
  | (w', Raise e) => (w', Raise e)
  end.
Proof.
  revert w. induction c as [[a|e]|k IH] using Co_resume_ind; intros w.
  - reflexivity.
  - reflexivity.
  - unfold run in *. cbn. specialize (IH w). destruct (k w) as [w2 c']. apply IH.
Qed.

Lemma run_bind (m : M A) (f : A -> M B) (w : World) :
  run (m ≫= f) w =
  match run m w with
  | (w', Ok a) => run (f a) w'
  | (w', Raise e) => (w', Raise e)
  end.
Proof.
  unfold mbind, M_bind, bind, run.
  destruct (m w) as [w1 c]. exact (runCo_bindCo c f w1).
Qed.

Lemma runCo_exceptCo (c : Co A) (h : exn -> M A) (w : World) :
  run (exceptCo c h) w =
  match runCo c w with
  | (w', Ok a) => (w', Ok a)
  | (w', Raise e) => run (h e) w'
  end.
Proof.
  revert w. induction c as [[a|e]|k IH] using Co_resume_ind; intros w.
  - reflexivity.
  - reflexivity.
  - unfold run in *. cbn. specialize (IH w). destruct (k w) as [w2 c']. apply IH.
Qed.

Lemma run_try_except (m : M A) (h : exn -> M A) (w : World) :
  run (try_except m h) w =
  match run m w with
  | (w', Ok a) => (w', Ok a)
  | (w', Raise e) => run (h e) w'
  end.
Proof.
  unfold try_except, run.
  destruct (m w) as [w1 c]. exact (runCo_exceptCo c h w1).
Qed.
End Run.

(** *** Rules for [wp] *)

Section WpRules.
Context {A : Type}.
Implicit Types (Q : Result A -> World -> Prop) (w : World).

Lemma wp_ret (a : A) Q w : Q (Ok a) w -> wp (mret a) Q w.
Proof. exact id. Qed.

Lemma wp_raise (e : exn) Q w : Q (Raise e) w -> wp (raise e) Q w.
Proof. exact id. Qed.

Lemma wp_lift (r : Result A) Q w : Q r w -> wp (lift r) Q w.
Proof. exact id. Qed.

Lemma wp_gets (f : World -> A) Q w : Q (Ok (f w)) w -> wp (gets f) Q w.
Proof. exact id. Qed.

Lemma wp_mono (m : M A) Q Q' w :
  (forall r w', Q r w' -> Q' r w') -> wp m Q w -> wp m Q' w.
Proof. unfold wp. auto. Qed.

Lemma wp_bind {B} (m : M B) (f : B -> M A) Q w :
  wp m (fun r w' =>
          match r with
          | Ok b => wp (f b) Q w'
          | Raise e => Q (Raise e) w'
          end) w ->
  wp (m ≫= f) Q w.
Proof.
  unfold wp. rewrite run_bind.
  destruct (run m w) as [w' [b|e]]; auto.
Qed.

Lemma wp_try_except (m : M A) (h : exn -> M A) Q w :
  wp m (fun r w' =>
          match r with
          | Ok a => Q (Ok a) w'
          | Raise e => wp (h e) Q w'
          end) w ->
  wp (try_except m h) Q w.
Proof.
  unfold wp. rewrite run_try_except.
  destruct (run m w) as [w' [a|e]]; auto.
Qed.

Lemma wp_run (m : M A) Q w w' r : run m w = (w', r) -> Q r w' -> wp m Q w.
Proof. unfold wp. intros ->. auto. Qed.

(** What is known of every run of [m] is known of this one. *)
Lemma wp_preserves (R : relation World) (m : M A) Q w :
  preserves R m -> (forall r w', R w w' -> Q r w') -> wp m Q w.
Proof. unfold wp. intros Hm HQ. apply HQ, Hm. Qed.
End WpRules.

Lemma wp_modify (f : World -> World) (Q : Result unit -> World -> Prop) w :
  Q (Ok tt) (f w) -> wp (modify f) Q w.
Proof. exact id. Qed.

Lemma wp_suspend (Q : Result unit -> World -> Prop) w :
  Q (Ok tt) w -> wp suspend Q w.
Proof. exact id. Qed.

(** *** Rules for [preserves] *)

Section PreservesRules.
Context (R : relation World) `{!PreOrder R}.

Lemma preserves_ret {A} (a : A) : preserves R (mret a).
Proof. intros w. reflexivity. Qed.

Lemma preserves_raise {A} (e : exn) : preserves R (raise (A:=A) e).
Proof. intros w. reflexivity. Qed.

Lemma preserves_lift {A} (r : Result A) : preserves R (lift r).
Proof. intros w. reflexivity. Qed.

Lemma preserves_gets {A} (f : World -> A) : preserves R (gets f).
Proof. intros w. reflexivity. Qed.

Lemma preserves_suspend : preserves R suspend.
Proof. intros w. reflexivity. Qed.

Lemma preserves_modify (f : World -> World) :
  (forall w, R w (f w)) -> preserves R (modify f).
Proof. intros Hf w. apply Hf. Qed.

Lemma preserves_bind {A B} (m : M A) (f : A -> M B) :
  preserves R m -> (forall a, preserves R (f a)) -> preserves R (m ≫= f).
Proof.
  intros Hm Hf w. rewrite run_bind.
  specialize (Hm w). destruct (run m w) as [w' [a|e]]; cbn in *.
  - etransitivity; [exact Hm | apply Hf].
  - exact Hm.
Qed.

Lemma preserves_try_except {A} (m : M A) (h : exn -> M A) :
  preserves R m -> (forall e, preserves R (h e)) -> preserves R (try_except m h).
Proof.
  intros Hm Hh w. rewrite run_try_except.
  specialize (Hm w). destruct (run m w) as [w' [a|e]]; cbn in *.
  - exact Hm.
  - etransitivity; [exact Hm | apply Hh].
Qed.
End PreservesRules.

(* ================================================================== *)
(** ** The registry operations, run                                    *)
(* ================================================================== *)

Section Registry.
Variable E : Env.
Implicit Types (j : string) (w : World) (st : ProcessingStatus).

Lemma run_lookup_job j w :
  run (pipeline.lookup_job j) w =
  match _jobs w !! j with
  | Some st => (w, Ok st)
  | None => (w, Raise (KeyError j))
  end.
Proof. unfold run, pipeline.lookup_job. destruct (_jobs w !! j); reflexivity. Qed.

Lemma run_create_status j w :
  run (pipeline.create_status E j) w =
  let fresh :=
    mkProcessingStatus j UPLOADED None (clock E (ticks w)) (clock E (ticks w)) [] ∅ in
  (set_jobs <[j := fresh]> (set_ticks S w), Ok fresh).
Proof. reflexivity. Qed.

Lemma run_update_stage j s d w st :
  _jobs w !! j = Some st ->
  run (pipeline.update_stage E j s d) w =
  (set_trace (fun t => t ++ [EvStage j s])
     (set_jobs <[j := with_stage s d (clock E (ticks w)) st]> (set_ticks S w)),
   Ok tt).
Proof.
  intros Hj. unfold pipeline.update_stage. rewrite run_bind, run_lookup_job, Hj.
  reflexivity.
Qed.

Lemma run_update_stage_absent j s d w :
  _jobs w !! j = None ->
  run (pipeline.update_stage E j s d) w = (w, Raise (KeyError j)).
Proof.
  intros Hj. unfold pipeline.update_stage. rewrite run_bind, run_lookup_job, Hj.
  reflexivity.
Qed.

Lemma run_add_error j msg w st :
  _jobs w !! j = Some st ->
  run (pipeline.add_error E j msg) w =
  (set_trace (fun t => t ++ [EvError j msg])
     (set_jobs <[j := with_error msg (clock E (ticks w)) st]> (set_ticks S w)),
   Ok tt).
Proof.
  intros Hj. unfold pipeline.add_error. rewrite run_bind, run_lookup_job, Hj.
  reflexivity.
Qed.

Lemma run_add_error_absent j msg w :
  _jobs w !! j = None ->
  run (pipeline.add_error E j msg) w = (w, Raise (KeyError j)).
Proof.
  intros Hj. unfold pipeline.add_error. rewrite run_bind, run_lookup_job, Hj.
  reflexivity.
Qed.

Lemma run_set_asset j key url w st :
  _jobs w !! j = Some st ->
  run (pipeline.set_asset j key url) w =
  (set_jobs <[j := with_asset key url st]> w, Ok tt).
Proof.
  intros Hj. unfold pipeline.set_asset, pipeline.get.
  rewrite run_bind, run_lookup_job, Hj. reflexivity.
Qed.

Lemma run_set_asset_absent j key url w :
  _jobs w !! j = None ->
  run (pipeline.set_asset j key url) w = (w, Raise (KeyError j)).
Proof.
  intros Hj. unfold pipeline.set_asset, pipeline.get.
  rewrite run_bind, run_lookup_job, Hj. reflexivity.
Qed.
End Registry.

(* ================================================================== *)
(** ** What the operations keep                                        *)
(* ================================================================== *)

#[global] Instance errors_grow_preorder : PreOrder errors_grow.
Proof.
  split.
  - intros w j st Hj. exists st. split; [exact Hj | reflexivity].
  - intros w1 w2 w3 H12 H23 j st Hj.
    destruct (H12 j st Hj) as (st2 & Hj2 & Hp2).
    destruct (H23 j st2 Hj2) as (st3 & Hj3 & Hp3).
    exists st3. split; [exact Hj3 | by etransitivity].
Qed.

#[global] Instance same_stages_preorder : PreOrder same_stages.
Proof.
  split.
  - intros w. split; reflexivity.
  - intros w1 w2 w3 [Ht12 Hs12] [Ht23 Hs23]. split.
    + congruence.
    + intros j. rewrite Hs23. apply Hs12.
Qed.

#[global] Instance same_jobs_preorder : PreOrder same_jobs.
Proof.
  split.
  - intros w. split; reflexivity.
  - intros w1 w2 w3 [Ht12 Hs12] [Ht23 Hs23]. split; congruence.
Qed.

#[global] Instance same_transcripts_preorder : PreOrder same_transcripts.
Proof.
  split.
  - intros w. split; reflexivity.
  - intros w1 w2 w3 [Ht12 Hs12] [Ht23 Hs23]. split; congruence.
Qed.

#[global] Instance stamped_preorder E : PreOrder (stamped E).
Proof.
  split.
  - intros w. split; [lia|]. intros j st Hj. left. eauto.
  - intros w1 w2 w3 [Hn12 H12] [Hn23 H23]. split; [lia|].
    intros j st3 Hj3.
    destruct (H23 j st3 Hj3) as [(st2 & Hj2 & Heq)|(n & Hn & Heq)].
    + destruct (H12 j st2 Hj2) as [(st1 & Hj1 & Heq1)|(n & Hn & Heq1)].
      * left. exists st1. split; [exact Hj1 | congruence].
      * right. exists n. split; [lia | congruence].
    + right. exists n. split; [lia | exact Heq].
Qed.

#[global] Instance eq_world_preorder : PreOrder (@eq World).
Proof. split; [intros w; reflexivity | intros w1 w2 w3; congruence]. Qed.

Section Keeps.
Variable E : Env.
Context (R : relation World) `{!PreOrder R}.

Lemma preserves_lookup_job j : preserves R (pipeline.lookup_job j).
Proof.
  intros w. rewrite run_lookup_job. destruct (_jobs w !! j); reflexivity.
Qed.

Lemma preserves_utcnow :
  (forall w, R w (set_ticks S w)) -> preserves R (utcnow E).
Proof. intros H w. apply H. Qed.

Lemma preserves_new_transcript t :
  (forall w, R w (set_objects (fun h => h ++ [t]) w)) ->
  preserves R (new_transcript t).
Proof. intros H w. apply H. Qed.
End Keeps.

#[global] Instance only_disk_preorder : PreOrder only_disk.
Proof.
  split.
  - intros []. reflexivity.
  - intros [] [] [] H12 H23. unfold only_disk, set_results_dir in *. cbn in *.
    inversion H12; inversion H23; subst. reflexivity.
Qed.

Lemma preserves_weaken {A} (R R' : relation World) (m : M A) :
  (forall w w', R w w' -> R' w w') -> preserves R m -> preserves R' m.
Proof. intros HR Hm w. apply HR, Hm. Qed.

Ltac head_of t :=
  lazymatch t with
  | ?f _ => head_of f
  | _ => t
  end.

(** [keeps tac] proves [preserves R m] by taking [m] apart; [tac] proves
    that a state update is within [R]. *)
Ltac keeps tac :=
  repeat match goal with
  | |- preserves _ (_ ≫= _) => apply preserves_bind; [typeclasses eauto | | intros]
  | |- preserves _ (try_except _ _) =>
      apply preserves_try_except; [typeclasses eauto | | intros]
  | |- preserves _ (mret _) => apply preserves_ret; typeclasses eauto
  | |- preserves _ (raise _) => apply preserves_raise; typeclasses eauto
  | |- preserves _ (lift _) => apply preserves_lift; typeclasses eauto
  | |- preserves _ (gets _) => apply preserves_gets; typeclasses eauto
  | |- preserves _ suspend => apply preserves_suspend; typeclasses eauto
  | |- preserves _ (pipeline.lookup_job _) =>
      apply preserves_lookup_job; typeclasses eauto
  | |- preserves _ (modify _) => apply preserves_modify; solve [tac]
  | |- preserves _ (utcnow _) => apply preserves_utcnow; solve [tac]
  | |- preserves _ (new_transcript _) => apply preserves_new_transcript; solve [tac]
  | |- preserves _ (if ?b then _ else _) => destruct b
  | |- preserves _ (match ?x with _ => _ end) => destruct x
  | |- preserves _ ?m =>
      first [ solve [eauto with keeps]
            | let h := head_of m in progress unfold h ]
  end.

Create HintDb keeps.

Ltac on_disk := intros []; reflexivity.

Section Disk.
Variable E : Env.

Lemma get_job_dir_only_disk j : preserves only_disk (storage.get_job_dir E j).
Proof. keeps on_disk. Qed.

Lemma write_file_only_disk d n c : preserves only_disk (storage.write_file E d n c).
Proof. keeps on_disk. Qed.

Lemma save_text_only_disk j n c : preserves only_disk (storage.save_text E j n c).
Proof. keeps on_disk. Qed.

Lemma save_binary_only_disk j n c : preserves only_disk (storage.save_binary E j n c).
Proof. keeps on_disk. Qed.

Lemma save_upload_only_disk j f : preserves only_disk (storage.save_upload E j f).
Proof. keeps on_disk. Qed.

Lemma transcribe_audio_pure p : preserves eq (transcription.transcribe_audio E p).
Proof. keeps fail. Qed.

Lemma diarize_pure ts p : preserves eq (diarization.diarize E ts p).
Proof. keeps fail. Qed.

Lemma summarize_pure ts : preserves eq (llm.summarize E ts).
Proof. keeps fail. Qed.

Lemma synthesize_tts_only_disk req : preserves only_disk (tts.synthesize_tts E req).
Proof. keeps on_disk. Qed.
End Disk.

(** What changes the disk only stays within each of the relations. *)
Section DiskOnly.
Context {A : Type} (m : M A).

Lemma pure_only_disk : preserves eq m -> preserves only_disk m.
Proof. apply preserves_weaken. intros w ? <-. reflexivity. Qed.

Lemma only_disk_errors_grow : preserves only_disk m -> preserves errors_grow m.
Proof.
  apply preserves_weaken. intros w w' ->. intros j st Hj.
  exists st. split; [exact Hj | reflexivity].
Qed.

Lemma only_disk_same_jobs : preserves only_disk m -> preserves same_jobs m.
Proof. apply preserves_weaken. intros w w' ->. split; reflexivity. Qed.

Lemma only_disk_same_stages : preserves only_disk m -> preserves same_stages m.
Proof. apply preserves_weaken. intros w w' ->. split; reflexivity. Qed.

Lemma only_disk_same_transcripts :
  preserves only_disk m -> preserves same_transcripts m.
Proof. apply preserves_weaken. intros w w' ->. split; reflexivity. Qed.

Lemma only_disk_stamped E : preserves only_disk m -> preserves (stamped E) m.
Proof.
  apply preserves_weaken. intros w w' ->. split; [reflexivity|].
  intros j st Hj. left. eauto.
Qed.
End DiskOnly.

#[global] Hint Resolve get_job_dir_only_disk write_file_only_disk save_text_only_disk
  save_binary_only_disk save_upload_only_disk transcribe_audio_pure diarize_pure
  summarize_pure synthesize_tts_only_disk pure_only_disk only_disk_errors_grow
  only_disk_same_jobs only_disk_same_stages only_disk_same_transcripts
  only_disk_stamped : keeps.

(** *** The errors of a job only grow *)

Section ErrorsGrow.
Variable E : Env.

Lemma errors_grow_insert w j (f : ProcessingStatus -> ProcessingStatus) st0 g :
  _jobs w !! j = Some st0 ->
  errors st0 `prefix_of` errors (f st0) ->
  _jobs (g w) = _jobs w ->
  errors_grow w (set_jobs <[j := f st0]> (g w)).
Proof.
  intros Hj Hp Hg j' st Hj'. cbn. rewrite Hg.
  destruct (decide (j = j')) as [<-|Hne].
  - rewrite lookup_insert_eq. exists (f st0). split; [done | congruence].
  - rewrite lookup_insert_ne by done. exists st. split; [done | reflexivity].
Qed.

Lemma update_stage_errors_grow j s d :
  preserves errors_grow (pipeline.update_stage E j s d).
Proof.
  intros w. destruct (_jobs w !! j) as [st|] eqn:Hj.
  - rewrite (run_update_stage E j s d w st Hj). cbn -[set_jobs].
    apply (errors_grow_insert w j (with_stage s d _) st
             (fun w => set_trace _ (set_ticks S w))); done.
  - rewrite (run_update_stage_absent E j s d w Hj). reflexivity.
Qed.

Lemma add_error_errors_grow j msg :
  preserves errors_grow (pipeline.add_error E j msg).
Proof.
  intros w. destruct (_jobs w !! j) as [st|] eqn:Hj.
  - rewrite (run_add_error E j msg w st Hj). cbn -[set_jobs].
    apply (errors_grow_insert w j (with_error msg _) st
             (fun w => set_trace _ (set_ticks S w))); [done | | done].
    cbn. by apply prefix_app_r.
  - rewrite (run_add_error_absent E j msg w Hj). reflexivity.
Qed.

Lemma set_asset_errors_grow j key url :
  preserves errors_grow (pipeline.set_asset j key url).
Proof.
  intros w. destruct (_jobs w !! j) as [st|] eqn:Hj.
  - rewrite (run_set_asset j key url w st Hj). cbn -[set_jobs].
    apply (errors_grow_insert w j (with_asset key url) st (fun w => w)); done.
  - rewrite (run_set_asset_absent j key url w Hj). reflexivity.
Qed.
End ErrorsGrow.

#[global] Hint Resolve update_stage_errors_grow add_error_errors_grow
  set_asset_errors_grow : keeps.

Ltac same_registry :=
  let H := fresh in intros ? ? ? H; eexists; split; [exact H | reflexivity].

Section ErrorsGrowRun.
Variable E : Env.

Lemma process_job_try_errors_grow j p tts :
  preserves errors_grow (pipeline.process_job_try E j p tts).
Proof. keeps same_registry. Qed.

Lemma process_job_errors_grow j p tts :
  preserves errors_grow (pipeline.process_job E j p tts).
Proof. keeps same_registry. Qed.
End ErrorsGrowRun.

(* ================================================================== *)
(** ** The steps of the pipeline, run                                  *)
(* ================================================================== *)

Section Steps.
Variable E : Env.
Implicit Types (j : string) (w : World).

Lemma run_invoke {A} j a (call : M A) w :
  run (pipeline.invoke j a call) w =
  run call (set_trace (fun t => t ++ [EvCall j a (stage <$> _jobs w !! j)]) w).
Proof. reflexivity. Qed.

Lemma run_save_text j n c w :
  mkdir_fault E j = None -> write_fault E j n = None ->
  run (storage.save_text E j n c) w = (written j n c w, Ok (mkPath j n)).
Proof.
  intros Hm Hw. unfold storage.save_text, storage.get_job_dir.
  rewrite run_bind, Hm, run_bind. cbn. unfold storage.write_file.
  rewrite Hw. reflexivity.
Qed.

Lemma run_save_text_cases j n c w :
  run (storage.save_text E j n c) w = (written j n c w, Ok (mkPath j n)) \/
  exists w' msg, only_disk w w' /\
    run (storage.save_text E j n c) w = (w', Raise (OSError msg)).
Proof.
  unfold storage.save_text, storage.get_job_dir. rewrite run_bind.
  destruct (mkdir_fault E j) as [msg|] eqn:Hm.
  - right. exists w, msg. split; reflexivity.
  - rewrite run_bind. cbn. unfold storage.write_file.
    destruct (write_fault E j n) as [[msg [k|]]|] eqn:Hw.
    + right. eexists _, msg. split; [|reflexivity]. by destruct w.
    + right. eexists _, msg. split; [|reflexivity]. by destruct w.
    + left. reflexivity.
Qed.

(** A save that fails: the directory could not be made, or the file could
    not be opened, or the write broke off and left the file truncated. *)
Lemma run_save_text_raises j n c w w' e :
  run (storage.save_text E j n c) w = (w', Raise e) ->
  (exists msg, e = OSError msg) /\ broken_save j n c w w'.
Proof.
  unfold broken_save.
  unfold storage.save_text, storage.get_job_dir. rewrite run_bind.
  destruct (mkdir_fault E j) as [msg|] eqn:Hm.
  - intros [= <- <-]. split; [by eexists | by left].
  - rewrite run_bind. cbn. unfold storage.write_file.
    destruct (write_fault E j n) as [[msg [k|]]|] eqn:Hw.
    + intros [= <- <-]. split; [by eexists|]. right. right. by exists k.
    + intros [= <- <-]. split; [by eexists|]. right. by left.
    + intros [=].
Qed.

Lemma read_entry_write_entry n c entries :
  read_entry n (storage.write_entry n c entries) = Some c.
Proof.
  induction entries as [|[n0 c0] rest IH]; cbn.
  - by rewrite String.eqb_refl.
  - destruct (String.eqb n0 n) eqn:Hn; cbn; by rewrite Hn.
Qed.

Lemma read_entry_write_entry_ne n n' c entries :
  n ≠ n' ->
  read_entry n' (storage.write_entry n c entries) = read_entry n' entries.
Proof.
  intros Hne. induction entries as [|[n0 c0] rest IH]; cbn.
  - destruct (String.eqb n n') eqn:Hn; [|done].
    by apply String.eqb_eq in Hn.
  - destruct (String.eqb n0 n) eqn:Hn; cbn.
    + apply String.eqb_eq in Hn as ->.
      destruct (String.eqb n n') eqn:Hn'; [|done].
      by apply String.eqb_eq in Hn'.
    + by rewrite IH.
Qed.

Lemma file_of_written j n c w : file_of j n (written j n c w) = Some c.
Proof.
  unfold file_of, written. cbn. rewrite lookup_insert_eq. cbn.
  apply read_entry_write_entry.
Qed.

Lemma file_of_written_ne j n n' c w :
  n ≠ n' -> file_of j n' (written j n c w) = file_of j n' w.
Proof.
  intros Hne. unfold file_of, written. cbn. rewrite lookup_insert_eq. cbn.
  rewrite read_entry_write_entry_ne by done.
  destruct (results_dir w !! j) as [es|] eqn:Hd; cbn.
  - by rewrite Hd.
  - by rewrite lookup_insert_eq.
Qed.

Lemma file_of_made_dir j j' n w : file_of j' n (made_dir j w) = file_of j' n w.
Proof.
  unfold file_of, made_dir. cbn.
  destruct (results_dir w !! j) as [entries|] eqn:Hd; [done|].
  destruct (decide (j = j')) as [<-|Hne].
  - by rewrite lookup_insert_eq, Hd.
  - by rewrite lookup_insert_ne.
Qed.

Lemma file_of_written_other j j' n n' c w :
  j' ≠ j -> file_of j' n' (written j n c w) = file_of j' n' w.
Proof.
  intros Hne. unfold written.
  transitivity (file_of j' n' (made_dir j w)); [|apply file_of_made_dir].
  unfold file_of. cbn. by rewrite lookup_insert_ne.
Qed.
Lemma new_transcript_lookup t (h : list TranscriptResult) :
  (h ++ [t]) !! length h = Some t.
Proof. by rewrite lookup_app_r, Nat.sub_diag by lia. Qed.
End Steps.

(* ================================================================== *)
(** ** Stages and adapter calls along a run                            *)
(* ================================================================== *)

Ltac same_stages_tac := intros ?; split; [reflexivity | intros ?; reflexivity].

Section Stages.
Variable E : Env.
Implicit Types (j : string) (w : World) (s : ProcessingStage) (evs : list Event).

Lemma set_asset_same_stages j key url :
  preserves same_stages (pipeline.set_asset j key url).
Proof.
  intros w. destruct (_jobs w !! j) as [st|] eqn:Hj.
  - rewrite (run_set_asset j key url w st Hj). split; [reflexivity|].
    intros j'. cbn. destruct (decide (j = j')) as [<-|Hne].
    + by rewrite lookup_insert_eq, Hj.
    + by rewrite lookup_insert_ne.
  - rewrite (run_set_asset_absent j key url w Hj). reflexivity.
Qed.

Lemma at_stage_frame j w0 s evs w w' :
  same_stages w w' -> at_stage j w0 s evs w -> at_stage j w0 s evs w'.
Proof. intros [Ht Hs] [H1 H2]. split; [by rewrite Hs | by rewrite Ht]. Qed.

Lemma wp_update_stage_at j w0 s evs s' d w :
  at_stage j w0 s evs w ->
  wp (pipeline.update_stage E j s' d)
     (fun r w' => r = Ok tt /\ at_stage j w0 s' (evs ++ [EvStage j s']) w') w.
Proof.
  intros [Hs Ht]. destruct (_jobs w !! j) as [st|] eqn:Hj; [|done].
  eapply wp_run; [by apply run_update_stage|].
  split; [done|]. split; cbn.
  - by rewrite lookup_insert_eq.
  - by rewrite Ht, <- app_assoc.
Qed.

Lemma wp_invoke_at {A} j w0 s evs a (call : M A) w :
  preserves same_stages call ->
  at_stage j w0 s evs w ->
  wp (pipeline.invoke j a call)
     (fun _ w' => at_stage j w0 s (evs ++ [EvCall j a (Some s)]) w') w.
Proof.
  intros Hcall [Hs Ht]. unfold wp. rewrite run_invoke, Hs.
  eapply at_stage_frame; [apply Hcall|].
  split; cbn; [done | by rewrite Ht, <- app_assoc].
Qed.
End Stages.

#[global] Hint Resolve set_asset_same_stages : keeps.

Ltac prefix_of_plan :=
  unfold plan; cbn; eexists; reflexivity.

(** The three kinds of step of [process_job_try], for a goal on the code
    that is left and the hypothesis [H] on the state reached. *)
Ltac raised H := eexists _, _; split; [exact H | prefix_of_plan].

Ltac step_update H :=
  eapply wp_bind, wp_mono;
    [| apply (wp_update_stage_at _ _ _ _ _ _ _ _ H)];
  clear H; intros ? ? [-> H]; cbn beta iota.

Ltac step_invoke H :=
  eapply wp_bind, wp_mono;
    [| apply wp_invoke_at; [solve [eauto 6 with keeps] | exact H]];
  clear H; intros [?|?] ? H; cbn beta iota; [| raised H].

Ltac step_frame H :=
  eapply wp_bind, (wp_preserves same_stages);
    [solve [keeps same_stages_tac] |];
  let HR := fresh in
  intros [?|?] ? HR; apply (at_stage_frame _ _ _ _ _ _ HR) in H; clear HR;
  cbn beta iota; [| raised H].

Ltac step_frame_last H :=
  eapply (wp_preserves same_stages);
    [solve [keeps same_stages_tac] |];
  let HR := fresh in
  intros [?|?] ? HR; apply (at_stage_frame _ _ _ _ _ _ HR) in H; clear HR;
  cbn beta iota; [| raised H].

Ltac step H :=
  lazymatch goal with
  | |- wp (let '(_, _) := ?a in _) _ _ => destruct a
  | |- wp (pipeline.update_stage _ _ _ _ ≫= _) _ _ => step_update H
  | |- wp (pipeline.invoke _ _ _ ≫= _) _ _ => step_invoke H
  | |- wp ((if ?b then _ else _) ≫= _) _ _ => destruct b; apply wp_bind
  | |- wp (_ ≫= _) _ _ => step_frame H
  | |- wp (pipeline.store_summary_audio _ _) _ _ => step_frame_last H
  | |- wp (mret _) _ _ => apply wp_ret; cbn beta iota
  end.

Section Trace.
Variable E : Env.

Lemma process_job_try_trace j p tts w s0 :
  stage <$> _jobs w !! j = Some s0 ->
  wp (pipeline.process_job_try E j p tts)
     (fun r w' => exists s evs, at_stage j w s evs w' /\
        match r with
        | Ok _ => evs = plan j tts /\ s = COMPLETED
        | Raise _ => evs `prefix_of` plan j tts
        end) w.
Proof.
  intros Hs0.
  assert (H : at_stage j w s0 [] w) by (split; [done | by rewrite app_nil_r]).
  clear Hs0. unfold pipeline.process_job_try.
  repeat step H.
  all: eapply wp_mono; [| apply (wp_update_stage_at _ _ _ _ _ _ _ _ H)].
  all: intros ? ? [-> H']; eexists _, _; split; [exact H' | split; reflexivity].
Qed.

(** A run on a registered job returns the status of the job, having
    added to the trace the whole plan, or a part of it and the failure. *)
Lemma process_job_trace j p tts w :
  registered j w ->
  exists w' st evs,
    run (pipeline.process_job E j p tts) w = (w', Ok st) /\
    _jobs w' !! j = Some st /\
    trace w' = trace w ++ evs /\
    ((stage st = COMPLETED /\ evs = plan j tts) \/
     (stage st = FAILED /\ exists pre msg,
        evs = pre ++ [EvError j msg] /\ pre `prefix_of` plan j tts)).
Proof.
  intros [st0 Hj].
  assert (Hs0 : stage <$> _jobs w !! j = Some (stage st0)) by (by rewrite Hj).
  pose proof (process_job_try_trace j p tts w _ Hs0) as Htry.
  unfold wp in Htry. unfold pipeline.process_job.
  rewrite run_bind, run_try_except.
  destruct (run (pipeline.process_job_try E j p tts) w) as [w1 [[]|e]];
    cbn in Htry; destruct Htry as (s & evs & [Hs Ht] & Hr).
  - destruct Hr as [-> ->].
    destruct (_jobs w1 !! j) as [st|] eqn:Hj1; [|done].
    exists w1, st, (plan j tts). unfold pipeline.get.
    rewrite run_lookup_job, Hj1. repeat split; try done.
    left. split; [by inversion Hs | done].
  - destruct (_jobs w1 !! j) as [st1|] eqn:Hj1; [|done].
    rewrite (run_add_error E j _ w1 st1 Hj1). unfold pipeline.get.
    rewrite run_lookup_job. cbn. rewrite lookup_insert_eq.
    eexists _, _, (evs ++ [EvError j (str_exn e)]).
    split; [reflexivity|]. split; [cbn; apply lookup_insert_eq|]. split.
    + cbn. by rewrite Ht, <- app_assoc.
    + right. split; [done|]. by exists evs, (str_exn e).
Qed.
End Trace.

Section Plan.
Implicit Types (j : string) (tts : bool).

Lemma plan_calls j tts i j' a seen :
  plan j tts !! i = Some (EvCall j' a seen) ->
  seen = Some (entering a) /\
  exists i', i = S i' /\ plan j tts !! i' = Some (EvStage j' (entering a)).
Proof.
  destruct tts; cbn;
    do 10 (destruct i as [|i]; cbn; [intros [=]; subst; eauto|]);
    done.
Qed.

Lemma plan_stage_writes j tts :
  stage_writes j (plan j tts) =
  [TRANSCRIBING; DIARIZING; SUMMARIZING]
    ++ (if tts then [TTS] else []) ++ [COMPLETED].
Proof.
  unfold stage_writes. destruct tts; cbn; by rewrite !decide_True.
Qed.

Lemma prefix_plan_calls j tts pre i j' a seen :
  pre `prefix_of` plan j tts ->
  pre !! i = Some (EvCall j' a seen) ->
  seen = Some (entering a) /\
  exists i', i = S i' /\ pre !! i' = Some (EvStage j' (entering a)).
Proof.
  intros Hpre Hi.
  destruct (plan_calls j tts i j' a seen) as (Hseen & i' & -> & Hi').
  { eapply prefix_lookup_Some; eauto. }
  split; [done|]. exists i'. split; [done|].
  rewrite (prefix_lookup_lt pre (plan j tts)); [done | | done].
  apply lookup_lt_Some in Hi. lia.
Qed.
End Plan.

(* ================================================================== *)
(** ** The claims                                                      *)
(* ================================================================== *)

(** C4. In every run of the pipeline on a registered job, each stage
    adapter is called when the registry already shows the stage it runs
    in, the write of that stage being the event just before the call; and
    the stages written by a run that ends in [COMPLETED] are exactly
    Transcribing, Diarizing, Summarizing, TTS if and only if the flag was
    set, Completed, in that order. *)
Theorem stage_written_before_adapter_call E j p tts w :
  registered j w ->
  exists w' st evs,
    run (pipeline.process_job E j p tts) w = (w', Ok st) /\
    trace w' = trace w ++ evs /\
    (forall i j' a seen,
       evs !! i = Some (EvCall j' a seen) ->
       seen = Some (entering a) /\
       exists i', i = S i' /\ evs !! i' = Some (EvStage j' (entering a))) /\
    (stage st = COMPLETED ->
     stage_writes j evs =
     [TRANSCRIBING; DIARIZING; SUMMARIZING]
       ++ (if tts then [TTS] else []) ++ [COMPLETED]).
Proof.
  intros Hreg.
  destruct (process_job_trace E j p tts w Hreg)
    as (w' & st & evs & Hrun & _ & Htrace & Hevs).
  exists w', st, evs. split; [done|]. split; [done|].
  destruct Hevs as [[Hst ->]|(Hst & pre & msg & -> & Hpre)].
  - split.
    + intros i j' a seen. by apply (prefix_plan_calls j tts).
    + intros _. apply plan_stage_writes.
  - split.
    + intros i j' a seen Hi.
      apply lookup_app_Some in Hi as [Hi|[Hlen Hi]].
      * destruct (prefix_plan_calls j tts pre i j' a seen Hpre Hi)
          as (Hseen & i' & -> & Hi').
        split; [done|]. exists i'. split; [done|].
        by apply lookup_app_l_Some.
      * by destruct (i - length pre) as [|[|?]].
    + rewrite Hst. discriminate.
Qed.

Lemma stage_written_before_adapter_call_witness :
  registered "job1" (uploaded env_dev) /\
  exists w' st evs,
    run (pipeline.process_job env_dev "job1" source_mp3 true) (uploaded env_dev)
      = (w', Ok st) /\
    trace w' = trace (uploaded env_dev) ++ evs /\
    (forall i j' a seen,
       evs !! i = Some (EvCall j' a seen) ->
       seen = Some (entering a) /\
       exists i', i = S i' /\ evs !! i' = Some (EvStage j' (entering a))) /\
    (stage st = COMPLETED ->
     stage_writes "job1" evs =
     [TRANSCRIBING; DIARIZING; SUMMARIZING] ++ [TTS] ++ [COMPLETED]).
Proof.
  assert (H : registered "job1" (uploaded env_dev))
    by (vm_compute; eexists; reflexivity).
  split; [exact H|].
  exact (stage_written_before_adapter_call env_dev "job1" source_mp3 true
           (uploaded env_dev) H).
Defined.

(* ================================================================== *)
(** ** A run followed step by step                                     *)
(* ================================================================== *)

Ltac lookup_now := cbn; rewrite ?lookup_insert_eq; first [reflexivity | eassumption].

(** One statement of the pipeline, run in a state that is known. *)
Ltac run_step :=
  rewrite run_bind;
  first
    [ rewrite run_invoke
    | erewrite run_update_stage by lookup_now
    | erewrite run_set_asset by lookup_now
    | rewrite run_save_text by auto
    | idtac ];
  cbn iota beta.

Section Outcome.
Variable E : Env.

(** What [process_job] makes of the end of its [try] block. *)
Lemma process_job_outcome j p tts w w1 r :
  registered j w ->
  run (pipeline.process_job_try E j p tts) w = (w1, r) ->
  exists st1,
    _jobs w1 !! j = Some st1 /\
    (forall st0, _jobs w !! j = Some st0 -> errors st0 `prefix_of` errors st1) /\
    match r with
    | Ok _ => run (pipeline.process_job E j p tts) w = (w1, Ok st1)
    | Raise e =>
        run (pipeline.process_job E j p tts) w =
        (set_trace (fun t => t ++ [EvError j (str_exn e)])
           (set_jobs <[j := with_error (str_exn e) (clock E (ticks w1)) st1]>
              (set_ticks S w1)),
         Ok (with_error (str_exn e) (clock E (ticks w1)) st1))
    end.
Proof.
  intros [st0 Hj] Htry.
  pose proof (process_job_try_errors_grow E j p tts w) as Hgrow.
  rewrite Htry in Hgrow. cbn in Hgrow.
  destruct (Hgrow j st0 Hj) as (st1 & Hj1 & Hpre).
  exists st1. split; [done|]. split.
  { intros st0' Hj'. congruence. }
  unfold pipeline.process_job. rewrite run_bind, run_try_except, Htry.
  destruct r as [[]|e].
  - unfold pipeline.get. by rewrite run_lookup_job, Hj1.
  - rewrite (run_add_error E j _ w1 st1 Hj1). unfold pipeline.get.
    rewrite run_lookup_job. cbn. by rewrite lookup_insert_eq.
Qed.
End Outcome.



(* ================================================================== *)
(** ** What a run writes, and what a failure leaves                    *)
(* ================================================================== *)

#[global] Instance wrote_only_preorder j names : PreOrder (wrote_only j names).
Proof.
  split.
  - intros w j' n _. reflexivity.
  - intros w1 w2 w3 H12 H23 j' n Hn. by rewrite (H23 j' n Hn), (H12 j' n Hn).
Qed.

(** A state update that leaves the results directory alone. *)
Ltac off_disk := intros ? ? ? ?; reflexivity.

Section WroteOnly.
Variable E : Env.
Implicit Types (j : string) (names : list string).

Lemma file_of_write_entry j n c w j' n' :
  j' ≠ j \/ n' ≠ n ->
  file_of j' n'
    (set_results_dir
       (fun d => <[j := storage.write_entry n c (default [] (d !! j))]> d) w)
  = file_of j' n' w.
Proof.
  intros Hne. unfold file_of. cbn.
  destruct (decide (j' = j)) as [->|Hj]; [|by rewrite lookup_insert_ne].
  destruct Hne as [?|Hn]; [done|].
  rewrite lookup_insert_eq. cbn. rewrite read_entry_write_entry_ne by done.
  by destruct (results_dir w !! j).
Qed.

Lemma made_dir_wrote_only j names w : wrote_only j names w (made_dir j w).
Proof. intros j' n _. apply file_of_made_dir. Qed.

Lemma write_file_wrote_only j names n c :
  n ∈ names -> preserves (wrote_only j names) (storage.write_file E j n c).
Proof.
  intros Hn w j' n' Hne.
  assert (Hne' : j' ≠ j \/ n' ≠ n).
  { destruct Hne as [?|Hne]; [by left|]. right. by intros ->. }
  unfold storage.write_file.
  destruct (write_fault E j n) as [[msg [k|]]|]; cbn;
    first [by apply file_of_write_entry | reflexivity].
Qed.

Lemma save_text_wrote_only j names n c :
  n ∈ names -> preserves (wrote_only j names) (storage.save_text E j n c).
Proof.
  intros Hn w. unfold storage.save_text, storage.get_job_dir. rewrite run_bind.
  destruct (mkdir_fault E j) as [msg|]; [reflexivity|].
  rewrite run_bind. cbn [run modify runCo fst snd]. cbn iota beta.
  etransitivity; [apply (made_dir_wrote_only j names w)|].
  by apply write_file_wrote_only.
Qed.

Lemma save_binary_wrote_only j names n data :
  n ∈ names -> preserves (wrote_only j names) (storage.save_binary E j n data).
Proof. apply save_text_wrote_only. Qed.

Lemma pure_wrote_only {A} j names (m : M A) :
  preserves eq m -> preserves (wrote_only j names) m.
Proof. apply preserves_weaken. intros w ? <-. reflexivity. Qed.

Lemma update_stage_wrote_only j names j0 s d :
  preserves (wrote_only j names) (pipeline.update_stage E j0 s d).
Proof. keeps off_disk. Qed.

Lemma add_error_wrote_only j names j0 msg :
  preserves (wrote_only j names) (pipeline.add_error E j0 msg).
Proof. keeps off_disk. Qed.

Lemma set_asset_wrote_only j names j0 key url :
  preserves (wrote_only j names) (pipeline.set_asset j0 key url).
Proof. keeps off_disk. Qed.
End WroteOnly.

#[global] Hint Resolve save_text_wrote_only save_binary_wrote_only
  update_stage_wrote_only add_error_wrote_only set_asset_wrote_only : keeps.
#[global] Hint Extern 1 (_ ∈ _) => solve [repeat constructor] : keeps.

Section WroteOnlyRun.
Variable E : Env.

Lemma synthesize_tts_wrote_only names request :
  "summary.mp3" ∈ names ->
  preserves (wrote_only (tts_job_id request) names) (tts.synthesize_tts E request).
Proof. intros Hn. keeps off_disk. Qed.

Lemma process_job_try_wrote_only j p tts :
  preserves (wrote_only j run_files) (pipeline.process_job_try E j p tts).
Proof. keeps off_disk. Qed.

Lemma process_job_wrote_only j p tts :
  preserves (wrote_only j run_files) (pipeline.process_job E j p tts).
Proof. keeps off_disk. Qed.

(** An answer that does not depend on the state, of code that leaves the
    state alone. *)
Lemma pure_answers {A} (m : M A) r :
  preserves eq m -> answers m r -> forall w, run m w = (w, r).
Proof.
  intros Hp Ha w. specialize (Hp w). specialize (Ha w).
  destruct (run m w) as [w1 r1]. cbn in *. congruence.
Qed.
End WroteOnlyRun.

Section Failures.
Variable E : Env.

(** The run in which the transcriber raises. *)
Lemma run_transcription_failure j p tts w st0 e :
  _jobs w !! j = Some st0 ->
  (forall w0, run (transcription.transcribe_audio E p) w0 = (w0, Raise e)) ->
  exists w' st,
    run (pipeline.process_job E j p tts) w = (w', Ok st) /\
    stage st = FAILED /\
    errors st = errors st0 ++ [str_exn e] /\
    assets st = assets st0 /\
    _transcripts w' = _transcripts w /\
    objects w' = objects w /\
    _summaries w' = _summaries w /\
    _summary_audio w' = _summary_audio w /\
    results_dir w' = results_dir w /\
    trace w' = trace w ++
      [EvStage j TRANSCRIBING; EvCall j Transcribe (Some TRANSCRIBING);
       EvError j (str_exn e)].
Proof.
  intros Hj Htr.
  unfold pipeline.process_job, pipeline.process_job_try.
  rewrite run_bind, run_try_except.
  run_step. run_step. rewrite Htr. cbn iota beta.
  erewrite run_add_error by lookup_now.
  unfold pipeline.get. rewrite run_lookup_job. cbn.
  rewrite !lookup_insert_eq.
  eexists _, _. split; [reflexivity|]. do 8 (split; [reflexivity|]).
  cbn. by rewrite <- !app_assoc.
Qed.

(** The run in which transcription succeeds, the transcript is written,
    and the diariser raises. *)
Lemma run_diarization_failure j p tts w st0 lang ts e :
  _jobs w !! j = Some st0 ->
  (forall w0, run (transcription.transcribe_audio E p) w0 = (w0, Ok (lang, ts))) ->
  mkdir_fault E j = None ->
  write_fault E j "transcript.json" = None ->
  (forall w0, run (diarization.diarize E ts p) w0 = (w0, Raise e)) ->
  exists w' st,
    run (pipeline.process_job E j p tts) w = (w', Ok st) /\
    stage st = FAILED /\
    errors st = errors st0 ++ [str_exn e] /\
    assets st = <["transcript" := storage.media_url j "transcript.json"]> (assets st0) /\
    stored_transcript j w' = Some (mkTranscriptResult (Some lang) None ts) /\
    file_of j "transcript.json" w' =
      Some (TranscriptJson (mkTranscriptResult (Some lang) None ts)) /\
    _summaries w' = _summaries w /\
    _summary_audio w' = _summary_audio w /\
    trace w' = trace w ++
      [EvStage j TRANSCRIBING; EvCall j Transcribe (Some TRANSCRIBING);
       EvStage j DIARIZING; EvCall j Diarize (Some DIARIZING);
       EvError j (str_exn e)].
Proof.
  intros Hj Htr Hm Hw Hdia.
  unfold pipeline.process_job, pipeline.process_job_try.
  rewrite run_bind, run_try_except.
  run_step. run_step. rewrite Htr. cbn iota beta.
  run_step. cbn. run_step. cbn. run_step. cbn.
  rewrite new_transcript_lookup. cbn.
  run_step. run_step. run_step. run_step. cbn.
  rewrite new_transcript_lookup. cbn.
  run_step. rewrite Hdia. cbn iota beta.
  erewrite run_add_error by lookup_now.
  unfold pipeline.get. rewrite run_lookup_job. cbn.
  rewrite !lookup_insert_eq.
  eexists _, _. split; [reflexivity|].
  split; [reflexivity|]. split; [reflexivity|]. split; [reflexivity|].
  split; [|split; [|split; [reflexivity|split; [reflexivity|]]]].
  - unfold stored_transcript. cbn. rewrite lookup_insert_eq. cbn.
    apply new_transcript_lookup.
  - unfold file_of. cbn. rewrite lookup_insert_eq. cbn.
    apply read_entry_write_entry.
  - cbn. by rewrite <- !app_assoc.
Qed.

(** The run in which transcription and diarisation succeed, both
    transcripts are written, and the summariser raises. *)
Lemma run_summarization_failure j p tts w st0 lang ts dturns e :
  _jobs w !! j = Some st0 ->
  (forall w0, run (transcription.transcribe_audio E p) w0 = (w0, Ok (lang, ts))) ->
  (forall w0, run (diarization.diarize E ts p) w0 = (w0, Ok dturns)) ->
  mkdir_fault E j = None ->
  write_fault E j "transcript.json" = None ->
  write_fault E j "diarized.json" = None ->
  (forall w0, run (llm.summarize E dturns) w0 = (w0, Raise e)) ->
  exists w' st,
    run (pipeline.process_job E j p tts) w = (w', Ok st) /\
    stage st = FAILED /\
    errors st = errors st0 ++ [str_exn e] /\
    assets st =
      <["diarized_transcript" := storage.media_url j "diarized.json"]>
        (<["transcript" := storage.media_url j "transcript.json"]> (assets st0)) /\
    stored_transcript j w' = Some (mkTranscriptResult (Some lang) None dturns) /\
    file_of j "transcript.json" w' =
      Some (TranscriptJson (mkTranscriptResult (Some lang) None ts)) /\
    file_of j "diarized.json" w' =
      Some (TranscriptJson (mkTranscriptResult (Some lang) None dturns)) /\
    _summaries w' = _summaries w /\
    _summary_audio w' = _summary_audio w /\
    trace w' = trace w ++
      [EvStage j TRANSCRIBING; EvCall j Transcribe (Some TRANSCRIBING);
       EvStage j DIARIZING; EvCall j Diarize (Some DIARIZING);
       EvStage j SUMMARIZING; EvCall j Summarize (Some SUMMARIZING);
       EvError j (str_exn e)].
Proof.
  intros Hj Htr Hdia Hm Hw1 Hw2 Hsum.
  unfold pipeline.process_job, pipeline.process_job_try.
  rewrite run_bind, run_try_except.
  run_step. run_step. rewrite Htr. cbn iota beta.
  run_step. cbn. run_step. cbn. run_step. cbn.
  rewrite new_transcript_lookup. cbn.
  run_step. run_step. run_step. run_step. cbn.
  rewrite new_transcript_lookup. cbn.
  run_step. rewrite Hdia. cbn iota beta.
  run_step. cbn. run_step. cbn.
  rewrite list_lookup_alter_eq, new_transcript_lookup. cbn.
  run_step. run_step. run_step. run_step. cbn.
  rewrite list_lookup_alter_eq, new_transcript_lookup. cbn.
  run_step. rewrite Hsum. cbn iota beta.
  erewrite run_add_error by lookup_now.
  unfold pipeline.get. rewrite run_lookup_job. cbn.
  rewrite !lookup_insert_eq.
  eexists _, _. split; [reflexivity|].
  split; [reflexivity|]. split; [reflexivity|]. split; [reflexivity|].
  split.
  { unfold stored_transcript. cbn. rewrite lookup_insert_eq. cbn.
    by rewrite list_lookup_alter_eq, new_transcript_lookup. }
  unfold file_of. cbn. rewrite !lookup_insert_eq. cbn.
  split; [|split; [|split; [reflexivity|split; [reflexivity|]]]].
  - rewrite !read_entry_write_entry_ne by done. apply read_entry_write_entry.
  - apply read_entry_write_entry.
  - by rewrite <- !app_assoc.
Qed.

(** The run with speech in which the three first stages succeed, their
    files are written, and the synthesiser raises. *)
Lemma run_synthesis_failure j p w st0 lang ts dturns summary e :
  _jobs w !! j = Some st0 ->
  (forall w0, run (transcription.transcribe_audio E p) w0 = (w0, Ok (lang, ts))) ->
  (forall w0, run (diarization.diarize E ts p) w0 = (w0, Ok dturns)) ->
  (forall w0, run (llm.summarize E dturns) w0 = (w0, Ok summary)) ->
  mkdir_fault E j = None ->
  write_fault E j "transcript.json" = None ->
  write_fault E j "diarized.json" = None ->
  write_fault E j "summary.json" = None ->
  answers (tts.synthesize_tts E (mkTTSRequest j (overview summary) None)) (Raise e) ->
  exists w' st,
    run (pipeline.process_job E j p true) w = (w', Ok st) /\
    stage st = FAILED /\
    errors st = errors st0 ++ [str_exn e] /\
    assets st =
      <["summary" := storage.media_url j "summary.json"]>
        (<["diarized_transcript" := storage.media_url j "diarized.json"]>
           (<["transcript" := storage.media_url j "transcript.json"]> (assets st0))) /\
    stored_transcript j w' = Some (mkTranscriptResult (Some lang) None dturns) /\
    _summaries w' = <[j := summary]> (_summaries w) /\
    file_of j "transcript.json" w' =
      Some (TranscriptJson (mkTranscriptResult (Some lang) None ts)) /\
    file_of j "diarized.json" w' =
      Some (TranscriptJson (mkTranscriptResult (Some lang) None dturns)) /\
    file_of j "summary.json" w' = Some (SummaryJson summary) /\
    _summary_audio w' = _summary_audio w /\
    trace w' = trace w ++
      [EvStage j TRANSCRIBING; EvCall j Transcribe (Some TRANSCRIBING);
       EvStage j DIARIZING; EvCall j Diarize (Some DIARIZING);
       EvStage j SUMMARIZING; EvCall j Summarize (Some SUMMARIZING);
       EvStage j TTS; EvCall j Synthesize (Some TTS);
       EvError j (str_exn e)].
Proof.
  intros Hj Htr Hdia Hsum Hm Hw1 Hw2 Hw3 Hsyn.
  unfold pipeline.process_job, pipeline.process_job_try.
  rewrite run_bind, run_try_except.
  run_step. run_step. rewrite Htr. cbn iota beta.
  run_step. cbn. run_step. cbn. run_step. cbn.
  rewrite new_transcript_lookup. cbn.
  run_step. run_step. run_step. run_step. cbn.
  rewrite new_transcript_lookup. cbn.
  run_step. rewrite Hdia. cbn iota beta.
  run_step. cbn. run_step. cbn.
  rewrite list_lookup_alter_eq, new_transcript_lookup. cbn.
  run_step. run_step. run_step. run_step. cbn.
  rewrite list_lookup_alter_eq, new_transcript_lookup. cbn.
  run_step. rewrite Hsum. cbn iota beta.
  run_step. cbn. run_step. run_step.
  run_step. run_step. cbn zeta. run_step.
  match goal with
  | |- context [run (tts.synthesize_tts E ?req) ?W] =>
      pose proof (synthesize_tts_only_disk E req W) as Hdisk;
      pose proof (synthesize_tts_wrote_only E ["summary.mp3"] req
                    ltac:(repeat constructor) W) as Hfiles;
      pose proof (Hsyn W) as Hr;
      destruct (run (tts.synthesize_tts E req) W) as [w1 r]
  end.
  cbn [fst snd] in Hdisk, Hfiles, Hr. subst r. cbn iota beta.
  assert (Hkept : forall n, n ≠ "summary.mp3" ->
            results_dir w1 !! j ≫= read_entry n =
            read_entry n
              (storage.write_entry "summary.json" (SummaryJson summary)
                 (storage.write_entry "diarized.json"
                    (TranscriptJson (mkTranscriptResult (Some lang) None dturns))
                    (storage.write_entry "transcript.json"
                       (TranscriptJson (mkTranscriptResult (Some lang) None ts))
                       (default [] (results_dir w !! j)))))).
  { intros n Hn.
    specialize (Hfiles j n ltac:(right; by intros ->%list_elem_of_singleton)).
    unfold file_of in Hfiles. rewrite Hfiles. clear.
    cbn. rewrite !lookup_insert_eq. cbn.
    destruct (results_dir w !! j) eqn:Hd; cbn; by rewrite ?lookup_insert_eq, ?Hd. }
  unfold only_disk in Hdisk. rewrite Hdisk. clear Hdisk Hfiles.
  erewrite run_add_error by lookup_now.
  unfold pipeline.get. rewrite run_lookup_job. cbn.
  rewrite !lookup_insert_eq.
  eexists _, _. split; [reflexivity|].
  split; [reflexivity|]. split; [reflexivity|]. split; [reflexivity|].
  split.
  { unfold stored_transcript. cbn. rewrite lookup_insert_eq. cbn.
    by rewrite list_lookup_alter_eq, new_transcript_lookup. }
  split; [reflexivity|].
  unfold file_of. cbn.
  split; [|split; [|split; [|split; [reflexivity|]]]].
  - rewrite Hkept by done.
    rewrite !read_entry_write_entry_ne by done. apply read_entry_write_entry.
  - rewrite Hkept by done.
    rewrite !read_entry_write_entry_ne by done. apply read_entry_write_entry.
  - rewrite Hkept by done. apply read_entry_write_entry.
  - by rewrite <- !app_assoc.
Qed.
End Failures.

(** C2. When a stage adapter raises in a run on a registered job, the run
    stops there, records the failure, and rolls nothing back. Whatever
    raises in the [try] block, the handler only appends the message to
    the errors of the job and marks it [FAILED]: the assets of the job,
    the other jobs, the stored transcripts, summaries and summary audio
    and the files are those of the moment of the exception; and however
    the run ends, it has written no file but its own four. Adapter by
    adapter, the job is [FAILED] with the message of the adapter appended
    to its errors, no later stage is entered, and what the stages before
    it have persisted is there as they left it:
    - the transcriber: the assets, the stores and the files are those of
      before the run;
    - the diariser: the [transcript] asset, the stored transcript and
      [transcript.json];
    - the summariser: also the [diarized_transcript] asset and
      [diarized.json], the stored transcript holding the diarised turns;
    - the synthesiser: also the [summary] asset, the stored summary and
      [summary.json]. *)
Theorem failure_rolls_nothing_back E j p tts w st0 :
  _jobs w !! j = Some st0 ->
  (forall w1 e,
     run (pipeline.process_job_try E j p tts) w = (w1, Raise e) ->
     exists w' st st1,
       run (pipeline.process_job E j p tts) w = (w', Ok st) /\
       _jobs w' !! j = Some st /\ _jobs w1 !! j = Some st1 /\
       stage st = FAILED /\
       errors st = errors st1 ++ [str_exn e] /\
       assets st = assets st1 /\
       (forall j', j' ≠ j -> _jobs w' !! j' = _jobs w1 !! j') /\
       _transcripts w' = _transcripts w1 /\
       objects w' = objects w1 /\
       _summaries w' = _summaries w1 /\
       _summary_audio w' = _summary_audio w1 /\
       results_dir w' = results_dir w1 /\
       trace w' = trace w1 ++ [EvError j (str_exn e)]) /\
  wrote_only j run_files w (fst (run (pipeline.process_job E j p tts) w)) /\
  (forall e,
     answers (transcription.transcribe_audio E p) (Raise e) ->
     exists w' st,
       run (pipeline.process_job E j p tts) w = (w', Ok st) /\
       stage st = FAILED /\
       errors st = errors st0 ++ [str_exn e] /\
       assets st = assets st0 /\
       _transcripts w' = _transcripts w /\
       objects w' = objects w /\
       _summaries w' = _summaries w /\
       _summary_audio w' = _summary_audio w /\
       results_dir w' = results_dir w /\
       trace w' = trace w ++
         [EvStage j TRANSCRIBING; EvCall j Transcribe (Some TRANSCRIBING);
          EvError j (str_exn e)]) /\
  (forall lang ts e,
     answers (transcription.transcribe_audio E p) (Ok (lang, ts)) ->
     mkdir_fault E j = None ->
     write_fault E j "transcript.json" = None ->
     answers (diarization.diarize E ts p) (Raise e) ->
     exists w' st,
       run (pipeline.process_job E j p tts) w = (w', Ok st) /\
       stage st = FAILED /\
       errors st = errors st0 ++ [str_exn e] /\
       assets st =
         <["transcript" := storage.media_url j "transcript.json"]> (assets st0) /\
       stored_transcript j w' = Some (mkTranscriptResult (Some lang) None ts) /\
       file_of j "transcript.json" w' =
         Some (TranscriptJson (mkTranscriptResult (Some lang) None ts)) /\
       _summaries w' = _summaries w /\
       _summary_audio w' = _summary_audio w /\
       trace w' = trace w ++
         [EvStage j TRANSCRIBING; EvCall j Transcribe (Some TRANSCRIBING);
          EvStage j DIARIZING; EvCall j Diarize (Some DIARIZING);
          EvError j (str_exn e)]) /\
  (forall lang ts dturns e,
     answers (transcription.transcribe_audio E p) (Ok (lang, ts)) ->
     answers (diarization.diarize E ts p) (Ok dturns) ->
     mkdir_fault E j = None ->
     write_fault E j "transcript.json" = None ->
     write_fault E j "diarized.json" = None ->
     answers (llm.summarize E dturns) (Raise e) ->
     exists w' st,
       run (pipeline.process_job E j p tts) w = (w', Ok st) /\
       stage st = FAILED /\
       errors st = errors st0 ++ [str_exn e] /\
       assets st =
         <["diarized_transcript" := storage.media_url j "diarized.json"]>
           (<["transcript" := storage.media_url j "transcript.json"]> (assets st0)) /\
       stored_transcript j w' = Some (mkTranscriptResult (Some lang) None dturns) /\
       file_of j "transcript.json" w' =
         Some (TranscriptJson (mkTranscriptResult (Some lang) None ts)) /\
       file_of j "diarized.json" w' =
         Some (TranscriptJson (mkTranscriptResult (Some lang) None dturns)) /\
       _summaries w' = _summaries w /\
       _summary_audio w' = _summary_audio w /\
       trace w' = trace w ++
         [EvStage j TRANSCRIBING; EvCall j Transcribe (Some TRANSCRIBING);
          EvStage j DIARIZING; EvCall j Diarize (Some DIARIZING);
          EvStage j SUMMARIZING; EvCall j Summarize (Some SUMMARIZING);
          EvError j (str_exn e)]) /\
  (forall lang ts dturns summary e,
     tts = true ->
     answers (transcription.transcribe_audio E p) (Ok (lang, ts)) ->
     answers (diarization.diarize E ts p) (Ok dturns) ->
     answers (llm.summarize E dturns) (Ok summary) ->
     mkdir_fault E j = None ->
     write_fault E j "transcript.json" = None ->
     write_fault E j "diarized.json" = None ->
     write_fault E j "summary.json" = None ->
     answers (tts.synthesize_tts E (mkTTSRequest j (overview summary) None))
             (Raise e) ->
     exists w' st,
       run (pipeline.process_job E j p tts) w = (w', Ok st) /\
       stage st = FAILED /\
       errors st = errors st0 ++ [str_exn e] /\
       assets st =
         <["summary" := storage.media_url j "summary.json"]>
           (<["diarized_transcript" := storage.media_url j "diarized.json"]>
              (<["transcript" := storage.media_url j "transcript.json"]>
                 (assets st0))) /\
       stored_transcript j w' = Some (mkTranscriptResult (Some lang) None dturns) /\
       _summaries w' = <[j := summary]> (_summaries w) /\
       file_of j "transcript.json" w' =
         Some (TranscriptJson (mkTranscriptResult (Some lang) None ts)) /\
       file_of j "diarized.json" w' =
         Some (TranscriptJson (mkTranscriptResult (Some lang) None dturns)) /\
       file_of j "summary.json" w' = Some (SummaryJson summary) /\
       _summary_audio w' = _summary_audio w /\
       trace w' = trace w ++
         [EvStage j TRANSCRIBING; EvCall j Transcribe (Some TRANSCRIBING);
          EvStage j DIARIZING; EvCall j Diarize (Some DIARIZING);
          EvStage j SUMMARIZING; EvCall j Summarize (Some SUMMARIZING);
          EvStage j TTS; EvCall j Synthesize (Some TTS);
          EvError j (str_exn e)]).
Proof.
  intros Hj.
  pose proof (transcribe_audio_pure E p) as Ptr.
  split; [|split; [|split; [|split; [|split]]]].
  - intros w1 e Htry.
    destruct (process_job_outcome E j p tts w w1 _ (ex_intro _ st0 Hj) Htry)
      as (st1 & Hj1 & _ & Hrun).
    eexists _, _, st1. split; [exact Hrun|].
    split; [cbn; apply lookup_insert_eq|]. split; [done|].
    do 3 (split; [reflexivity|]).
    split; [|by repeat split].
    intros j' Hne. cbn. by rewrite lookup_insert_ne.
  - apply process_job_wrote_only.
  - intros e Htr.
    apply (run_transcription_failure E j p tts w st0 e Hj (pure_answers _ _ Ptr Htr)).
  - intros lang ts e Htr Hm Hw Hdia.
    apply (run_diarization_failure E j p tts w st0 lang ts e Hj
             (pure_answers _ _ Ptr Htr) Hm Hw
             (pure_answers _ _ (diarize_pure E ts p) Hdia)).
  - intros lang ts dturns e Htr Hdia Hm Hw1 Hw2 Hsum.
    apply (run_summarization_failure E j p tts w st0 lang ts dturns e Hj
             (pure_answers _ _ Ptr Htr)
             (pure_answers _ _ (diarize_pure E ts p) Hdia) Hm Hw1 Hw2
             (pure_answers _ _ (summarize_pure E dturns) Hsum)).
  - intros lang ts dturns summary e -> Htr Hdia Hsum Hm Hw1 Hw2 Hw3 Hsyn.
    apply (run_synthesis_failure E j p w st0 lang ts dturns summary e Hj
             (pure_answers _ _ Ptr Htr)
             (pure_answers _ _ (diarize_pure E ts p) Hdia)
             (pure_answers _ _ (summarize_pure E dturns) Hsum)
             Hm Hw1 Hw2 Hw3 Hsyn).
Qed.

Lemma failure_rolls_nothing_back_witness :
  let heard :=
    [mkSpeakerTurn "unknown" 0 1 "hi"; mkSpeakerTurn "unknown" 1 2 "there";
     mkSpeakerTurn "unknown" 2 3 "bye"] in
  let diarized :=
    [mkSpeakerTurn "Speaker 1" 0 1 "hi"; mkSpeakerTurn "Speaker 2" 1 2 "there";
     mkSpeakerTurn "Speaker 1" 2 3 "bye"] in
  let summary :=
    mkSummaryResult "Custom provider not configured."
      [mkSummarySection "Speaker 1" ["Transcript content truncated."]]
      ["Set LLM_PROVIDER to openai, gemini, or deepseek."] in
  (exists w' st,
     run (pipeline.process_job env_whisper_down "job1" source_mp3 false)
         (uploaded env_dev) = (w', Ok st) /\
     stage st = FAILED /\
     errors st = ["Whisper transcription failed: model not found"] /\
     assets st = {["source_audio" := "/media/job1/source.mp3"]} /\
     results_dir w' = results_dir (uploaded env_dev)) /\
  (exists w' st,
     run (pipeline.process_job env_hoard_down "job1" source_mp3 false)
         (uploaded env_dev) = (w', Ok st) /\
     stage st = FAILED /\
     errors st = ["hoard crashed"] /\
     assets st !! "transcript" = Some "/media/job1/transcript.json" /\
     stored_transcript "job1" w' = Some (mkTranscriptResult (Some "en") None heard) /\
     file_of "job1" "transcript.json" w' =
       Some (TranscriptJson (mkTranscriptResult (Some "en") None heard))) /\
  (exists w' st,
     run (pipeline.process_job env_llm_down "job1" source_mp3 false)
         (uploaded env_dev) = (w', Ok st) /\
     stage st = FAILED /\
     errors st = ["service unreachable"] /\
     assets st !! "transcript" = Some "/media/job1/transcript.json" /\
     assets st !! "diarized_transcript" = Some "/media/job1/diarized.json" /\
     assets st !! "source_audio" = Some "/media/job1/source.mp3" /\
     stored_transcript "job1" w' =
       Some (mkTranscriptResult (Some "en") None diarized) /\
     file_of "job1" "transcript.json" w' =
       Some (TranscriptJson (mkTranscriptResult (Some "en") None heard)) /\
     file_of "job1" "diarized.json" w' =
       Some (TranscriptJson (mkTranscriptResult (Some "en") None diarized))) /\
  (exists w' st,
     run (pipeline.process_job env_no_tts "job1" source_mp3 true)
         (uploaded env_dev) = (w', Ok st) /\
     stage st = FAILED /\
     errors st = ["TTS provider not configured or unsupported."] /\
     assets st !! "summary" = Some "/media/job1/summary.json" /\
     _summaries w' !! "job1" = Some summary /\
     file_of "job1" "summary.json" w' = Some (SummaryJson summary) /\
     file_of "job1" "source.mp3" w' = Some (Binary [73; 68; 51]%Z)).
Proof.
  intros heard diarized summary.
  set (st0 := mkProcessingStatus "job1" UPLOADED None 0 0 []
                {["source_audio" := "/media/job1/source.mp3"]}).
  assert (Hj : _jobs (uploaded env_dev) !! "job1" = Some st0) by reflexivity.
  split; [|split; [|split]].
  - destruct (failure_rolls_nothing_back env_whisper_down "job1" source_mp3 false
                (uploaded env_dev) st0 Hj)
      as (_ & _ & Htr & _).
    destruct (Htr (TranscriptionError "Whisper transcription failed: model not found"))
      as (w' & st & Hrun & Hst & Herr & Hassets & _ & _ & _ & _ & Hdisk & _).
    { intros w0. reflexivity. }
    exists w', st. by repeat split.
  - destruct (failure_rolls_nothing_back env_hoard_down "job1" source_mp3 false
                (uploaded env_dev) st0 Hj)
      as (_ & _ & _ & Hdia & _).
    destruct (Hdia "en" heard (ProviderError "hoard crashed"))
      as (w' & st & Hrun & Hst & Herr & Hassets & Hstored & Hfile & _).
    { intros w0. reflexivity. }
    { reflexivity. }
    { reflexivity. }
    { intros w0. reflexivity. }
    exists w', st. rewrite Hassets. by repeat split.
  - destruct (failure_rolls_nothing_back env_llm_down "job1" source_mp3 false
                (uploaded env_dev) st0 Hj)
      as (_ & _ & _ & _ & Hsum & _).
    destruct (Hsum "en" heard diarized (ProviderError "service unreachable"))
      as (w' & st & Hrun & Hst & Herr & Hassets & Hstored & Hf1 & Hf2 & _).
    { intros w0. reflexivity. }
    { intros w0. reflexivity. }
    { reflexivity. }
    { reflexivity. }
    { reflexivity. }
    { intros w0. reflexivity. }
    exists w', st. rewrite Hassets. by repeat split.
  - destruct (failure_rolls_nothing_back env_no_tts "job1" source_mp3 true
                (uploaded env_dev) st0 Hj)
      as (_ & Hwrote & _ & _ & _ & Hsyn).
    destruct (Hsyn "en" heard diarized summary
                (TTSError "TTS provider not configured or unsupported."))
      as (w' & st & Hrun & Hst & Herr & Hassets & _ & Hsummaries & _ & _ & Hf3 & _).
    { reflexivity. }
    { intros w0. reflexivity. }
    { intros w0. reflexivity. }
    { intros w0. reflexivity. }
    { reflexivity. }
    { reflexivity. }
    { reflexivity. }
    { reflexivity. }
    { intros w0. reflexivity. }
    exists w', st. rewrite Hassets, Hsummaries.
    split; [done|]. split; [done|]. split; [done|]. split; [done|].
    split; [apply lookup_insert_eq|]. split; [done|].
    rewrite Hrun in Hwrote. cbn [fst] in Hwrote.
    rewrite (Hwrote "job1" "source.mp3"); [reflexivity|].
    right. vm_compute. intros H. by repeat (inversion H as [|? ? ? H']; clear H; rename H' into H).
Defined.

(** C9. Summarising an empty list of turns raises, without a call to any
    provider; and a run whose diarised transcript is empty ends there: the
    job is [FAILED] with that message appended, no summary is stored, and
    the summariser was called once, the failure being the last event. *)
Theorem empty_transcript_fails_the_run E j p tts w lang ts :
  registered j w ->
  (forall w0, run (transcription.transcribe_audio E p) w0 = (w0, Ok (lang, ts))) ->
  (forall w0, run (diarization.diarize E ts p) w0 = (w0, Ok [])) ->
  mkdir_fault E j = None ->
  write_fault E j "transcript.json" = None ->
  write_fault E j "diarized.json" = None ->
  (forall w0, llm.summarize E [] w0 =
              (w0, Fin (Raise (SummarizationError "Transcript is empty.")))) /\
  exists w' st,
    run (pipeline.process_job E j p tts) w = (w', Ok st) /\
    stage st = FAILED /\
    (forall st0, _jobs w !! j = Some st0 ->
                 errors st = errors st0 ++ ["Transcript is empty."]) /\
    _summaries w' = _summaries w /\
    trace w' = trace w ++
      [EvStage j TRANSCRIBING; EvCall j Transcribe (Some TRANSCRIBING);
       EvStage j DIARIZING; EvCall j Diarize (Some DIARIZING);
       EvStage j SUMMARIZING; EvCall j Summarize (Some SUMMARIZING);
       EvError j "Transcript is empty."].
Proof.
  intros [st0 Hj] Htr Hdia Hm Hw1 Hw2. split; [reflexivity|].
  unfold pipeline.process_job, pipeline.process_job_try.
  rewrite run_bind, run_try_except.
  run_step. run_step. rewrite Htr. cbn iota beta.
  run_step. cbn. run_step. cbn. run_step. cbn.
  rewrite new_transcript_lookup. cbn.
  run_step. run_step. run_step. run_step. cbn.
  rewrite new_transcript_lookup. cbn.
  run_step. rewrite Hdia. cbn iota beta.
  run_step. cbn. run_step. cbn.
  rewrite list_lookup_alter_eq, new_transcript_lookup. cbn.
  run_step. run_step. run_step. run_step. cbn.
  rewrite list_lookup_alter_eq, new_transcript_lookup. cbn.
  run_step. cbn.
  erewrite run_add_error by lookup_now.
  unfold pipeline.get. rewrite run_lookup_job. cbn.
  rewrite !lookup_insert_eq.
  eexists _, _. split; [reflexivity|]. split; [reflexivity|].
  split; [|split].
  - intros st0' Hj'. cbn. congruence.
  - reflexivity.
  - cbn. by rewrite <- !app_assoc.
Qed.

Lemma empty_transcript_fails_the_run_witness :
  registered "job1" (uploaded env_silence) /\
  exists w' st,
    run (pipeline.process_job env_silence "job1" source_mp3 true)
        (uploaded env_silence) = (w', Ok st) /\
    stage st = FAILED /\
    (forall st0, _jobs (uploaded env_silence) !! "job1" = Some st0 ->
                 errors st = errors st0 ++ ["Transcript is empty."]) /\
    _summaries w' = _summaries (uploaded env_silence) /\
    trace w' = trace (uploaded env_silence) ++
      [EvStage "job1" TRANSCRIBING; EvCall "job1" Transcribe (Some TRANSCRIBING);
       EvStage "job1" DIARIZING; EvCall "job1" Diarize (Some DIARIZING);
       EvStage "job1" SUMMARIZING; EvCall "job1" Summarize (Some SUMMARIZING);
       EvError "job1" "Transcript is empty."].
Proof.
  assert (H : registered "job1" (uploaded env_silence))
    by (vm_compute; eexists; reflexivity).
  split; [exact H|].
  apply (empty_transcript_fails_the_run env_silence "job1" source_mp3 true
           (uploaded env_silence) "en" [] H).
  - intros w0. reflexivity.
  - intros w0. reflexivity.
  - reflexivity.
  - reflexivity.
  - reflexivity.
Defined.

Ltac same_transcripts_tac := intros ?; split; reflexivity.

Section Replacement.
Variable E : Env.

(** Once the diariser has answered, the transcript object of the run
    holds its answer, and nothing that follows in the run touches it. *)
Lemma process_job_try_replaces_turns j p tts w st0 lang ts dturns :
  _jobs w !! j = Some st0 ->
  (forall w0, run (transcription.transcribe_audio E p) w0 = (w0, Ok (lang, ts))) ->
  mkdir_fault E j = None ->
  write_fault E j "transcript.json" = None ->
  (forall w0, run (diarization.diarize E ts p) w0 = (w0, Ok dturns)) ->
  wp (pipeline.process_job_try E j p tts)
     (fun _ w1 =>
        stored_transcript j w1 = Some (mkTranscriptResult (Some lang) None dturns))
     w.
Proof.
  intros Hj Htr Hm Hw Hdia. unfold wp, pipeline.process_job_try.
  run_step. run_step. rewrite Htr. cbn iota beta.
  run_step. cbn. run_step. cbn. run_step. cbn.
  rewrite new_transcript_lookup. cbn.
  run_step. run_step. run_step. run_step. cbn.
  rewrite new_transcript_lookup. cbn.
  run_step. rewrite Hdia. cbn iota beta.
  run_step. cbn.
  match goal with
  | |- context [run ?m ?wk] =>
      assert (Hrest : preserves same_transcripts m) by (keeps same_transcripts_tac);
      specialize (Hrest wk); destruct (run m wk) as [w1 r]
  end.
  cbn in Hrest. destruct Hrest as [Ht Ho].
  assert (stored_transcript j w1 =
          Some (mkTranscriptResult (Some lang) None dturns)) as Hgoal.
  { unfold stored_transcript. rewrite Ht, Ho. cbn.
    rewrite lookup_insert_eq. cbn.
    by rewrite list_lookup_alter_eq, new_transcript_lookup. }
  by destruct r.
Qed.
End Replacement.

Section Diarizers.
Variable E : Env.

Lemma fallback_length ts : length (diarization.fallback ts) = length ts.
Proof. apply length_imap. Qed.

Lemma fallback_lookup ts i t :
  ts !! i = Some t ->
  diarization.fallback ts !! i =
  Some (mkSpeakerTurn (if (i mod 2 =? 0)%nat then "Speaker 1" else "Speaker 2")
                      (start t) (end_ t) (text t)).
Proof.
  intros Hi. unfold diarization.fallback. rewrite list_lookup_imap, Hi.
  change (length diarization.speakers) with 2%nat.
  assert (Hlt : (i mod 2 < 2)%nat) by (apply Nat.mod_upper_bound; lia).
  destruct (i mod 2)%nat as [|[|n]]; [reflexivity | reflexivity | lia].
Qed.

Lemma of_segments_length segs :
  length (diarization.of_segments segs) = length segs.
Proof. apply length_imap. Qed.

Lemma run_diarize_fallback ts p w :
  HoardDiarizer E = None ->
  run (diarization.diarize E ts p) w = (w, Ok (diarization.fallback ts)).
Proof. intros H. unfold diarization.diarize. rewrite H. reflexivity. Qed.

Lemma run_diarize_hoard hoard_run ts p w :
  HoardDiarizer E = Some hoard_run ->
  run (diarization.diarize E ts p) w =
  (w, match hoard_run p (map (fun t => (start t, end_ t, text t)) ts) with
      | Ok [] => Raise (DiarizationError "Hoard returned no diarization segments.")
      | Ok segs => Ok (diarization.of_segments segs)
      | Raise e => Raise e
      end).
Proof.
  intros H. unfold diarization.diarize. rewrite H, run_bind.
  unfold run at 1, lift. cbn.
  by destruct (hoard_run _ _) as [[|seg segs]|e].
Qed.
End Diarizers.

(** C8, as the code has it. The diarisation stage replaces the turns of the
    stored transcript by the answer of the diariser, whole. The fallback
    diariser answers one turn for each turn it was given, with the same
    start, end and text and a speaker that alternates. With Hoard the
    stored turns are one for each segment Hoard returned, however many: the
    count is not compared with that of the input. *)
Theorem diarization_replaces_turns E j p tts w lang ts dturns :
  registered j w ->
  (forall w0, run (transcription.transcribe_audio E p) w0 = (w0, Ok (lang, ts))) ->
  mkdir_fault E j = None ->
  write_fault E j "transcript.json" = None ->
  (forall w0, run (diarization.diarize E ts p) w0 = (w0, Ok dturns)) ->
  (exists w' st,
     run (pipeline.process_job E j p tts) w = (w', Ok st) /\
     stored_transcript j w' = Some (mkTranscriptResult (Some lang) None dturns)) /\
  (HoardDiarizer E = None ->
   length dturns = length ts /\
   forall i t, ts !! i = Some t ->
     dturns !! i =
     Some (mkSpeakerTurn (if (i mod 2 =? 0)%nat then "Speaker 1" else "Speaker 2")
                         (start t) (end_ t) (text t))) /\
  (forall hoard_run, HoardDiarizer E = Some hoard_run ->
   exists segs,
     hoard_run p (map (fun t => (start t, end_ t, text t)) ts) = Ok segs /\
     segs ≠ [] /\
     dturns = diarization.of_segments segs /\
     length dturns = length segs).
Proof.
  intros Hreg Htr Hm Hw Hdia. split; [|split].
  - destruct Hreg as [st0 Hj].
    pose proof (process_job_try_replaces_turns E j p tts w st0 lang ts dturns
                  Hj Htr Hm Hw Hdia) as Hwp.
    unfold wp in Hwp.
    destruct (run (pipeline.process_job_try E j p tts) w) as [w1 r] eqn:Htry.
    destruct (process_job_outcome E j p tts w w1 r (ex_intro _ st0 Hj) Htry)
      as (st1 & Hj1 & _ & Hrun).
    destruct r as [[]|e]; eexists _, _; (split; [exact Hrun | exact Hwp]).
  - intros Hnone. specialize (Hdia w). rewrite run_diarize_fallback in Hdia by done.
    injection Hdia as <-. split; [apply fallback_length|].
    intros i t. apply fallback_lookup.
  - intros hoard_run Hsome. specialize (Hdia w).
    rewrite (run_diarize_hoard E hoard_run) in Hdia by done.
    destruct (hoard_run _ _) as [[|seg segs]|e]; [done| |done].
    injection Hdia as <-. exists (seg :: segs).
    split; [done|]. split; [done|]. split; [done|]. apply of_segments_length.
Qed.

Lemma diarization_replaces_turns_witness :
  registered "job1" (uploaded env_hoard_merging) /\
  exists w' st,
    run (pipeline.process_job env_hoard_merging "job1" source_mp3 false)
        (uploaded env_hoard_merging) = (w', Ok st) /\
    stored_transcript "job1" w' =
      Some (mkTranscriptResult (Some "en") None
              [mkSpeakerTurn "Speaker A" 0 3 "hi there bye"]).
Proof.
  assert (H : registered "job1" (uploaded env_hoard_merging))
    by (vm_compute; eexists; reflexivity).
  split; [exact H|].
  apply (diarization_replaces_turns env_hoard_merging "job1" source_mp3 false
           (uploaded env_hoard_merging) "en"
           [mkSpeakerTurn "unknown" 0 1 "hi"; mkSpeakerTurn "unknown" 1 2 "there";
            mkSpeakerTurn "unknown" 2 3 "bye"]
           [mkSpeakerTurn "Speaker A" 0 3 "hi there bye"] H).
  - intros w0. reflexivity.
  - reflexivity.
  - reflexivity.
  - intros w0. reflexivity.
Defined.

(** C8, as the claim states it, fails: Hoard answers one segment for three
    turns, and the run completes with no error and a stored transcript of
    one turn. *)
Lemma turn_count_mismatch_is_accepted :
  let w' := fst (run (pipeline.process_job env_hoard_merging "job1" source_mp3 false)
                     (uploaded env_hoard_merging)) in
  length three_segments = 3%nat /\
  stage <$> _jobs w' !! "job1" = Some COMPLETED /\
  errors <$> _jobs w' !! "job1" = Some [] /\
  (fun t => length (turns t)) <$> stored_transcript "job1" w' = Some 1%nat.
Proof. vm_compute. repeat split. Qed.

(** C3, as the claim states it, fails: [create_status] on the identifier of
    a job that has failed returns a status, and the job is back in
    [UPLOADED] with no error and no asset. *)
Lemma create_status_on_a_present_id_replaces :
  let w := fst (run (pipeline.add_error env_dev "job1" "boom") (uploaded env_dev)) in
  let r := run (pipeline.create_status env_dev "job1") w in
  registered "job1" w /\
  (exists st, snd r = Ok st) /\
  stage <$> _jobs w !! "job1" = Some FAILED /\
  errors <$> _jobs w !! "job1" = Some ["boom"] /\
  (fun st => size (assets st)) <$> _jobs w !! "job1" = Some 1%nat /\
  stage <$> _jobs (fst r) !! "job1" = Some UPLOADED /\
  errors <$> _jobs (fst r) !! "job1" = Some [] /\
  (fun st => size (assets st)) <$> _jobs (fst r) !! "job1" = Some 0%nat.
Proof. vm_compute. repeat split; eexists; reflexivity. Qed.

(** C3, as the code has it. [create_status] never fails: whether or not
    the identifier is present, it puts in the registry a new record in
    stage [UPLOADED], with no error, no asset and both timestamps at the
    current time, in the place of the record the identifier had; the other
    jobs, the stored transcripts, summaries and summary audio, the files
    and the trace are untouched. *)
Theorem create_status_replaces E j w :
  exists w' st,
    run (pipeline.create_status E j) w = (w', Ok st) /\
    st = mkProcessingStatus j UPLOADED None (clock E (ticks w)) (clock E (ticks w))
                            [] ∅ /\
    _jobs w' = <[j := st]> (_jobs w) /\
    _jobs w' !! j = Some st /\
    (forall j', j' ≠ j -> _jobs w' !! j' = _jobs w !! j') /\
    _transcripts w' = _transcripts w /\
    objects w' = objects w /\
    _summaries w' = _summaries w /\
    _summary_audio w' = _summary_audio w /\
    results_dir w' = results_dir w /\
    trace w' = trace w.
Proof.
  eexists _, _. split; [apply run_create_status|]. cbn.
  split; [reflexivity|]. split; [reflexivity|].
  split; [apply lookup_insert_eq|].
  split; [intros j' Hne; by rewrite lookup_insert_ne|].
  by repeat split.
Qed.

(* ------------------------------------------------------------------ *)

Section Mutations.
Variable E : Env.

Lemma mutate_all_app mus mu w :
  mutate_all E (mus ++ [mu]) w = fst (run (mutate E mu) (mutate_all E mus w)).
Proof. unfold mutate_all. by rewrite foldl_app. Qed.

Lemma mutate_errors_grow mu :
  is_create mu = false -> preserves errors_grow (mutate E mu).
Proof. destruct mu; intros Hc; try done; unfold mutate; keeps same_registry. Qed.

Lemma mutate_all_errors_grow mus w :
  forallb (fun mu => negb (is_create mu)) mus = true ->
  errors_grow w (mutate_all E mus w).
Proof.
  revert w. induction mus as [|mu mus IH]; intros w Hmus; [reflexivity|].
  cbn in Hmus. apply andb_prop in Hmus as [Hmu Hmus].
  apply negb_true_iff in Hmu. cbn.
  etransitivity; [apply (mutate_errors_grow mu Hmu w) | by apply IH].
Qed.
End Mutations.

(** C1, as the claim states it, fails: a job that failed at speech
    synthesis and is processed again without it ends [COMPLETED] with its
    error still listed; and [create_status] on its identifier empties the
    errors. *)
Lemma failed_job_is_advanced_again :
  let w0 := uploaded env_no_tts in
  let w1 := fst (run (pipeline.process_job env_no_tts "job1" source_mp3 true) w0) in
  let w2 := fst (run (pipeline.process_job env_no_tts "job1" source_mp3 false) w1) in
  let w3 := fst (run (pipeline.create_status env_no_tts "job1") w1) in
  stage <$> _jobs w1 !! "job1" = Some FAILED /\
  errors <$> _jobs w1 !! "job1" = Some ["TTS provider not configured or unsupported."] /\
  stage <$> _jobs w2 !! "job1" = Some COMPLETED /\
  errors <$> _jobs w2 !! "job1" = Some ["TTS provider not configured or unsupported."] /\
  errors <$> _jobs w3 !! "job1" = Some [].
Proof. vm_compute. repeat split. Qed.

(** C1, as the code has it. For a registered job, the operations other
    than [create_status] (stage updates, error records, asset
    registrations, the storing of a transcript, a summary or a summary
    audio, whole runs of the pipeline), in any number and order, keep the
    job and only append to its errors; [add_error] leaves the job [FAILED]
    with the message last in its errors; [update_stage] writes the stage it
    is given and keeps the errors, whatever the stage of the job was. *)
Theorem errors_are_only_appended E mus j w :
  registered j w ->
  forallb (fun mu => negb (is_create mu)) mus = true ->
  exists st st',
    _jobs w !! j = Some st /\
    _jobs (mutate_all E mus w) !! j = Some st' /\
    errors st `prefix_of` errors st' /\
    (forall msg, exists st'',
       _jobs (mutate_all E (mus ++ [AddError j msg]) w) !! j = Some st'' /\
       stage st'' = FAILED /\ errors st'' = errors st' ++ [msg]) /\
    (forall s d, exists st'',
       _jobs (mutate_all E (mus ++ [UpdateStage j s d]) w) !! j = Some st'' /\
       stage st'' = s /\ errors st'' = errors st').
Proof.
  intros [st Hj] Hmus.
  destruct (mutate_all_errors_grow E mus w Hmus j st Hj) as (st' & Hj' & Hpre).
  exists st, st'. split; [done|]. split; [done|]. split; [done|]. split.
  - intros msg. rewrite mutate_all_app. cbn [mutate].
    rewrite (run_add_error E j msg _ st' Hj'). cbn.
    rewrite lookup_insert_eq. eauto.
  - intros s d. rewrite mutate_all_app. cbn [mutate].
    rewrite (run_update_stage E j s d _ st' Hj'). cbn.
    rewrite lookup_insert_eq. eauto.
Qed.

Lemma errors_are_only_appended_witness :
  registered "job1" (uploaded env_dev) /\
  exists st st',
    _jobs (uploaded env_dev) !! "job1" = Some st /\
    _jobs (mutate_all env_dev
             [AddError "job1" "boom"; SetAsset "job1" "summary" "/media/job1/summary.json";
              ProcessJob "job1" source_mp3 false]
             (uploaded env_dev)) !! "job1" = Some st' /\
    errors st `prefix_of` errors st' /\
    (forall msg, exists st'',
       _jobs (mutate_all env_dev
                ([AddError "job1" "boom";
                  SetAsset "job1" "summary" "/media/job1/summary.json";
                  ProcessJob "job1" source_mp3 false] ++ [AddError "job1" msg])
                (uploaded env_dev)) !! "job1" = Some st'' /\
       stage st'' = FAILED /\ errors st'' = errors st' ++ [msg]) /\
    (forall s d, exists st'',
       _jobs (mutate_all env_dev
                ([AddError "job1" "boom";
                  SetAsset "job1" "summary" "/media/job1/summary.json";
                  ProcessJob "job1" source_mp3 false] ++ [UpdateStage "job1" s d])
                (uploaded env_dev)) !! "job1" = Some st'' /\
       stage st'' = s /\ errors st'' = errors st').
Proof.
  assert (H : registered "job1" (uploaded env_dev))
    by (vm_compute; eexists; reflexivity).
  split; [exact H|].
  apply (errors_are_only_appended env_dev
           [AddError "job1" "boom"; SetAsset "job1" "summary" "/media/job1/summary.json";
            ProcessJob "job1" source_mp3 false]
           "job1" (uploaded env_dev) H).
  reflexivity.
Defined.

(* ------------------------------------------------------------------ *)

Ltac stamped_tac :=
  let H := fresh in
  intros ?; split; [cbn; lia | intros ? ? H; left; eauto].

Section Stamps.
Variable E : Env.

Lemma stamped_refreshed w w' j st_new :
  _jobs w' = <[j := st_new]> (_jobs w) ->
  ticks w' = S (ticks w) ->
  updated_at st_new = clock E (ticks w) ->
  stamped E w w'.
Proof.
  intros Hjobs Hticks Hnow. split; [lia|].
  intros j' st' Hj'. rewrite Hjobs in Hj'.
  destruct (decide (j = j')) as [<-|Hne].
  - rewrite lookup_insert_eq in Hj'. injection Hj' as <-.
    right. exists (ticks w). split; [lia | done].
  - rewrite lookup_insert_ne in Hj' by done. left. eauto.
Qed.

Lemma stamped_kept w w' j st st_new :
  _jobs w' = <[j := st_new]> (_jobs w) ->
  ticks w' = ticks w ->
  _jobs w !! j = Some st ->
  updated_at st_new = updated_at st ->
  stamped E w w'.
Proof.
  intros Hjobs Hticks Hj Hsame. split; [lia|].
  intros j' st' Hj'. rewrite Hjobs in Hj'. left.
  destruct (decide (j = j')) as [<-|Hne].
  - rewrite lookup_insert_eq in Hj'. injection Hj' as <-. eauto.
  - rewrite lookup_insert_ne in Hj' by done. eauto.
Qed.

Lemma create_status_stamped j : preserves (stamped E) (pipeline.create_status E j).
Proof.
  intros w. rewrite run_create_status. cbn.
  by eapply stamped_refreshed.
Qed.

Lemma update_stage_stamped j s d :
  preserves (stamped E) (pipeline.update_stage E j s d).
Proof.
  intros w. destruct (_jobs w !! j) as [st|] eqn:Hj.
  - rewrite (run_update_stage E j s d w st Hj). by eapply stamped_refreshed.
  - rewrite (run_update_stage_absent E j s d w Hj). reflexivity.
Qed.

Lemma add_error_stamped j msg :
  preserves (stamped E) (pipeline.add_error E j msg).
Proof.
  intros w. destruct (_jobs w !! j) as [st|] eqn:Hj.
  - rewrite (run_add_error E j msg w st Hj). by eapply stamped_refreshed.
  - rewrite (run_add_error_absent E j msg w Hj). reflexivity.
Qed.

Lemma set_asset_stamped j key url :
  preserves (stamped E) (pipeline.set_asset j key url).
Proof.
  intros w. destruct (_jobs w !! j) as [st|] eqn:Hj.
  - rewrite (run_set_asset j key url w st Hj). by eapply stamped_kept.
  - rewrite (run_set_asset_absent j key url w Hj). reflexivity.
Qed.
End Stamps.

#[global] Hint Resolve create_status_stamped update_stage_stamped add_error_stamped
  set_asset_stamped : keeps.

Section StampedRuns.
Variable E : Env.

Lemma mutate_stamped mu : preserves (stamped E) (mutate E mu).
Proof. destruct mu; unfold mutate; keeps stamped_tac. Qed.

Lemma mutate_all_stamped mus w : stamped E w (mutate_all E mus w).
Proof.
  revert w. induction mus as [|mu mus IH]; intros w; [reflexivity|].
  cbn. etransitivity; [apply (mutate_stamped mu w) | apply IH].
Qed.

Lemma mutate_all_app_all mus0 mus w :
  mutate_all E (mus0 ++ mus) w = mutate_all E mus (mutate_all E mus0 w).
Proof. unfold mutate_all. by rewrite foldl_app. Qed.
End StampedRuns.

(** C7, as the claim states it, fails: registering an asset and storing a
    summary audio change the record of the job and what is stored for it,
    and [updated_at] stays at the time of the creation although the clock
    has moved on. *)
Lemma asset_registration_keeps_updated_at :
  let w := uploaded env_dev in
  let w' := mutate_all env_dev
              [SetAsset "job1" "transcript" "/media/job1/transcript.json";
               StoreSummaryAudio "job1" "/media/job1/summary.mp3"] w in
  updated_at <$> _jobs w !! "job1" = Some 0%Z /\
  clock env_dev (ticks w) = 1%Z /\
  (_jobs w !! "job1" ≫= fun st => assets st !! "transcript") = None /\
  (_jobs w' !! "job1" ≫= fun st => assets st !! "transcript")
    = Some "/media/job1/transcript.json" /\
  _summary_audio w' !! "job1" = Some "/media/job1/summary.mp3" /\
  updated_at <$> _jobs w' !! "job1" = Some 0%Z.
Proof. vm_compute. repeat split. Qed.

(** C7, as the code has it. [update_stage] and [add_error] set
    [updated_at] to the current time; the registration of an asset leaves
    it as it was, and the storing of a transcript, a summary or a summary
    audio does not touch the status records. When the clock never goes
    back, the [updated_at] of a job never decreases along a sequence of
    operations on a registry that started empty. *)
Theorem updated_at_never_decreases E mus0 mus j w0 t t' :
  (forall n m, (n <= m)%nat -> (clock E n <= clock E m)%Z) ->
  _jobs w0 = ∅ ->
  updated_at <$> _jobs (mutate_all E mus0 w0) !! j = Some t ->
  updated_at <$> _jobs (mutate_all E (mus0 ++ mus) w0) !! j = Some t' ->
  (t <= t')%Z /\
  let w := mutate_all E mus0 w0 in
  (forall s d,
     updated_at <$> _jobs (mutate_all E [UpdateStage j s d] w) !! j
     = Some (clock E (ticks w))) /\
  (forall msg,
     updated_at <$> _jobs (mutate_all E [AddError j msg] w) !! j
     = Some (clock E (ticks w))) /\
  (forall key url,
     updated_at <$> _jobs (mutate_all E [SetAsset j key url] w) !! j = Some t) /\
  (forall tr, _jobs (mutate_all E [StoreTranscript j tr] w) = _jobs w) /\
  (forall s, _jobs (mutate_all E [StoreSummary j s] w) = _jobs w) /\
  (forall path, _jobs (mutate_all E [StoreSummaryAudio j path] w) = _jobs w).
Proof.
  intros Hclock Hempty Ht Ht'. rewrite mutate_all_app_all in Ht'.
  set (w := mutate_all E mus0 w0) in *.
  destruct (_jobs w !! j) as [st|] eqn:Hj; [|done].
  injection Ht as <-. split.
  - destruct (_jobs (mutate_all E mus w) !! j) as [st'|] eqn:Hj'; [|done].
    injection Ht' as <-.
    destruct (mutate_all_stamped E mus0 w0) as [Hticks0 Hpast]. fold w in Hticks0, Hpast.
    destruct (Hpast j st Hj) as [(st0 & Hj0 & _)|(n & Hn & Hst)].
    { by rewrite Hempty in Hj0. }
    destruct (mutate_all_stamped E mus w) as [Hticks Hlater].
    destruct (Hlater j st' Hj') as [(st1 & Hj1 & Hsame)|(n' & Hn' & Hst')].
    + rewrite Hj in Hj1. injection Hj1 as <-. lia.
    + rewrite Hst, Hst'. apply Hclock. lia.
  - cbn [mutate_all foldl mutate]. repeat split.
    + intros s d. rewrite (run_update_stage E j s d w st Hj). cbn.
      by rewrite lookup_insert_eq.
    + intros msg. rewrite (run_add_error E j msg w st Hj). cbn.
      by rewrite lookup_insert_eq.
    + intros key url. rewrite (run_set_asset j key url w st Hj). cbn.
      by rewrite lookup_insert_eq.
Qed.

Lemma updated_at_never_decreases_witness :
  (0 <= 2)%Z /\
  updated_at <$> _jobs (mutate_all env_dev
                          ([CreateStatus "job1"] ++
                           [SetAsset "job1" "source_audio" "/media/job1/source.mp3";
                            UpdateStage "job1" TRANSCRIBING None;
                            AddError "job1" "boom"])
                          empty_world) !! "job1" = Some 2%Z.
Proof.
  split.
  - apply (updated_at_never_decreases env_dev [CreateStatus "job1"]
             [SetAsset "job1" "source_audio" "/media/job1/source.mp3";
              UpdateStage "job1" TRANSCRIBING None; AddError "job1" "boom"]
             "job1" empty_world 0%Z 2%Z).
    + intros n m H. simpl. lia.
    + reflexivity.
    + reflexivity.
    + reflexivity.
  - reflexivity.
Defined.

(* ================================================================== *)
(** ** The [/process] entry point                                      *)
(* ================================================================== *)

Section StartProcessing.
Variable E : Env.

Lemma run_get_job_dir j w :
  mkdir_fault E j = None ->
  run (pipeline.get_job_dir E j) w = (made_dir j w, Ok j).
Proof.
  intros Hm. unfold pipeline.get_job_dir, storage.get_job_dir. by rewrite Hm.
Qed.

Lemma source_files_made_dir j w :
  storage.source_files j (made_dir j w) = storage.source_files j w.
Proof.
  unfold storage.source_files, made_dir. cbn.
  destruct (results_dir w !! j) as [entries|] eqn:Hd.
  - by rewrite Hd.
  - by rewrite lookup_insert_eq.
Qed.

Lemma made_dir_present j w :
  is_Some (results_dir w !! j) -> made_dir j w = w.
Proof.
  intros [entries Hd]. unfold made_dir, set_results_dir. rewrite Hd.
  by destruct w.
Qed.

Lemma source_files_dir j w p rest :
  storage.source_files j w = p :: rest -> is_Some (results_dir w !! j).
Proof.
  unfold storage.source_files. destruct (results_dir w !! j); [eauto | done].
Qed.

(** [start_processing], when the job directory can be made. *)
Lemma run_start_processing request w :
  mkdir_fault E (req_job_id request) = None ->
  run (main.start_processing E request) w =
  let j := req_job_id request in
  match storage.source_files j w with
  | [] =>
      (made_dir j w,
       Raise (HTTPException 400 "Audio source not available for processing."))
  | audio_path :: _ =>
      match _jobs w !! j with
      | Some status =>
          (made_dir j w,
           Ok (mkProcessResponse j status,
               [LaunchBackground j audio_path (enable_tts request)]))
      | None => (made_dir j w, Raise (KeyError j))
      end
  end.
Proof.
  intros Hm. unfold main.start_processing, main.or_404.
  rewrite run_bind, run_try_except, (run_get_job_dir _ _ Hm). cbn iota beta.
  rewrite run_bind. unfold storage.glob_source. unfold run at 1. cbn [gets runCo].
  rewrite source_files_made_dir.
  destruct (storage.source_files (req_job_id request) w) as [|audio_path rest];
    [reflexivity|].
  rewrite run_bind. unfold pipeline.ensure_job, pipeline.get.
  rewrite run_lookup_job.
  change (_jobs (made_dir (req_job_id request) w)) with (_jobs w).
  by destruct (_jobs w !! req_job_id request).
Qed.
End StartProcessing.

(** C6, as the claim states it, fails: for an identifier that is not in
    the registry, [start_processing] answers 400, not 404, after creating a
    directory for it; and for a registered job whose audio is not stored
    yet it answers 400 as well. *)
Lemma unknown_job_is_not_reported_not_found :
  let w := uploaded env_dev in
  let r := run (main.start_processing env_dev (mkProcessRequest "ghost" false)) w in
  let r2 := run (main.start_processing env_dev (mkProcessRequest "job2" false))
                (awaiting_download env_dev) in
  _jobs w !! "ghost" = None /\
  snd r = Raise (HTTPException 400 "Audio source not available for processing.") /\
  snd r ≠ Raise (HTTPException 404 "Job not found") /\
  results_dir w !! "ghost" = None /\
  results_dir (fst r) !! "ghost" = Some [] /\
  registered "job2" (awaiting_download env_dev) /\
  snd r2 = Raise (HTTPException 400 "Audio source not available for processing.").
Proof. vm_compute. repeat split; try done. eexists; reflexivity. Qed.

(** C6, as the code has it. For a registered job whose directory holds no
    file [source.*] (its audio is not stored yet), [start_processing] fails
    with the HTTP error 400 [Audio source not available for processing.],
    which is not the Not Found error; nothing is scheduled and nothing but
    the results directory has changed. *)
Theorem start_processing_without_audio E request w :
  registered (req_job_id request) w ->
  mkdir_fault E (req_job_id request) = None ->
  storage.source_files (req_job_id request) w = [] ->
  exists w',
    run (main.start_processing E request) w =
      (w', Raise (HTTPException 400 "Audio source not available for processing.")) /\
    only_disk w w' /\
    fst (main.serve_process E request (asyncio.mkLoop w [])) = asyncio.mkLoop w' [].
Proof.
  intros _ Hm Hnone. exists (made_dir (req_job_id request) w).
  assert (Hrun : run (main.start_processing E request) w =
                 (made_dir (req_job_id request) w,
                  Raise (HTTPException 400
                           "Audio source not available for processing."))).
  { rewrite (run_start_processing E request w Hm). cbn zeta. by rewrite Hnone. }
  split; [exact Hrun|]. split.
  - by destruct w.
  - unfold main.serve_process. cbn [asyncio.world asyncio.tasks]. by rewrite Hrun.
Qed.

Lemma start_processing_without_audio_witness :
  registered "job2" (awaiting_download env_dev) /\
  exists w',
    run (main.start_processing env_dev (mkProcessRequest "job2" true))
        (awaiting_download env_dev) =
      (w', Raise (HTTPException 400 "Audio source not available for processing.")) /\
    only_disk (awaiting_download env_dev) w' /\
    fst (main.serve_process env_dev (mkProcessRequest "job2" true)
           (asyncio.mkLoop (awaiting_download env_dev) []))
    = asyncio.mkLoop w' [].
Proof.
  assert (H : registered "job2" (awaiting_download env_dev))
    by (vm_compute; eexists; reflexivity).
  split; [exact H|].
  apply (start_processing_without_audio env_dev (mkProcessRequest "job2" true)
           (awaiting_download env_dev) H).
  - reflexivity.
  - reflexivity.
Defined.

(* ------------------------------------------------------------------ *)

(** C10, as the claim states it, fails: a second [/process] request for a
    job whose run is suspended in the diariser starts a second run; the two
    runs take turns at each suspension, both go through all the stages, and
    the job goes back from Diarizing to Transcribing. *)
Lemma two_launches_interleave :
  let request := mkProcessRequest "job1" false in
  let l0 := asyncio.mkLoop (uploaded env_dev) [] in
  let l1 := asyncio.resume 0 (fst (main.serve_process env_dev request l0)) in
  let l2 := fst (main.serve_process env_dev request l1) in
  let l3 := asyncio.run_schedule [1; 0; 1; 0; 1]%nat l2 in
  map asyncio.finished (asyncio.tasks l1) = [false] /\
  stage <$> _jobs (asyncio.world l1) !! "job1" = Some DIARIZING /\
  map asyncio.finished (asyncio.tasks l2) = [false; false] /\
  map asyncio.finished (asyncio.tasks l3) = [true; true] /\
  stage_writes "job1" (trace (asyncio.world l3)) =
    [TRANSCRIBING; DIARIZING; TRANSCRIBING; DIARIZING;
     SUMMARIZING; SUMMARIZING; COMPLETED; COMPLETED].
Proof. vm_compute. repeat split. Qed.

(** C10, as the code has it. [start_processing] has no guard: on a
    registered job with a source audio file each request schedules a new
    run of the pipeline, whatever the stage of the job and whatever tasks
    the loop already has. Two requests leave two more tasks in the loop,
    and each of them, whenever it runs, writes its own stages: all five or
    six of them when it ends [COMPLETED]. *)
Theorem every_request_schedules_a_run E request l audio_path others :
  registered (req_job_id request) (asyncio.world l) ->
  mkdir_fault E (req_job_id request) = None ->
  storage.source_files (req_job_id request) (asyncio.world l) = audio_path :: others ->
  let j := req_job_id request in
  let task := Susp (pipeline.process_job E j audio_path (enable_tts request)) in
  exists response l1 l2,
    main.serve_process E request l = (l1, Ok response) /\
    main.serve_process E request l1 = (l2, Ok response) /\
    asyncio.world l2 = asyncio.world l /\
    asyncio.tasks l2 = asyncio.tasks l ++ [task; task] /\
    forall w, registered j w ->
      exists w' st evs,
        runCo task w = (w', Ok st) /\
        trace w' = trace w ++ evs /\
        (stage st = COMPLETED ->
         stage_writes j evs =
         [TRANSCRIBING; DIARIZING; SUMMARIZING]
           ++ (if enable_tts request then [TTS] else []) ++ [COMPLETED]).
Proof.
  intros [status Hj] Hm Hsrc j task.
  assert (Hserve : forall tasks0,
    main.serve_process E request (asyncio.mkLoop (asyncio.world l) tasks0) =
    (asyncio.mkLoop (asyncio.world l) (tasks0 ++ [task]),
     Ok (mkProcessResponse j status))).
  { intros tasks0. unfold main.serve_process. cbn [asyncio.world asyncio.tasks].
    rewrite (run_start_processing E request _ Hm). cbn zeta.
    rewrite Hsrc, Hj, made_dir_present by (by eapply source_files_dir).
    reflexivity. }
  exists (mkProcessResponse j status),
         (asyncio.mkLoop (asyncio.world l) (asyncio.tasks l ++ [task])),
         (asyncio.mkLoop (asyncio.world l) ((asyncio.tasks l ++ [task]) ++ [task])).
  split; [destruct l; apply Hserve|]. split; [apply Hserve|].
  split; [reflexivity|]. split; [by rewrite <- app_assoc|].
  intros w Hreg.
  destruct (process_job_trace E j audio_path (enable_tts request) w Hreg)
    as (w' & st & evs & Hrun & _ & Htrace & Hevs).
  exists w', st, evs. split; [exact Hrun|]. split; [done|].
  intros Hst. destruct Hevs as [[_ ->]|[Hfailed _]].
  - apply plan_stage_writes.
  - congruence.
Qed.

Lemma every_request_schedules_a_run_witness :
  registered "job1" (uploaded env_dev) /\
  exists response l1 l2,
    main.serve_process env_dev (mkProcessRequest "job1" false)
      (asyncio.mkLoop (uploaded env_dev) []) = (l1, Ok response) /\
    main.serve_process env_dev (mkProcessRequest "job1" false) l1
      = (l2, Ok response) /\
    asyncio.world l2 = uploaded env_dev /\
    asyncio.tasks l2 =
      [Susp (pipeline.process_job env_dev "job1" source_mp3 false);
       Susp (pipeline.process_job env_dev "job1" source_mp3 false)].
Proof.
  assert (H : registered "job1" (uploaded env_dev))
    by (vm_compute; eexists; reflexivity).
  split; [exact H|].
  destruct (every_request_schedules_a_run env_dev (mkProcessRequest "job1" false)
              (asyncio.mkLoop (uploaded env_dev) []) source_mp3 [] H
              eq_refl eq_refl)
    as (response & l1 & l2 & H1 & H2 & Hw & Ht & _).
  exists response, l1, l2. repeat split; assumption.
Defined.

(* ================================================================== *)
(** ** Further properties of the code                                  *)
(* ================================================================== *)

Section Unregistered.
Variable E : Env.

(** X1. A run of the pipeline on a job that is not in the registry lets a
    [KeyError] through: the first stage update raises it, the handler's
    [add_error] raises it again, and the state is exactly the one before. *)
Theorem process_job_on_unregistered_job j p tts w :
  _jobs w !! j = None ->
  run (pipeline.process_job E j p tts) w = (w, Raise (KeyError j)).
Proof.
  intros Hj. unfold pipeline.process_job, pipeline.process_job_try.
  rewrite run_bind, run_try_except, run_bind.
  rewrite (run_update_stage_absent E j _ _ w Hj). cbn iota beta.
  by rewrite (run_add_error_absent E j _ w Hj).
Qed.
End Unregistered.

Lemma process_job_on_unregistered_job_witness :
  _jobs (uploaded env_dev) !! "ghost" = None /\
  run (pipeline.process_job env_dev "ghost" source_mp3 true) (uploaded env_dev)
  = (uploaded env_dev, Raise (KeyError "ghost")).
Proof.
  assert (H : _jobs (uploaded env_dev) !! "ghost" = None) by reflexivity.
  split; [exact H|].
  exact (process_job_on_unregistered_job env_dev "ghost" source_mp3 true
           (uploaded env_dev) H).
Defined.

Section Success.
Variable E : Env.

(** The run in which every stage succeeds. *)
Lemma run_process_job_success j p tts w st0 lang ts dturns summary audio :
  _jobs w !! j = Some st0 ->
  (forall w0, run (transcription.transcribe_audio E p) w0 = (w0, Ok (lang, ts))) ->
  (forall w0, run (diarization.diarize E ts p) w0 = (w0, Ok dturns)) ->
  (forall w0, run (llm.summarize E dturns) w0 = (w0, Ok summary)) ->
  (tts = true ->
   forall w0, run (tts.synthesize_tts E (mkTTSRequest j (overview summary) None)) w0
              = (written j "summary.mp3" (Binary audio) w0,
                 Ok (mkPath j "summary.mp3"))) ->
  mkdir_fault E j = None ->
  (forall n, write_fault E j n = None) ->
  exists w' st,
    run (pipeline.process_job E j p tts) w = (w', Ok st) /\
    _jobs w' !! j = Some st /\
    stage st = COMPLETED /\
    detail st = Some "Processing complete" /\
    errors st = errors st0 /\
    job_id st = job_id st0 /\
    created_at st = created_at st0 /\
    updated_at st = clock E (ticks w + (if tts then 4 else 3)) /\
    assets st =
      <["summary" := storage.media_url j "summary.json"]>
        (<["diarized_transcript" := storage.media_url j "diarized.json"]>
           (<["transcript" := storage.media_url j "transcript.json"]> (assets st0))) /\
    stored_transcript j w' = Some (mkTranscriptResult (Some lang) None dturns) /\
    _summaries w' !! j = Some summary /\
    _summary_audio w' !! j =
      (if tts then Some (storage.media_url j "summary.mp3")
       else _summary_audio w !! j) /\
    file_of j "transcript.json" w' =
      Some (TranscriptJson (mkTranscriptResult (Some lang) None ts)) /\
    file_of j "diarized.json" w' =
      Some (TranscriptJson (mkTranscriptResult (Some lang) None dturns)) /\
    file_of j "summary.json" w' = Some (SummaryJson summary) /\
    trace w' = trace w ++ plan j tts.
Proof.
  intros Hj Htr Hdia Hsum Hsyn Hm Hw.
  unfold pipeline.process_job, pipeline.process_job_try.
  rewrite run_bind, run_try_except.
  run_step. run_step. rewrite Htr. cbn iota beta.
  run_step. cbn. run_step. cbn. run_step. cbn.
  rewrite new_transcript_lookup. cbn.
  run_step. run_step. run_step. run_step. cbn.
  rewrite new_transcript_lookup. cbn.
  run_step. rewrite Hdia. cbn iota beta.
  run_step. cbn. run_step. cbn.
  rewrite list_lookup_alter_eq, new_transcript_lookup. cbn.
  run_step. run_step. run_step. run_step. cbn.
  rewrite list_lookup_alter_eq, new_transcript_lookup. cbn.
  run_step. rewrite Hsum. cbn iota beta.
  run_step. cbn. run_step. run_step.
  destruct tts.
  - run_step. run_step. cbn zeta. run_step. rewrite (Hsyn eq_refl). cbn iota beta.
    cbn.
    erewrite run_update_stage by lookup_now.
    unfold pipeline.get. rewrite run_lookup_job. cbn.
    rewrite !lookup_insert_eq.
    eexists _, _. split; [reflexivity|].
    split; [cbn; apply lookup_insert_eq|]. do 5 (split; [reflexivity|]).
    split; [cbn; f_equal; lia|]. split; [reflexivity|].
    split.
    { unfold stored_transcript. cbn. rewrite lookup_insert_eq. cbn.
      by rewrite list_lookup_alter_eq, new_transcript_lookup. }
    split; [cbn; apply lookup_insert_eq|].
    split; [cbn; apply lookup_insert_eq|].
    unfold file_of. cbn. rewrite !lookup_insert_eq. cbn.
    split; [|split; [|split]].
    + rewrite !read_entry_write_entry_ne by done. apply read_entry_write_entry.
    + rewrite !read_entry_write_entry_ne by done. apply read_entry_write_entry.
    + rewrite !read_entry_write_entry_ne by done. apply read_entry_write_entry.
    + by rewrite <- !app_assoc.
  - run_step. cbn.
    erewrite run_update_stage by lookup_now.
    unfold pipeline.get. rewrite run_lookup_job. cbn.
    rewrite !lookup_insert_eq.
    eexists _, _. split; [reflexivity|].
    split; [cbn; apply lookup_insert_eq|]. do 5 (split; [reflexivity|]).
    split; [cbn; f_equal; lia|]. split; [reflexivity|].
    split.
    { unfold stored_transcript. cbn. rewrite lookup_insert_eq. cbn.
      by rewrite list_lookup_alter_eq, new_transcript_lookup. }
    split; [cbn; apply lookup_insert_eq|].
    split; [reflexivity|].
    unfold file_of. cbn. rewrite !lookup_insert_eq. cbn.
    split; [|split; [|split]].
    + rewrite !read_entry_write_entry_ne by done. apply read_entry_write_entry.
    + rewrite !read_entry_write_entry_ne by done. apply read_entry_write_entry.
    + apply read_entry_write_entry.
    + by rewrite <- !app_assoc.
Qed.
End Success.

Lemma run_fetch_results j w :
  run (main.fetch_results j) w =
  (w, match _jobs w !! j with
      | Some st =>
          Ok (mkResultsResponse j st (stored_transcript j w) (_summaries w !! j)
                (assets st !! "source_audio") (_summary_audio w !! j))
      | None => Raise (HTTPException 404 "Job not found")
      end).
Proof.
  unfold main.fetch_results, main.or_404, pipeline.results.
  rewrite run_try_except, run_bind, run_lookup_job.
  by destruct (_jobs w !! j).
Qed.

(** X2. When transcription, diarisation and summarisation succeed, and
    speech synthesis too in a run that asks for it (in one that does not,
    the synthesiser is not looked at, and may be one that would fail), and
    the disk takes the writes, a run on a
    registered job ends [COMPLETED] with the errors it had, registers the
    assets [transcript], [diarized_transcript] and [summary] under their
    media URLs, writes the three JSON files, and [fetch_results] then
    answers the diarised transcript, the summary and, if speech was asked
    for, the URL of the summary audio. *)
Theorem successful_run_completes E j p tts w st0 lang ts dturns summary audio :
  _jobs w !! j = Some st0 ->
  (forall w0, run (transcription.transcribe_audio E p) w0 = (w0, Ok (lang, ts))) ->
  (forall w0, run (diarization.diarize E ts p) w0 = (w0, Ok dturns)) ->
  (forall w0, run (llm.summarize E dturns) w0 = (w0, Ok summary)) ->
  (tts = true ->
   forall w0, run (tts.synthesize_tts E (mkTTSRequest j (overview summary) None)) w0
              = (written j "summary.mp3" (Binary audio) w0,
                 Ok (mkPath j "summary.mp3"))) ->
  mkdir_fault E j = None ->
  (forall n, write_fault E j n = None) ->
  exists w' st,
    run (pipeline.process_job E j p tts) w = (w', Ok st) /\
    stage st = COMPLETED /\
    errors st = errors st0 /\
    created_at st = created_at st0 /\
    assets st =
      <["summary" := storage.media_url j "summary.json"]>
        (<["diarized_transcript" := storage.media_url j "diarized.json"]>
           (<["transcript" := storage.media_url j "transcript.json"]> (assets st0))) /\
    file_of j "transcript.json" w' =
      Some (TranscriptJson (mkTranscriptResult (Some lang) None ts)) /\
    file_of j "diarized.json" w' =
      Some (TranscriptJson (mkTranscriptResult (Some lang) None dturns)) /\
    file_of j "summary.json" w' = Some (SummaryJson summary) /\
    run (main.fetch_results j) w' =
      (w', Ok (mkResultsResponse j st
                 (Some (mkTranscriptResult (Some lang) None dturns))
                 (Some summary)
                 (assets st0 !! "source_audio")
                 (if tts then Some (storage.media_url j "summary.mp3")
                  else _summary_audio w !! j))).
Proof.
  intros Hj Htr Hdia Hsum Hsyn Hm Hw.
  destruct (run_process_job_success E j p tts w st0 lang ts dturns summary audio
              Hj Htr Hdia Hsum Hsyn Hm Hw)
    as (w' & st & Hrun & Hj' & Hst & _ & Herr & _ & Hcr & _ & Hassets & Hstored
        & Hsummary & Haudio & Hf1 & Hf2 & Hf3 & _).
  exists w', st. do 8 (split; [done|]).
  rewrite run_fetch_results, Hj', Hstored, Hsummary, Haudio, Hassets.
  by rewrite !lookup_insert_ne.
Qed.

Lemma successful_run_completes_witness :
  let summary :=
    mkSummaryResult "Custom provider not configured."
      [mkSummarySection "Speaker 1" ["Transcript content truncated."]]
      ["Set LLM_PROVIDER to openai, gemini, or deepseek."] in
  (exists w' st,
     run (pipeline.process_job env_dev "job1" source_mp3 true) (uploaded env_dev)
       = (w', Ok st) /\
     stage st = COMPLETED /\
     errors st = [] /\
     file_of "job1" "summary.json" w' = Some (SummaryJson summary) /\
     res_summary_audio_url <$>
       (match snd (run (main.fetch_results "job1") w') with
        | Ok r => Some r
        | Raise _ => None
        end) = Some (Some "/media/job1/summary.mp3")) /\
  (exists w' st,
     run (pipeline.process_job env_default "job1" source_mp3 false) (uploaded env_dev)
       = (w', Ok st) /\
     stage st = COMPLETED /\
     errors st = [] /\
     file_of "job1" "summary.json" w' = Some (SummaryJson summary) /\
     res_summary_audio_url <$>
       (match snd (run (main.fetch_results "job1") w') with
        | Ok r => Some r
        | Raise _ => None
        end) = Some None).
Proof.
  intros summary.
  set (st0 := mkProcessingStatus "job1" UPLOADED None 0 0 []
                {["source_audio" := "/media/job1/source.mp3"]}).
  set (heard := [mkSpeakerTurn "unknown" 0 1 "hi"; mkSpeakerTurn "unknown" 1 2 "there";
                 mkSpeakerTurn "unknown" 2 3 "bye"]).
  set (diarized :=
         [mkSpeakerTurn "Speaker 1" 0 1 "hi"; mkSpeakerTurn "Speaker 2" 1 2 "there";
          mkSpeakerTurn "Speaker 1" 2 3 "bye"]).
  split.
  - destruct (successful_run_completes env_dev "job1" source_mp3 true
                (uploaded env_dev) st0 "en" heard diarized summary [])
      as (w' & st & Hrun & Hst & Herr & _ & _ & _ & _ & Hfile & Hfetch).
    + reflexivity.
    + intros w0. reflexivity.
    + intros w0. reflexivity.
    + intros w0. reflexivity.
    + intros _ w0. reflexivity.
    + reflexivity.
    + intros n. reflexivity.
    + exists w', st. rewrite Hfetch. repeat split; assumption.
  - destruct (successful_run_completes env_default "job1" source_mp3 false
                (uploaded env_dev) st0 "en" heard diarized summary [])
      as (w' & st & Hrun & Hst & Herr & _ & _ & _ & _ & Hfile & Hfetch).
    + reflexivity.
    + intros w0. reflexivity.
    + intros w0. reflexivity.
    + intros w0. reflexivity.
    + intros [=].
    + reflexivity.
    + intros n. reflexivity.
    + exists w', st. rewrite Hfetch. repeat split; assumption.
Defined.

(* ------------------------------------------------------------------ *)

#[global] Instance others_kept_preorder j n : PreOrder (others_kept j n).
Proof.
  split.
  - intros w. split; [lia|]. split; [auto|]. intros j' Hne. by repeat split.
  - intros w1 w2 w3 (Hl12 & Ho12 & H12) (Hl23 & Ho23 & H23).
    split; [lia|]. split; [auto|].
    intros j' Hne.
    destruct (H12 j' Hne) as (? & ? & ? & ? & ?).
    destruct (H23 j' Hne) as (? & ? & ? & ? & ?).
    repeat split; congruence.
Qed.

(** A state update that writes the registry or the disk at [j] only, and
    the objects at [n] or above only. *)
Ltac others_tac :=
  let Hne := fresh "Hne" in
  intros ?; split; [cbn; rewrite ?length_app, ?length_alter; lia|]; split;
  [ intros ? ? ? ?; cbn;
    first [ assumption
          | by apply lookup_app_l_Some
          | rewrite list_lookup_alter_ne by lia; assumption ]
  | intros ? Hne; cbn;
    repeat match goal with
           | |- context [match ?d !! ?k with _ => _ end] => destruct (d !! k)
           end;
    rewrite ?lookup_insert_ne by done; by repeat split ].

Section Others.
Variable E : Env.
Implicit Types (j : string) (n : nat).

Lemma others_kept_insert j n w g st :
  (forall w0, _jobs (g w0) = _jobs w0 /\ _transcripts (g w0) = _transcripts w0 /\
              objects (g w0) = objects w0 /\ _summaries (g w0) = _summaries w0 /\
              _summary_audio (g w0) = _summary_audio w0 /\
              results_dir (g w0) = results_dir w0) ->
  others_kept j n w (g (set_jobs <[j := st]> w)).
Proof.
  intros Hg. destruct (Hg (set_jobs <[j := st]> w)) as (Hj & Ht & Ho & Hs & Ha & Hd).
  split; [by rewrite Ho|]. split.
  - intros r t _ Hr. by rewrite Ho.
  - intros j' Hne. rewrite Hj, Ht, Hs, Ha, Hd. cbn.
    rewrite lookup_insert_ne by done. by repeat split.
Qed.

Lemma update_stage_others_kept j n s d :
  preserves (others_kept j n) (pipeline.update_stage E j s d).
Proof.
  intros w. destruct (_jobs w !! j) as [st|] eqn:Hj.
  - rewrite (run_update_stage E j s d w st Hj). cbn [fst].
    apply (others_kept_insert j n (set_ticks S w)
             (fun w0 => set_trace _ w0)). by intros [].
  - rewrite (run_update_stage_absent E j s d w Hj). reflexivity.
Qed.

Lemma add_error_others_kept j n msg :
  preserves (others_kept j n) (pipeline.add_error E j msg).
Proof.
  intros w. destruct (_jobs w !! j) as [st|] eqn:Hj.
  - rewrite (run_add_error E j msg w st Hj). cbn [fst].
    apply (others_kept_insert j n (set_ticks S w)
             (fun w0 => set_trace _ w0)). by intros [].
  - rewrite (run_add_error_absent E j msg w Hj). reflexivity.
Qed.

Lemma set_asset_others_kept j n key url :
  preserves (others_kept j n) (pipeline.set_asset j key url).
Proof.
  intros w. destruct (_jobs w !! j) as [st|] eqn:Hj.
  - rewrite (run_set_asset j key url w st Hj). cbn [fst].
    apply (others_kept_insert j n w (fun w0 => w0)). by intros [].
  - rewrite (run_set_asset_absent j key url w Hj). reflexivity.
Qed.

Lemma made_dir_others_kept j n w : others_kept j n w (made_dir j w).
Proof. revert w. others_tac. Qed.

Lemma write_file_others_kept j n file_name c :
  preserves (others_kept j n) (storage.write_file E j file_name c).
Proof. keeps others_tac. Qed.

Lemma save_text_others_kept j n file_name c :
  preserves (others_kept j n) (storage.save_text E j file_name c).
Proof.
  intros w. unfold storage.save_text, storage.get_job_dir. rewrite run_bind.
  destruct (mkdir_fault E j) as [msg|]; [reflexivity|].
  rewrite run_bind. cbn [run modify runCo fst snd]. cbn iota beta.
  etransitivity; [apply (made_dir_others_kept j n w)|].
  apply write_file_others_kept.
Qed.

Lemma save_binary_others_kept j n file_name data :
  preserves (others_kept j n) (storage.save_binary E j file_name data).
Proof. apply save_text_others_kept. Qed.

Lemma pure_others_kept {A} j n (m : M A) :
  preserves eq m -> preserves (others_kept j n) m.
Proof. apply preserves_weaken. intros w ? <-. reflexivity. Qed.
End Others.

#[global] Hint Resolve update_stage_others_kept add_error_others_kept
  set_asset_others_kept save_text_others_kept save_binary_others_kept
  pure_others_kept : keeps.

(** The goal on one run, from what is known of every run. *)
Ltac for_every_run :=
  match goal with
  | |- ?R ?w (fst (run ?m ?w)) =>
      let Hp := fresh in cut (preserves R m); [intros Hp; exact (Hp w) |]
  end.

Section OthersRun.
Variable E : Env.

Lemma synthesize_tts_others_kept n request :
  preserves (others_kept (tts_job_id request) n) (tts.synthesize_tts E request).
Proof. keeps others_tac. Qed.

(** The rule of sequence that remembers what the first part returned. *)
Lemma kept_bind {A B} (R : relation World) `{!PreOrder R}
    (m : M A) (f : A -> M B) w :
  R w (fst (run m w)) ->
  (forall a w1, run m w = (w1, Ok a) -> R w w1 -> R w1 (fst (run (f a) w1))) ->
  R w (fst (run (m ≫= f) w)).
Proof.
  intros Hm Hf. rewrite run_bind.
  destruct (run m w) as [w1 [a|e]]; cbn in *; [|done].
  etransitivity; [exact Hm | by apply Hf].
Qed.

Lemma process_job_others_kept j p tts w :
  others_kept j (length (objects w)) w (fst (run (pipeline.process_job E j p tts) w)).
Proof.
  set (n := length (objects w)).
  assert (Hbody : others_kept j n w
                    (fst (run (pipeline.process_job_try E j p tts) w))).
  { unfold pipeline.process_job_try.
    apply kept_bind; [typeclasses eauto | apply update_stage_others_kept|].
    intros [] w1 _ H1.
    apply kept_bind; [typeclasses eauto | for_every_run; keeps others_tac|].
    intros [lang ts] w2 _ H2.
    apply kept_bind; [typeclasses eauto | revert w2 H2; others_tac|].
    intros ref w3 Hrun3 H3. injection Hrun3 as <- <-.
    assert (Hn : (n <= length (objects w2))%nat).
    { destruct H1 as [H1 _], H2 as [H2 _]. unfold n. lia. }
    generalize dependent (length (objects w2)). intros ref Hn.
    for_every_run. keeps others_tac. }
  unfold pipeline.process_job. rewrite run_bind, run_try_except.
  destruct (run (pipeline.process_job_try E j p tts) w) as [w1 [[]|e]];
    cbn [fst snd] in *.
  - unfold pipeline.get. rewrite run_lookup_job. by destruct (_jobs w1 !! j).
  - pose proof (add_error_others_kept E j n (str_exn e) w1) as Herr.
    destruct (run (pipeline.add_error E j (str_exn e)) w1) as [w2 [[]|e']];
      cbn [fst snd] in *.
    + unfold pipeline.get. rewrite run_lookup_job.
      destruct (_jobs w2 !! j); cbn; by etransitivity.
    + by etransitivity.
Qed.
End OthersRun.

(** X3. A run of the pipeline on a job leaves the other jobs alone: their
    status records, their summaries and summary audio and their
    directories are after the run, however it ends, what they were
    before, and a transcript stored for one of them is still stored,
    unchanged. *)
Theorem run_leaves_other_jobs_alone E j p tts w j' :
  j' ≠ j ->
  let w' := fst (run (pipeline.process_job E j p tts) w) in
  _jobs w' !! j' = _jobs w !! j' /\
  (forall t, stored_transcript j' w = Some t -> stored_transcript j' w' = Some t) /\
  _summaries w' !! j' = _summaries w !! j' /\
  _summary_audio w' !! j' = _summary_audio w !! j' /\
  results_dir w' !! j' = results_dir w !! j'.
Proof.
  intros Hne w'.
  destruct (process_job_others_kept E j p tts w) as (_ & Hobj & Hothers).
  destruct (Hothers j' Hne) as (Hj & Ht & Hs & Ha & Hd). fold w' in Hj, Ht, Hs, Ha, Hd.
  split; [done|]. split; [|done].
  intros t. unfold stored_transcript. fold w' in Hobj. rewrite Ht.
  destruct (_transcripts w !! j') as [ref|]; [|done]. cbn.
  intros Hr. apply Hobj; [|done]. by apply lookup_lt_Some in Hr.
Qed.

Lemma run_leaves_other_jobs_alone_witness :
  let w' := fst (run (pipeline.process_job env_dev "job1" source_mp3 true)
                     (two_jobs env_dev)) in
  stage <$> _jobs w' !! "job1" = Some COMPLETED /\
  _jobs w' !! "job2" = _jobs (two_jobs env_dev) !! "job2" /\
  stored_transcript "job2" w' =
    Some (mkTranscriptResult (Some "fr") None [mkSpeakerTurn "Speaker 1" 0 1 "salut"]) /\
  _summary_audio w' !! "job2" = Some "/media/job2/summary.mp3".
Proof.
  destruct (run_leaves_other_jobs_alone env_dev "job1" source_mp3 true
              (two_jobs env_dev) "job2")
    as (Hj & Ht & _ & Ha & _).
  - discriminate.
  - cbv zeta. split; [reflexivity|]. split; [exact Hj|]. split.
    + apply Ht. reflexivity.
    + rewrite Ha. reflexivity.
Defined.

(* ------------------------------------------------------------------ *)

(** X4. A text saved is read back: when the directory can be made and the
    file written, [save_text] returns the path of the file, the file holds
    the content saved, whatever it held before, and the other files of
    the job, the files of the other jobs and the registry are untouched. *)
Theorem save_text_is_read_back E j n c w :
  mkdir_fault E j = None ->
  write_fault E j n = None ->
  exists w',
    run (storage.save_text E j n c) w = (w', Ok (mkPath j n)) /\
    file_of j n w' = Some c /\
    (forall n', n' ≠ n -> file_of j n' w' = file_of j n' w) /\
    (forall j' n', j' ≠ j -> file_of j' n' w' = file_of j' n' w) /\
    only_disk w w'.
Proof.
  intros Hm Hw. exists (written j n c w).
  split; [by apply run_save_text|].
  split; [apply file_of_written|].
  split; [intros n' Hne; by apply file_of_written_ne|].
  split; [intros j' n' Hne; by apply file_of_written_other|].
  by destruct w.
Qed.

Lemma save_text_is_read_back_witness :
  exists w',
    run (storage.save_text env_dev "job1" "source.mp3" (Binary [1%Z]))
        (uploaded env_dev) = (w', Ok (mkPath "job1" "source.mp3")) /\
    file_of "job1" "source.mp3" (uploaded env_dev) = Some (Binary [73; 68; 51]%Z) /\
    file_of "job1" "source.mp3" w' = Some (Binary [1%Z]).
Proof.
  destruct (save_text_is_read_back env_dev "job1" "source.mp3" (Binary [1%Z])
              (uploaded env_dev) eq_refl eq_refl)
    as (w' & Hrun & Hfile & _).
  exists w'. split; [exact Hrun|]. split; [reflexivity | exact Hfile].
Defined.

Section BrokenSave.
Variable E : Env.

(** What a save that failed has left on the disk. *)
Lemma broken_save_files j n c w w' :
  broken_save j n c w w' ->
  (forall j' n', j' ≠ j \/ n' ≠ n -> file_of j' n' w' = file_of j' n' w) /\
  (file_of j n w' = file_of j n w \/
   exists k, file_of j n w' = Some (Truncated k c)) /\
  only_disk w w'.
Proof.
  intros [->|[->|[k ->]]].
  - split; [done|]. split; [by left | reflexivity].
  - split; [intros j' n' _; apply file_of_made_dir|].
    split; [left; apply file_of_made_dir | by destruct w].
  - split.
    + intros j' n' Hne. destruct (decide (j' = j)) as [->|Hj].
      * apply file_of_written_ne. intros ->. by destruct Hne.
      * by apply file_of_written_other.
    + split; [right; exists k; apply file_of_written | by destruct w].
Qed.
End BrokenSave.

(** X5. A save that fails raises an [OSError] and spares every other
    file: the files of the other jobs and the other files of the job hold
    what they held. The file that was being saved is as it was, when the
    directory could not be made or the file not opened, or else is left
    truncated, whatever it held before. Nothing but the results directory
    changes. *)
Theorem failed_save_spares_the_other_files E j n c w w' e :
  run (storage.save_text E j n c) w = (w', Raise e) ->
  (exists msg, e = OSError msg) /\
  (forall j' n', j' ≠ j \/ n' ≠ n -> file_of j' n' w' = file_of j' n' w) /\
  (file_of j n w' = file_of j n w \/
   exists k, file_of j n w' = Some (Truncated k c)) /\
  only_disk w w'.
Proof.
  intros Hrun. destruct (run_save_text_raises E j n c w w' e Hrun) as [He Hbroken].
  split; [exact He|]. by apply broken_save_files.
Qed.

Lemma failed_save_spares_the_other_files_witness :
  exists w',
    run (storage.save_text env_disk_full "job1" "source.mp3" (Binary [1%Z]))
        (two_jobs env_dev)
      = (w', Raise (OSError "No space left on device")) /\
    file_of "job1" "source.mp3" (two_jobs env_dev) = Some (Binary [73; 68; 51]%Z) /\
    file_of "job1" "source.mp3" w' = Some (Truncated 0 (Binary [1%Z])) /\
    forall j' n', j' ≠ "job1" \/ n' ≠ "source.mp3" ->
      file_of j' n' w' = file_of j' n' (two_jobs env_dev).
Proof.
  eexists. split; [reflexivity|]. split; [reflexivity|]. split; [reflexivity|].
  exact (proj1 (proj2 (failed_save_spares_the_other_files env_disk_full "job1"
                         "source.mp3" (Binary [1%Z]) (two_jobs env_dev) _ _ eq_refl))).
Defined.

(* ------------------------------------------------------------------ *)

Lemma from_last_dot_starts_with_dot s r :
  from_last_dot s = Some r -> exists r', r = String "."%char r'.
Proof.
  revert r. induction s as [|c s IH]; intros r; cbn; [done|].
  destruct (from_last_dot s) as [r0|].
  - intros [= <-]. by apply IH.
  - destruct (Ascii.eqb c ".") eqn:Hc; [|done].
    apply Ascii.eqb_eq in Hc as ->. intros [= <-]. eauto.
Qed.

(** The suffix of a file name is empty or starts with a dot. *)
Lemma suffix_starts_with_dot s :
  suffix s = "" \/ exists r, suffix s = String "."%char r.
Proof.
  unfold suffix. destruct s as [|c rest]; [by left|].
  destruct (from_last_dot rest) as [r|] eqn:Hr; [|by left].
  destruct (1 <? String.length r)%nat; [|by left].
  right. by eapply from_last_dot_starts_with_dot.
Qed.

Lemma from_last_dot_none s : mentions "." s = false -> from_last_dot s = None.
Proof.
  induction s as [|c s IH]; [done|]. cbn. intros Hs.
  apply orb_false_elim in Hs as [Hc Hs]. by rewrite (IH Hs), Hc.
Qed.

Lemma from_last_dot_ext pre ext :
  mentions "." ext = false ->
  from_last_dot (pre +:+ "." +:+ ext) = Some ("." +:+ ext).
Proof.
  intros Hext. induction pre as [|c pre IH].
  - change ("" +:+ "." +:+ ext) with (String "."%char ext).
    cbn [from_last_dot]. by rewrite (from_last_dot_none ext Hext).
  - change (String c pre +:+ "." +:+ ext) with (String c (pre +:+ "." +:+ ext)).
    cbn [from_last_dot]. by rewrite IH.
Qed.

(** The suffix of [base.ext] is [.ext]. *)
Lemma suffix_ext base ext :
  base ≠ "" -> ext ≠ "" -> mentions "." ext = false ->
  suffix (base +:+ "." +:+ ext) = "." +:+ ext.
Proof.
  intros Hbase Hne Hext. destruct base as [|c base]; [done|].
  change (String c base +:+ "." +:+ ext) with (String c (base +:+ "." +:+ ext)).
  unfold suffix. rewrite (from_last_dot_ext base ext Hext).
  by destruct ext.
Qed.

(** A name with no dot has no suffix. *)
Lemma suffix_none s : mentions "." s = false -> suffix s = "".
Proof.
  intros Hs. destruct s as [|c s]; [done|]. cbn in Hs.
  apply orb_false_elim in Hs as [_ Hs]. unfold suffix.
  by rewrite (from_last_dot_none s Hs).
Qed.

Lemma mentions_app c a b : mentions c (a +:+ b) = mentions c a || mentions c b.
Proof.
  induction a as [|c' a IH]; [done|].
  change (String c' a +:+ b) with (String c' (a +:+ b)). cbn [mentions].
  by rewrite IH, orb_assoc.
Qed.

Lemma split_on_single sep s : mentions sep s = false -> split_on sep s = [s].
Proof.
  induction s as [|c s IH]; [done|]. intros Hs. cbn in Hs.
  apply orb_false_elim in Hs as [Hc Hs]. cbn [split_on].
  by rewrite Hc, (IH Hs).
Qed.

(** A piece of a split string holds only characters of the string. *)
Lemma split_on_pieces sep c s piece :
  piece ∈ split_on sep s -> mentions c s = false -> mentions c piece = false.
Proof.
  revert piece. induction s as [|c' s IH]; intros piece Hp Hs; cbn [split_on] in Hp.
  - by apply list_elem_of_singleton in Hp as ->.
  - cbn in Hs. apply orb_false_elim in Hs as [Hc Hs].
    destruct (Ascii.eqb c' sep).
    + apply elem_of_cons in Hp as [->|Hp]; [done | by apply IH].
    + destruct (split_on sep s) as [|p ps].
      * apply list_elem_of_singleton in Hp as ->. cbn. by rewrite Hc.
      * apply elem_of_cons in Hp as [->|Hp].
        -- cbn [mentions]. rewrite Hc. apply IH; [left | done].
        -- apply IH; [by right | done].
Qed.

(** The name of a path that is a single component. *)
Lemma path_name_plain s :
  mentions "/" s = false -> s ≠ "" -> s ≠ "." -> path_name s = s.
Proof.
  intros Hs Hne Hdot. unfold path_name. rewrite (split_on_single _ _ Hs).
  by rewrite filter_cons_True, filter_nil.
Qed.

Lemma path_name_mentions c s :
  mentions c s = false -> mentions c (path_name s) = false.
Proof.
  intros Hs. unfold path_name.
  destruct (last _) as [piece|] eqn:Hlast; [|done]. cbn.
  apply last_Some in Hlast as [pieces Hlast].
  apply split_on_pieces with "/"%char s; [|done].
  assert (Hin : piece ∈ filter (fun piece : string => piece ≠ "" /\ piece ≠ ".")
                          (split_on "/" s)).
  { rewrite Hlast. apply elem_of_app. right. by left. }
  by apply list_elem_of_filter in Hin as [_ Hin].
Qed.

Section Upload.
Variable E : Env.

(** The suffix [save_upload] gives to the audio of an upload starts with
    a dot, so that the pattern [source.*] matches the name. *)
Lemma upload_suffix_dot file : exists r, storage.upload_suffix file = "." +:+ r.
Proof.
  unfold storage.upload_suffix.
  destruct (suffix_starts_with_dot (path_name (or_str (filename file) "audio")))
    as [->|[r ->]].
  - by exists "mp3".
  - by exists r.
Qed.

(** The suffix of the upload of a file called [base.ext]. *)
Lemma upload_suffix_ext file base ext :
  filename file = Some (base +:+ "." +:+ ext) ->
  base ≠ "" -> ext ≠ "" ->
  mentions "/" base = false -> mentions "/" ext = false ->
  mentions "." ext = false ->
  storage.upload_suffix file = "." +:+ ext.
Proof.
  intros Hfile Hbase Hext Hb He Hdot. unfold storage.upload_suffix.
  rewrite Hfile.
  assert (Hname : or_str (Some (base +:+ "." +:+ ext)) "audio" = base +:+ "." +:+ ext).
  { destruct base; [done|]. reflexivity. }
  rewrite Hname, path_name_plain.
  - rewrite (suffix_ext base ext Hbase Hext Hdot). reflexivity.
  - by rewrite !mentions_app, Hb, He.
  - by destruct base.
  - destruct base as [|c [|c' base]]; [done| |done]. by destruct ext.
Qed.

(** The suffix of the upload of a file with no name, or with no dot in
    its name. *)
Lemma upload_suffix_default file :
  (forall file_name, filename file = Some file_name -> mentions "." file_name = false) ->
  storage.upload_suffix file = ".mp3".
Proof.
  intros Hfile. unfold storage.upload_suffix.
  rewrite suffix_none; [done|]. apply path_name_mentions.
  destruct (filename file) as [file_name|]; [|done]. cbn.
  destruct (String.eqb file_name ""); [done|]. by apply Hfile.
Qed.

Lemma run_save_upload j file w :
  mkdir_fault E j = None ->
  (forall n, write_fault E j n = None) ->
  let file_name := "source" +:+ storage.upload_suffix file in
  run (storage.save_upload E j file) w =
  (written j file_name (Binary (upload_data file)) w,
   Ok (mkPath j file_name, file_name)).
Proof.
  intros Hm Hw file_name. unfold storage.save_upload, storage.get_job_dir.
  rewrite run_bind, Hm, run_bind. cbn. unfold storage.write_file.
  rewrite run_bind, Hw. reflexivity.
Qed.
End Upload.

(** X6. An upload makes the job ready to be processed. When a file is
    uploaded under an identifier that has no directory yet, and the disk
    takes the write, the job is registered in stage [UPLOADED] with no
    error and the single asset [source_audio], and the response shows
    that record. The bytes uploaded are stored as [source] followed by the
    suffix of the name of the file: [source.ext] for a file called
    [base.ext], and [source.mp3] for a file with no name or with no dot in
    its name. [start_processing] on that job then succeeds, changes
    nothing, and queues one run on that file. *)
Theorem upload_makes_the_job_processable E id file url tts w :
  results_dir w !! id = None ->
  mkdir_fault E id = None ->
  (forall n, write_fault E id n = None) ->
  exists w1 st,
    let audio := mkPath id ("source" +:+ storage.upload_suffix file) in
    run (main.upload_podcast E id (Some file) url) w =
      (w1, Ok (mkUploadResponse id st, [])) /\
    _jobs w1 !! id = Some st /\
    stage st = UPLOADED /\
    errors st = [] /\
    assets st = {["source_audio" := storage.media_url id (name audio)]} /\
    file_of id (name audio) w1 = Some (Binary (upload_data file)) /\
    (forall base ext,
       filename file = Some (base +:+ "." +:+ ext) ->
       base ≠ "" -> ext ≠ "" ->
       mentions "/" base = false -> mentions "/" ext = false ->
       mentions "." ext = false ->
       name audio = "source." +:+ ext) /\
    ((forall file_name,
        filename file = Some file_name -> mentions "." file_name = false) ->
     name audio = "source.mp3") /\
    run (main.start_processing E (mkProcessRequest id tts)) w1 =
      (w1, Ok (mkProcessResponse id st, [LaunchBackground id audio tts])).
Proof.
  intros Hd Hm Hw.
  pose proof (upload_suffix_ext file) as Hext.
  pose proof (upload_suffix_default file) as Hdefault.
  destruct (upload_suffix_dot file) as [r Hname].
  set (sfx := storage.upload_suffix file) in *.
  assert (Hrun :
    run (main.upload_podcast E id (Some file) url) w
    = (set_jobs
         <[id := with_asset "source_audio"
                   (storage.media_url id ("source" +:+ sfx))
                   (mkProcessingStatus id UPLOADED None (clock E (ticks w))
                      (clock E (ticks w)) [] ∅)]>
         (written id ("source" +:+ sfx) (Binary (upload_data file))
            (set_jobs
               <[id := mkProcessingStatus id UPLOADED None (clock E (ticks w))
                         (clock E (ticks w)) [] ∅]>
               (set_ticks S w))),
       Ok (mkUploadResponse id
             (with_asset "source_audio"
                (storage.media_url id ("source" +:+ sfx))
                (mkProcessingStatus id UPLOADED None (clock E (ticks w))
                   (clock E (ticks w)) [] ∅)), []))).
  { unfold main.upload_podcast.
    destruct (truthy url);
      rewrite run_bind, run_create_status; cbn zeta iota beta;
      rewrite run_bind, (run_save_upload E id file _ Hm Hw); cbn zeta iota beta;
      fold sfx; rewrite run_bind; unfold pipeline.register_audio_asset;
      (erewrite run_set_asset by lookup_now); cbn iota beta;
      rewrite run_bind, run_lookup_job; cbn; by rewrite lookup_insert_eq. }
  eexists _, _. cbn zeta. split; [exact Hrun|].
  split; [cbn; apply lookup_insert_eq|].
  split; [reflexivity|]. split; [reflexivity|].
  split; [cbn; by rewrite insert_empty|].
  split.
  { unfold file_of. cbn. rewrite lookup_insert_eq. cbn.
    apply read_entry_write_entry. }
  split.
  { intros base ext Hfile Hbase Hne Hb He Hdot. cbn [name].
    by rewrite (Hext base ext Hfile Hbase Hne Hb He Hdot). }
  split.
  { intros Hfile. cbn [name]. by rewrite (Hdefault Hfile). }
  rewrite (run_start_processing E (mkProcessRequest id tts) _ Hm). cbn zeta.
  cbn [req_job_id enable_tts].
  unfold storage.source_files. cbn [results_dir set_jobs written set_results_dir
                                      made_dir set_ticks].
  rewrite lookup_insert_eq, Hd, lookup_insert_eq.
  cbn [default from_option Datatypes.id storage.write_entry].
  rewrite filter_cons_True by (rewrite Hname; cbn; by destruct r).
  rewrite filter_nil. cbn [map fst].
  cbn [_jobs set_jobs]. rewrite lookup_insert_eq.
  f_equal. unfold made_dir, set_results_dir. cbn.
  rewrite lookup_insert_eq. reflexivity.
Qed.

Lemma upload_makes_the_job_processable_witness :
  let talk := mkUploadFile (Some "talk.wav") [82; 73; 70; 70]%Z in
  exists w1 st,
    run (main.upload_podcast env_dev "job1" (Some talk) None) empty_world =
      (w1, Ok (mkUploadResponse "job1" st, [])) /\
    assets st = {["source_audio" := "/media/job1/source.wav"]} /\
    file_of "job1" "source.wav" w1 = Some (Binary [82; 73; 70; 70]%Z) /\
    run (main.start_processing env_dev (mkProcessRequest "job1" true)) w1 =
      (w1, Ok (mkProcessResponse "job1" st,
               [LaunchBackground "job1" (mkPath "job1" "source.wav") true])).
Proof.
  intros talk.
  destruct (upload_makes_the_job_processable env_dev "job1" talk None true
              empty_world eq_refl eq_refl (fun n => eq_refl))
    as (w1 & st & Hrun & _ & _ & _ & Hassets & Hfile & Hext & _ & Hstart).
  cbn zeta in *.
  specialize (Hext "talk" "wav" eq_refl ltac:(done) ltac:(done)
                eq_refl eq_refl eq_refl).
  cbn [name] in *. rewrite Hext in *.
  exists w1, st. by repeat split.
Defined.

(* ------------------------------------------------------------------ *)

Section Download.
Variable E : Env.

(** X7. The download of a podcast never raises for a registered job, and
    ends in one of two ways. Either the bytes that the URL answered are
    stored as [source.mp3] and the [source_audio] asset is registered, the
    stage and the errors being untouched: this is what happens whenever
    the URL answers and the disk takes the write. Or the job is left
    [FAILED] with a message that starts with [Download failed: ] appended
    to its errors and its assets untouched: the message quotes the
    exception of the request when the URL does not answer, and says that
    the URL is missing when there is none, no file being touched in these
    two cases. *)
Theorem download_is_recorded j url w st :
  _jobs w !! j = Some st ->
  exists w' st',
    run (main._download_podcast_audio E j url) w = (w', Ok tt) /\
    _jobs w' !! j = Some st' /\
    ((exists u audio_bytes,
        url = Some u /\ http_get E u = Ok audio_bytes /\
        stage st' = stage st /\ errors st' = errors st /\
        assets st' =
          <["source_audio" := storage.media_url j "source.mp3"]> (assets st) /\
        file_of j "source.mp3" w' = Some (Binary audio_bytes)) \/
     (stage st' = FAILED /\ assets st' = assets st /\
      exists msg, errors st' = errors st ++ ["Download failed: " +:+ msg])) /\
    (forall u audio_bytes,
       url = Some u -> u ≠ "" -> http_get E u = Ok audio_bytes ->
       mkdir_fault E j = None -> write_fault E j "source.mp3" = None ->
       stage st' = stage st /\
       file_of j "source.mp3" w' = Some (Binary audio_bytes)) /\
    (forall u e,
       url = Some u -> u ≠ "" -> http_get E u = Raise e ->
       errors st' = errors st ++ ["Download failed: " +:+ str_exn e] /\
       results_dir w' = results_dir w) /\
    (truthy url = false ->
     errors st' = errors st ++ ["Download failed: Podcast URL missing."] /\
     results_dir w' = results_dir w).
Proof.
  intros Hj. unfold main._download_podcast_audio. rewrite run_try_except.
  assert (Hfail : forall e w1, _jobs w1 !! j = Some st ->
    exists w' st',
      run (pipeline.add_error E j ("Download failed: " +:+ str_exn e)) w1
        = (w', Ok tt) /\
      _jobs w' !! j = Some st' /\
      stage st' = FAILED /\ assets st' = assets st /\
      errors st' = errors st ++ ["Download failed: " +:+ str_exn e] /\
      results_dir w' = results_dir w1).
  { intros e w1 Hj1. rewrite (run_add_error E j _ w1 st Hj1).
    eexists _, _. split; [reflexivity|]. split; [cbn; apply lookup_insert_eq|].
    by repeat split. }
  destruct url as [u|].
  2: { destruct (Hfail (ProviderError "Podcast URL missing.") w Hj)
         as (w' & st' & Hrun & Hj' & Hst & Hassets & Herr & Hd).
       exists w', st'. split; [exact Hrun|]. split; [exact Hj'|].
       split; [right; eauto|]. split; [by intros|]. split; [by intros|].
       by intros _. }
  destruct (String.eqb u "") eqn:Hu.
  { apply String.eqb_eq in Hu as ->.
    destruct (Hfail (ProviderError "Podcast URL missing.") w Hj)
         as (w' & st' & Hrun & Hj' & Hst & Hassets & Herr & Hd).
    exists w', st'. split; [exact Hrun|]. split; [exact Hj'|].
    split; [right; eauto|].
    split; [by intros ? ? [= <-]|]. split; [by intros ? ? [= <-]|].
    by intros _. }
  assert (Htruthy : truthy (Some u) = true) by (cbn; by rewrite Hu).
  apply String.eqb_neq in Hu.
  rewrite run_bind. unfold post. rewrite run_bind.
  unfold run at 1, suspend. cbn [runCo]. cbn iota beta.
  destruct (http_get E u) as [audio_bytes|e] eqn:Hget; cbn [run lift runCo].
  2: { destruct (Hfail e w Hj)
         as (w' & st' & Hrun & Hj' & Hst & Hassets & Herr & Hd).
       exists w', st'. split; [exact Hrun|]. split; [exact Hj'|].
       split; [right; eauto|].
       split; [intros ? ? [= <-]; congruence|].
       split.
       { intros ? ? [= <-] _ Hget'. rewrite Hget in Hget'. injection Hget' as <-.
         by split. }
       intros Hfalse. congruence. }
  rewrite run_bind. unfold pipeline.get_job_dir, storage.get_job_dir.
  destruct (mkdir_fault E j) as [msg|] eqn:Hmk.
  { destruct (Hfail (OSError msg) w Hj)
         as (w' & st' & Hrun & Hj' & Hst & Hassets & Herr & Hd).
    exists w', st'. split; [exact Hrun|]. split; [exact Hj'|].
    split; [right; eauto|].
    split; [intros ? ? [= <-]; congruence|].
    split; [intros ? ? [= <-]; congruence|].
    intros Hfalse. congruence. }
  rewrite run_bind. cbn. unfold storage.write_file.
  destruct (write_fault E j "source.mp3") as [[msg broken]|] eqn:Hwr.
  { destruct broken as [k|];
      [ destruct (Hfail (OSError msg)
                    (written j "source.mp3" (Truncated k (Binary audio_bytes)) w) Hj)
          as (w' & st' & Hrun & Hj' & Hst & Hassets & Herr & Hd)
      | destruct (Hfail (OSError msg) (made_dir j w) Hj)
          as (w' & st' & Hrun & Hj' & Hst & Hassets & Herr & Hd) ];
      (exists w', st'; split; [exact Hrun|]; split; [exact Hj'|];
       split; [right; eauto|];
       split; [intros ? ? [= <-]; congruence|];
       split; [intros ? ? [= <-]; congruence|];
       intros Hfalse; change (truthy (Some u) = false) in Hfalse; congruence). }
  rewrite run_bind, run_bind. cbn. unfold pipeline.register_audio_asset.
  erewrite run_set_asset by lookup_now.
  assert (Hfile : forall w0 : World,
            file_of j "source.mp3"
              (set_jobs <[j := with_asset "source_audio"
                                 (storage.media_url j "source.mp3") st]>
                 (written j "source.mp3" (Binary audio_bytes) w0))
            = Some (Binary audio_bytes)).
  { intros w0. apply file_of_written. }
  eexists _, _. split; [reflexivity|]. split; [cbn; apply lookup_insert_eq|].
  split.
  { left. exists u, audio_bytes. do 5 (split; [done|]). apply Hfile. }
  split.
  { intros ? ? [= <-] _ Hget' _ _. rewrite Hget in Hget'. injection Hget' as <-.
    split; [done | apply Hfile]. }
  split; [intros ? ? [= <-]; congruence|].
  intros Hfalse. change (truthy (Some u) = false) in Hfalse. congruence.
Qed.
End Download.

Lemma download_is_recorded_witness :
  (exists w' st',
     run (main._download_podcast_audio env_online "job2"
            (Some "http://example.org/e.mp3"))
         (awaiting_download env_dev) = (w', Ok tt) /\
     _jobs w' !! "job2" = Some st' /\
     stage st' = UPLOADED /\
     file_of "job2" "source.mp3" w' = Some (Binary [1; 2; 3]%Z)) /\
  (exists w' st',
     run (main._download_podcast_audio env_dev "job2"
            (Some "http://example.org/e.mp3"))
         (awaiting_download env_dev) = (w', Ok tt) /\
     _jobs w' !! "job2" = Some st' /\
     errors st' = ["Download failed: service unreachable"] /\
     results_dir w' = results_dir (awaiting_download env_dev)).
Proof.
  split.
  - destruct (download_is_recorded env_online "job2" (Some "http://example.org/e.mp3")
                (awaiting_download env_dev)
                (mkProcessingStatus "job2" UPLOADED None 0 0 [] ∅) eq_refl)
      as (w' & st' & Hrun & Hj & _ & Hok & _).
    destruct (Hok "http://example.org/e.mp3" [1; 2; 3]%Z eq_refl ltac:(done)
                eq_refl eq_refl eq_refl) as [Hst Hfile].
    exists w', st'. by repeat split.
  - destruct (download_is_recorded env_dev "job2" (Some "http://example.org/e.mp3")
                (awaiting_download env_dev)
                (mkProcessingStatus "job2" UPLOADED None 0 0 [] ∅) eq_refl)
      as (w' & st' & Hrun & Hj & _ & _ & Hko & _).
    destruct (Hko "http://example.org/e.mp3" (ProviderError "service unreachable")
                eq_refl ltac:(done) eq_refl) as [Herr Hd].
    exists w', st'. by repeat split.
Defined.

(* ------------------------------------------------------------------ *)

Section Adapters.
Variable E : Env.

Lemma run_post {A B} (answer : Result A) (f : A -> M B) w :
  run (post answer ≫= f) w =
  match answer with
  | Ok a => run (f a) w
  | Raise e => (w, Raise e)
  end.
Proof.
  rewrite run_bind. unfold post. rewrite run_bind.
  unfold run at 2, suspend. cbn [runCo]. cbn iota beta.
  by destruct answer.
Qed.

Lemma run_lift {A} (r : Result A) w : run (lift r) w = (w, r).
Proof. reflexivity. Qed.

Lemma run_sleep_then {A} (m : M A) w : run (sleep ;; m) w = run m w.
Proof. by rewrite run_bind. Qed.

(** X8. When Whisper answers, [transcribe_audio] returns its segments as
    turns of the speaker [unknown], in order, with the text stripped and
    the language defaulting to [en], whatever provider is configured; the
    texts are taken in ASCII, where the white space of [strip] is all the
    white space that [str.strip] removes. When Whisper fails, its
    exception never comes out as it is: the result is the one-turn English
    placeholder of the AssemblyAI or Google fallback, or a
    [TranscriptionError], which with the provider [openai] quotes the
    failure of Whisper (the key of a [KeyError] being taken in ASCII,
    where [repr] is what Python prints). In both cases the state is
    untouched. *)
Theorem transcribe_audio_outcomes p w :
  (forall lang segs,
     faster_whisper E p = Ok (lang, segs) ->
     Forall (fun seg => isascii (seg_text seg) = true) segs ->
     run (transcription.transcribe_audio E p) w =
     (w, Ok (default "en" lang,
             map (fun seg => mkSpeakerTurn "unknown" (seg_start seg) (seg_end seg)
                                           (strip (seg_text seg))) segs))) /\
  (forall e,
     faster_whisper E p = Raise e ->
     exists r,
       run (transcription.transcribe_audio E p) w = (w, r) /\
       match r with
       | Ok (lang, turns) =>
           lang = "en" /\ length turns = 1%nat /\
           (transcription_provider (settings E) = "assemblyai" \/
            transcription_provider (settings E) = "google")
       | Raise e' => exists msg, e' = TranscriptionError msg
       end /\
       (transcription_provider (settings E) = "openai" ->
        (forall key, e = KeyError key -> isascii key = true) ->
        r = Raise (TranscriptionError
                     ("Whisper transcription failed: " +:+ str_exn e)))).
Proof.
  split.
  - intros lang segs Hwh _.
    unfold transcription.transcribe_audio, transcription._transcribe_with_whisper.
    by rewrite run_try_except, run_bind, Hwh, run_lift.
  - intros e Hwh.
    unfold transcription.transcribe_audio, transcription._transcribe_with_whisper.
    rewrite run_try_except, run_bind, Hwh, run_lift. cbn iota beta.
    destruct (String.eqb (transcription_provider (settings E)) "openai") eqn:H1.
    { eexists. split; [reflexivity|]. split; [eauto|]. done. }
    apply String.eqb_neq in H1.
    destruct (String.eqb (transcription_provider (settings E)) "assemblyai") eqn:H2.
    { apply String.eqb_eq in H2. unfold transcription._transcribe_with_assembly_ai.
      destruct (truthy (assembly_ai_key (settings E))).
      - rewrite run_sleep_then. eexists. split; [reflexivity|].
        split; [|done]. cbn. auto.
      - eexists. split; [reflexivity|]. split; [eauto | done]. }
    destruct (String.eqb (transcription_provider (settings E)) "google") eqn:H3.
    { apply String.eqb_eq in H3. unfold transcription._transcribe_with_google.
      destruct (truthy (google_credentials_json (settings E))).
      - rewrite run_sleep_then. eexists. split; [reflexivity|].
        split; [|done]. cbn. auto.
      - eexists. split; [reflexivity|]. split; [eauto | done]. }
    eexists. split; [reflexivity|]. split; [eauto | done].
Qed.

Lemma or_str_not_empty o d : d ≠ "" -> or_str o d ≠ "".
Proof.
  intros Hd. unfold or_str. destruct o as [s|]; [|done].
  destruct (String.eqb s "") eqn:Hs; [done|]. by apply String.eqb_neq.
Qed.

(** X9. A summary that [summarize] returns was made from a transcript
    that is not empty, has an overview that is not empty (the text
    [Summary unavailable.] stands in for a missing or empty one), and the
    state is the one before the call. *)
Theorem summarize_returns_an_overview ts w w' s :
  run (llm.summarize E ts) w = (w', Ok s) ->
  ts ≠ [] /\ overview s ≠ "" /\ w' = w.
Proof.
  intros Hrun. pose proof (summarize_pure E ts w) as Hpure.
  rewrite Hrun in Hpure. cbn in Hpure. subst w'.
  unfold llm.summarize in Hrun. destruct ts as [|t ts]; [done|].
  split; [done|]. split; [|done].
  cbv zeta in Hrun. rewrite run_bind in Hrun.
  match type of Hrun with
  | context [run ?m w] => destruct (run m w) as [w1 [response|e]]
  end; [|done].
  injection Hrun as _ <-. cbn. by apply or_str_not_empty.
Qed.

(** X10. The diariser answers an empty list of turns only when Hoard is
    not installed and the list it was given is empty; the state is then
    the one before the call. *)
Theorem diarize_is_empty_only_on_empty ts p w w' :
  run (diarization.diarize E ts p) w = (w', Ok []) ->
  HoardDiarizer E = None /\ ts = [] /\ w' = w.
Proof.
  intros Hrun. destruct (HoardDiarizer E) as [hoard_run|] eqn:Hh.
  - rewrite (run_diarize_hoard E hoard_run ts p w Hh) in Hrun.
    by destruct (hoard_run _ _) as [[|seg segs]|e].
  - rewrite (run_diarize_fallback E ts p w Hh) in Hrun.
    injection Hrun as <- Hts. split; [done|]. split; [|done].
    by destruct ts.
Qed.
End Adapters.

Lemma transcribe_audio_outcomes_witness :
  run (transcription.transcribe_audio env_dev source_mp3) empty_world =
    (empty_world,
     Ok ("en", [mkSpeakerTurn "unknown" 0 1 "hi"; mkSpeakerTurn "unknown" 1 2 "there";
                mkSpeakerTurn "unknown" 2 3 "bye"])) /\
  run (transcription.transcribe_audio env_whisper_down source_mp3) empty_world =
    (empty_world,
     Raise (TranscriptionError
              ("Whisper transcription failed: " +:+
               str_exn (ProviderError "model not found")))).
Proof.
  split.
  - apply (proj1 (transcribe_audio_outcomes env_dev source_mp3 empty_world)
             (Some "en") three_segments eq_refl).
    by repeat constructor.
  - destruct (proj2 (transcribe_audio_outcomes env_whisper_down source_mp3 empty_world)
                (ProviderError "model not found") eq_refl)
      as (r & Hrun & _ & Hopenai).
    rewrite (Hopenai eq_refl ltac:(by intros)) in Hrun. exact Hrun.
Defined.

Lemma summarize_returns_an_overview_witness :
  let s := mkSummaryResult "Custom provider not configured."
             [mkSummarySection "Speaker 1" ["Transcript content truncated."]]
             ["Set LLM_PROVIDER to openai, gemini, or deepseek."] in
  run (llm.summarize env_dev [mkSpeakerTurn "Speaker 1" 0 1 "hi"]) empty_world
    = (empty_world, Ok s) /\
  [mkSpeakerTurn "Speaker 1" 0 1 "hi"] ≠ [] /\
  overview s ≠ "" /\
  empty_world = empty_world.
Proof.
  intros s.
  assert (H : run (llm.summarize env_dev [mkSpeakerTurn "Speaker 1" 0 1 "hi"])
                  empty_world = (empty_world, Ok s)) by reflexivity.
  split; [exact H|].
  exact (summarize_returns_an_overview env_dev [mkSpeakerTurn "Speaker 1" 0 1 "hi"]
           empty_world empty_world s H).
Defined.

Lemma diarize_is_empty_only_on_empty_witness :
  run (diarization.diarize env_silence [] source_mp3) empty_world
    = (empty_world, Ok []) /\
  HoardDiarizer env_silence = None /\ @nil SpeakerTurn = [] /\
  empty_world = empty_world.
Proof.
  assert (H : run (diarization.diarize env_silence [] source_mp3) empty_world
              = (empty_world, Ok [])) by reflexivity.
  split; [exact H|].
  exact (diarize_is_empty_only_on_empty env_silence [] source_mp3
           empty_world empty_world H).
Defined.

(* ------------------------------------------------------------------ *)

Section Speech.
Variable E : Env.

(** What a call of the speech synthesiser can do. *)
Lemma synthesize_tts_cases request w w' r :
  run (tts.synthesize_tts E request) w = (w', r) ->
  match r with
  | Ok path =>
      path = mkPath (tts_job_id request) "summary.mp3" /\
      exists audio,
        provided E request audio /\
        w' = written (tts_job_id request) "summary.mp3" (Binary audio) w
  | Raise e =>
      exists audio, broken_save (tts_job_id request) "summary.mp3" (Binary audio) w w'
  end.
Proof.
  match goal with
  | |- _ -> ?P =>
      assert (Hsave : forall audio,
                provided E request audio ->
                run (storage.save_binary E (tts_job_id request) "summary.mp3" audio) w
                  = (w', r) -> P);
      [|assert (Hraise : forall e, (w, @Raise Path e) = (w', r) -> P)]
  end.
  { intros audio Hprovided Hrun.
    change (run (storage.save_text E (tts_job_id request) "summary.mp3" (Binary audio)) w
            = (w', r)) in Hrun.
    destruct r as [path|e].
    - destruct (run_save_text_cases E (tts_job_id request) "summary.mp3"
                  (Binary audio) w) as [Hok|(w1 & msg & _ & Hko)].
      + rewrite Hok in Hrun. injection Hrun as <- <-. eauto.
      + rewrite Hko in Hrun. discriminate.
    - destruct (run_save_text_raises E _ _ _ _ _ _ Hrun) as [_ Hbroken]. eauto. }
  { intros e [= <- <-]. exists []. by left. }
  unfold tts.synthesize_tts, provided in *. cbn zeta in *.
  destruct (String.eqb _ "azure") eqn:H1.
  { apply String.eqb_eq in H1. unfold tts._synthesize_azure.
    destruct (negb _ || negb _); [apply Hraise|].
    rewrite run_post.
    destruct (azure_post E request) as [audio|e] eqn:Hpost; [|apply Hraise].
    apply Hsave. by left. }
  destruct (String.eqb _ "google") eqn:H2.
  { apply String.eqb_eq in H2. unfold tts._synthesize_google.
    rewrite run_sleep_then. apply Hsave. right. left. split; [by left | done]. }
  destruct (String.eqb _ "coqui") eqn:H3.
  { apply String.eqb_eq in H3. unfold tts._synthesize_coqui.
    rewrite run_sleep_then. apply Hsave. right. left. split; [by right | done]. }
  destruct (String.eqb _ "elevenlabs") eqn:H4; [|apply Hraise].
  apply String.eqb_eq in H4.
  unfold tts._synthesize_elevenlabs.
  destruct (negb _); [apply Hraise|].
  rewrite run_post.
  destruct (elevenlabs_post E request) as [[[code body] audio]|e] eqn:Hpost;
    [|apply Hraise].
  destruct (code =? 200)%nat eqn:Hcode; [|apply Hraise].
  apply Nat.eqb_eq in Hcode as ->. apply Hsave. right. right. eauto.
Qed.

(** X11. The speech synthesiser touches [summary.mp3] in the directory of
    the job of the request, and no other file. When it returns, it returns
    the path of that file, which holds the audio that the provider of the
    settings answered. When it raises, whatever the provider, that file is
    as it was or is left truncated by the write that failed. In both
    cases every other file holds what it held, and nothing but the results
    directory differs. *)
Theorem synthesize_tts_touches_summary_mp3_only request w w' r :
  run (tts.synthesize_tts E request) w = (w', r) ->
  (forall j n, j ≠ tts_job_id request \/ n ≠ "summary.mp3" ->
     file_of j n w' = file_of j n w) /\
  only_disk w w' /\
  match r with
  | Ok path =>
      path = mkPath (tts_job_id request) "summary.mp3" /\
      exists audio,
        provided E request audio /\
        file_of (tts_job_id request) "summary.mp3" w' = Some (Binary audio)
  | Raise e =>
      file_of (tts_job_id request) "summary.mp3" w' =
        file_of (tts_job_id request) "summary.mp3" w \/
      exists k audio,
        file_of (tts_job_id request) "summary.mp3" w' =
          Some (Truncated k (Binary audio))
  end.
Proof.
  intros Hrun. pose proof (synthesize_tts_cases request w w' r Hrun) as Hcases.
  destruct r as [path|e].
  - destruct Hcases as (-> & audio & Hprovided & ->).
    split.
    { intros j n Hne. destruct (decide (j = tts_job_id request)) as [->|Hj].
      - apply file_of_written_ne. intros <-. by destruct Hne.
      - by apply file_of_written_other. }
    split; [by destruct w|]. split; [done|].
    exists audio. split; [done | apply file_of_written].
  - destruct Hcases as [audio Hbroken].
    destruct (broken_save_files _ _ _ _ _ Hbroken) as (Hothers & Hfile & Hdisk).
    split; [done|]. split; [done|].
    destruct Hfile as [Hfile|[k Hfile]]; [by left | right; eauto].
Qed.
End Speech.

Lemma synthesize_tts_touches_summary_mp3_only_witness :
  let request := mkTTSRequest "job1" "An overview." None in
  (exists w',
     run (tts.synthesize_tts env_dev request) (uploaded env_dev)
       = (w', Ok (mkPath "job1" "summary.mp3")) /\
     file_of "job1" "summary.mp3" w' = Some (Binary []) /\
     file_of "job1" "source.mp3" w' = Some (Binary (upload_data episode))) /\
  (exists w',
     run (tts.synthesize_tts env_disk_full request) (uploaded env_dev)
       = (w', Raise (OSError "No space left on device")) /\
     file_of "job1" "summary.mp3" w' = Some (Truncated 0 (Binary [])) /\
     file_of "job1" "source.mp3" w' = Some (Binary (upload_data episode))).
Proof.
  intros request. split.
  - eexists. split; [reflexivity|].
    destruct (synthesize_tts_touches_summary_mp3_only env_dev request
                (uploaded env_dev) _ _ eq_refl)
      as (Hothers & _ & _ & audio & Hprovided & Hfile).
    split.
    + destruct Hprovided as [[H _]|[[_ ->]|[H _]]]; [|exact Hfile|];
        vm_compute in H; discriminate.
    + rewrite Hothers; [reflexivity | by right].
  - eexists. split; [reflexivity|].
    destruct (synthesize_tts_touches_summary_mp3_only env_disk_full request
                (uploaded env_dev) _ _ eq_refl)
      as (Hothers & _ & _).
    split; [reflexivity|].
    rewrite Hothers; [reflexivity | by right].
Defined.

(* ------------------------------------------------------------------ *)

Section SummaryAudio.
Variable E : Env.

(** X12. The [/tts] entry point never touches the status records nor the
    trace: a failure of the synthesiser comes out to the caller and is not
    recorded in the errors of the job. For an identifier that is not
    registered it answers 404 and changes nothing. For a registered job
    with a plain identifier: when it succeeds, [summary.mp3] holds the
    audio that the provider answered, and what is stored as the summary
    audio of the job, and answered, is the path of that file below the
    results directory of the settings, as [str] prints it; when it raises,
    the stored summary audio is untouched, and so is every file but
    [summary.mp3] of the job. *)
Theorem generate_summary_audio_outcomes request w w' r :
  run (main.generate_summary_audio E request) w = (w', r) ->
  _jobs w' = _jobs w /\ trace w' = trace w /\
  (_jobs w !! tts_job_id request = None ->
   r = Raise (HTTPException 404 "Job not found") /\ w' = w) /\
  (plain_name (tts_job_id request) = true ->
   match r with
   | Ok response =>
       let audio_path :=
         str_path (settings E) (mkPath (tts_job_id request) "summary.mp3") in
       registered (tts_job_id request) w /\
       response = mkTTSResponse (tts_job_id request) audio_path /\
       _summary_audio w' = <[tts_job_id request := audio_path]> (_summary_audio w) /\
       exists audio,
         provided E request audio /\
         file_of (tts_job_id request) "summary.mp3" w' = Some (Binary audio)
   | Raise e =>
       _summary_audio w' = _summary_audio w /\
       forall j n, j ≠ tts_job_id request \/ n ≠ "summary.mp3" ->
         file_of j n w' = file_of j n w
   end).
Proof.
  unfold main.generate_summary_audio, main.or_404, pipeline.ensure_job, pipeline.get.
  rewrite run_bind, run_try_except, run_lookup_job.
  destruct (_jobs w !! tts_job_id request) as [st|] eqn:Hj.
  - cbn iota beta. rewrite run_bind.
    destruct (run (tts.synthesize_tts E request) w) as [w1 [path|e]] eqn:Hsyn;
      pose proof (synthesize_tts_cases E request w w1 _ Hsyn) as Hcases.
    + destruct Hcases as (-> & audio & Hprovided & ->). rewrite run_bind.
      intros [= <- <-]. split; [done|]. split; [done|]. split; [done|].
      intros _. cbn zeta.
      split; [by exists st|]. split; [done|]. split; [done|].
      exists audio. split; [done | apply file_of_written].
    + destruct Hcases as [audio Hbroken].
      destruct (broken_save_files _ _ _ _ _ Hbroken) as (Hothers & _ & Hdisk).
      intros [= <- <-]. rewrite Hdisk.
      split; [done|]. split; [done|]. split; [done|].
      intros _. split; [done|].
      intros j n Hne. rewrite <- (Hothers j n Hne). by rewrite <- Hdisk.
  - intros [= <- <-]. split; [done|]. split; [done|]. split; [done|].
    intros _. by split.
Qed.
End SummaryAudio.

Lemma generate_summary_audio_outcomes_witness :
  let request := mkTTSRequest "job1" "An overview." None in
  exists w',
    run (main.generate_summary_audio env_dev request) (uploaded env_dev)
      = (w', Ok (mkTTSResponse "job1" "storage/results/job1/summary.mp3")) /\
    _jobs w' = _jobs (uploaded env_dev) /\
    _summary_audio w' !! "job1" = Some "storage/results/job1/summary.mp3".
Proof.
  intros request. eexists. split; [reflexivity|].
  destruct (generate_summary_audio_outcomes env_dev request (uploaded env_dev)
              _ _ eq_refl) as (Hjobs & _ & _ & Hr).
  split; [exact Hjobs|].
  destruct (Hr eq_refl) as (_ & _ & Haudio & _).
  rewrite Haudio. apply lookup_insert_eq.
Defined.

(* ------------------------------------------------------------------ *)

(** X13. [fetch_results] answers 404 exactly for the identifiers that are
    not registered; for a registered job it answers, without changing
    anything, the status record, the stored transcript and summary if any,
    the [source_audio] asset as the audio URL and the stored summary
    audio. *)
Theorem fetch_results_reads_the_registry j w :
  (forall st,
     _jobs w !! j = Some st ->
     run (main.fetch_results j) w =
     (w, Ok (mkResultsResponse j st (stored_transcript j w) (_summaries w !! j)
               (assets st !! "source_audio") (_summary_audio w !! j)))) /\
  (_jobs w !! j = None ->
   run (main.fetch_results j) w = (w, Raise (HTTPException 404 "Job not found"))) /\
  (forall w' e,
     run (main.fetch_results j) w = (w', Raise e) ->
     _jobs w !! j = None /\ e = HTTPException 404 "Job not found").
Proof.
  rewrite run_fetch_results. split; [|split].
  - by intros st ->.
  - by intros ->.
  - intros w' e. destruct (_jobs w !! j); [done|]. by intros [= <- <-].
Qed.

Lemma fetch_results_reads_the_registry_witness :
  (exists st,
     run (main.fetch_results "job1") (uploaded env_dev) =
     (uploaded env_dev,
      Ok (mkResultsResponse "job1" st None None
            (Some "/media/job1/source.mp3") None))) /\
  run (main.fetch_results "job9") (uploaded env_dev) =
    (uploaded env_dev, Raise (HTTPException 404 "Job not found")).
Proof.
  split.
  - eexists.
    exact (proj1 (fetch_results_reads_the_registry "job1" (uploaded env_dev))
             (mkProcessingStatus "job1" UPLOADED None 0 0 []
                {["source_audio" := "/media/job1/source.mp3"]})
             eq_refl).
  - exact (proj1 (proj2 (fetch_results_reads_the_registry "job9" (uploaded env_dev)))
             eq_refl).
Defined.

(* ------------------------------------------------------------------ *)

Section Media.
Variable E : Env.

Lemma run_serve_media j n w :
  mkdir_fault E j = None ->
  run (serve_media E j n) w =
  (made_dir j w,
   match file_of j n w with
   | Some _ =>
       Ok (mkFileResponse (mkPath j n)
             (if String.eqb (suffix n) ".mp3" then "audio/mpeg"
              else "application/octet-stream"))
   | None => Raise (HTTPException 404 "Media file not found.")
   end).
Proof.
  intros Hm. unfold serve_media, get_audio_file_path.
  rewrite run_bind, run_bind, (run_get_job_dir E j w Hm). cbn iota beta.
  change (run (mret (mkPath j n)) (made_dir j w)) with (made_dir j w, Ok (mkPath j n)).
  cbn iota beta. rewrite run_bind.
  change (run (gets ?f) ?w0) with (w0, Ok (f w0)). cbn iota beta.
  cbn [parent name]. rewrite file_of_made_dir.
  by destruct (file_of j n w).
Qed.

(** X14. What the pipeline saves is served. For a job identifier and
    file names that are plain names: after [save_text] has written a file
    of a job, [serve_media] for that job and file name answers that file
    and changes nothing, as [audio/mpeg] if the suffix of the name is
    [.mp3] and as [application/octet-stream] otherwise; for a file that
    the directory of the job does not hold it answers 404, having made the
    directory if there was none. *)
Theorem saved_files_are_served j n c w :
  plain_name j = true ->
  plain_name n = true ->
  mkdir_fault E j = None ->
  write_fault E j n = None ->
  let w1 := fst (run (storage.save_text E j n c) w) in
  file_of j n w1 = Some c /\
  run (serve_media E j n) w1 =
    (w1, Ok (mkFileResponse (mkPath j n)
               (if String.eqb (suffix n) ".mp3" then "audio/mpeg"
                else "application/octet-stream"))) /\
  (forall n', plain_name n' = true -> file_of j n' w = None ->
     run (serve_media E j n') w =
     (made_dir j w, Raise (HTTPException 404 "Media file not found."))).
Proof.
  intros _ _ Hm Hw w1. unfold w1. rewrite (run_save_text E j n c w Hm Hw). cbn [fst].
  split; [apply file_of_written|]. split.
  - rewrite (run_serve_media j n _ Hm), file_of_written.
    f_equal. apply made_dir_present. unfold written. cbn.
    rewrite lookup_insert_eq. eauto.
  - intros n' _ Hnone. by rewrite (run_serve_media j n' w Hm), Hnone.
Qed.
End Media.

Lemma saved_files_are_served_witness :
  let w1 := fst (run (storage.save_text env_dev "job1" "summary.mp3" (Binary []))
                     (uploaded env_dev)) in
  file_of "job1" "summary.mp3" w1 = Some (Binary []) /\
  run (serve_media env_dev "job1" "summary.mp3") w1 =
    (w1, Ok (mkFileResponse (mkPath "job1" "summary.mp3") "audio/mpeg")) /\
  run (serve_media env_dev "job1" "transcript.json") (uploaded env_dev) =
    (made_dir "job1" (uploaded env_dev),
     Raise (HTTPException 404 "Media file not found.")).
Proof.
  destruct (saved_files_are_served env_dev "job1" "summary.mp3" (Binary [])
              (uploaded env_dev) eq_refl eq_refl eq_refl eq_refl)
    as (Hfile & Hserved & Hmissing).
  cbv zeta. split; [exact Hfile|]. split; [exact Hserved|].
  apply Hmissing; reflexivity.
Defined.

(* ------------------------------------------------------------------ *)

(** X15. When transcription raises, the run persists nothing: the job is
    [FAILED], with the detail of the transcription stage still shown and
    the message appended to its errors, and its assets, the stored
    transcripts, summaries and summary audio, the transcript objects and
    the files are all what they were before the run; the adapters of the
    later stages are not called. *)
Theorem transcription_failure_persists_nothing E j p tts w st0 e :
  _jobs w !! j = Some st0 ->
  (forall w0, run (transcription.transcribe_audio E p) w0 = (w0, Raise e)) ->
  exists w' st,
    run (pipeline.process_job E j p tts) w = (w', Ok st) /\
    stage st = FAILED /\
    detail st = Some "Running transcription" /\
    errors st = errors st0 ++ [str_exn e] /\
    assets st = assets st0 /\
    _transcripts w' = _transcripts w /\
    objects w' = objects w /\
    _summaries w' = _summaries w /\
    _summary_audio w' = _summary_audio w /\
    results_dir w' = results_dir w /\
    trace w' = trace w ++
      [EvStage j TRANSCRIBING; EvCall j Transcribe (Some TRANSCRIBING);
       EvError j (str_exn e)].
Proof.
  intros Hj Htr.
  unfold pipeline.process_job, pipeline.process_job_try.
  rewrite run_bind, run_try_except.
  run_step. run_step. rewrite Htr. cbn iota beta.
  erewrite run_add_error by lookup_now.
  unfold pipeline.get. rewrite run_lookup_job. cbn.
  rewrite !lookup_insert_eq.
  eexists _, _. split; [reflexivity|]. do 9 (split; [reflexivity|]).
  cbn. by rewrite <- !app_assoc.
Qed.

Lemma transcription_failure_persists_nothing_witness :
  exists w' st,
    run (pipeline.process_job env_whisper_down "job1" source_mp3 true)
        (uploaded env_dev) = (w', Ok st) /\
    stage st = FAILED /\
    detail st = Some "Running transcription" /\
    errors st = ["Whisper transcription failed: model not found"] /\
    results_dir w' = results_dir (uploaded env_dev).
Proof.
  destruct (transcription_failure_persists_nothing env_whisper_down "job1" source_mp3
              true (uploaded env_dev)
              (mkProcessingStatus "job1" UPLOADED None 0 0 []
                 {["source_audio" := "/media/job1/source.mp3"]})
              (TranscriptionError "Whisper transcription failed: model not found"))
    as (w' & st & Hrun & Hst & Hd & Herr & _ & _ & _ & _ & _ & Hdisk & _).
  - vm_compute. reflexivity.
  - intros w0. reflexivity.
  - exists w', st. repeat split; assumption.
Defined.

(* ------------------------------------------------------------------ *)

#[global] Instance keeps_well_stamped_preorder E : PreOrder (keeps_well_stamped E).
Proof.
  split.
  - intros w. split; [lia | done].
  - intros w1 w2 w3 [Hn12 H12] [Hn23 H23]. split; [lia | auto].
Qed.

#[global] Instance identity_kept_preorder : PreOrder identity_kept.
Proof.
  split.
  - intros w j st Hj. by exists st.
  - intros w1 w2 w3 H12 H23 j st Hj.
    destruct (H12 j st Hj) as (st2 & Hj2 & Hid2 & Hc2).
    destruct (H23 j st2 Hj2) as (st3 & Hj3 & Hid3 & Hc3).
    exists st3. split; [done|]. split; congruence.
Qed.

Ltac well_stamped_tac :=
  let H := fresh in intros ?; split; [cbn; lia | intros H; exact H].

Ltac identity_tac :=
  let H := fresh in intros ? ? ? H; eexists; split; [exact H | by split].

Section Records.
Variable E : Env.

Lemma well_stamped_later w n :
  well_stamped E w -> (ticks w <= n)%nat ->
  forall j st, _jobs w !! j = Some st ->
    job_id st = j /\
    exists nc nu, (nc <= nu < n)%nat /\
      created_at st = clock E nc /\ updated_at st = clock E nu.
Proof.
  intros Hw Hn j st Hj. destruct (Hw j st Hj) as (Hid & nc & nu & Hlt & Hc & Hu).
  split; [done|]. exists nc, nu. split; [lia | done].
Qed.

(** A record written at [j] at the current time, with the identifier and
    the creation time of the record that was there. *)
Lemma keeps_well_stamped_refreshed w w' j st st_new :
  _jobs w !! j = Some st ->
  _jobs w' = <[j := st_new]> (_jobs w) ->
  ticks w' = S (ticks w) ->
  job_id st_new = job_id st ->
  created_at st_new = created_at st ->
  updated_at st_new = clock E (ticks w) ->
  keeps_well_stamped E w w'.
Proof.
  intros Hj Hjobs Hticks Hid Hc Hu. split; [lia|].
  intros Hw j' st' Hj'. rewrite Hjobs in Hj'. rewrite Hticks.
  destruct (decide (j = j')) as [<-|Hne].
  - rewrite lookup_insert_eq in Hj'. injection Hj' as <-.
    destruct (Hw j st Hj) as (Hid0 & nc & nu & Hlt & Hc0 & Hu0).
    split; [congruence|]. exists nc, (ticks w). split; [lia|]. split; congruence.
  - rewrite lookup_insert_ne in Hj' by done.
    apply (well_stamped_later w (S (ticks w)) Hw); [lia | done].
Qed.

Lemma create_status_keeps_well_stamped j :
  preserves (keeps_well_stamped E) (pipeline.create_status E j).
Proof.
  intros w. rewrite run_create_status. split; [cbn; lia|].
  intros Hw j' st' Hj'. cbn in Hj' |- *.
  destruct (decide (j = j')) as [<-|Hne].
  - rewrite lookup_insert_eq in Hj'. injection Hj' as <-. split; [done|].
    exists (ticks w), (ticks w). split; [lia | done].
  - rewrite lookup_insert_ne in Hj' by done.
    apply (well_stamped_later w (S (ticks w)) Hw); [lia | done].
Qed.

Lemma update_stage_keeps_well_stamped j s d :
  preserves (keeps_well_stamped E) (pipeline.update_stage E j s d).
Proof.
  intros w. destruct (_jobs w !! j) as [st|] eqn:Hj.
  - rewrite (run_update_stage E j s d w st Hj).
    by eapply (keeps_well_stamped_refreshed w _ j st).
  - rewrite (run_update_stage_absent E j s d w Hj). reflexivity.
Qed.

Lemma add_error_keeps_well_stamped j msg :
  preserves (keeps_well_stamped E) (pipeline.add_error E j msg).
Proof.
  intros w. destruct (_jobs w !! j) as [st|] eqn:Hj.
  - rewrite (run_add_error E j msg w st Hj).
    by eapply (keeps_well_stamped_refreshed w _ j st).
  - rewrite (run_add_error_absent E j msg w Hj). reflexivity.
Qed.

Lemma set_asset_keeps_well_stamped j key url :
  preserves (keeps_well_stamped E) (pipeline.set_asset j key url).
Proof.
  intros w. destruct (_jobs w !! j) as [st|] eqn:Hj.
  - rewrite (run_set_asset j key url w st Hj). split; [cbn; lia|].
    intros Hw j' st' Hj'. cbn in Hj'.
    destruct (decide (j = j')) as [<-|Hne].
    + rewrite lookup_insert_eq in Hj'. injection Hj' as <-. exact (Hw j st Hj).
    + rewrite lookup_insert_ne in Hj' by done. by apply Hw.
  - rewrite (run_set_asset_absent j key url w Hj). reflexivity.
Qed.

Lemma only_disk_keeps_well_stamped {A} (m : M A) :
  preserves only_disk m -> preserves (keeps_well_stamped E) m.
Proof. apply preserves_weaken. intros w w' ->. split; [cbn; lia | done]. Qed.

Lemma identity_kept_insert w j (f : ProcessingStatus -> ProcessingStatus) st0 g :
  _jobs w !! j = Some st0 ->
  job_id (f st0) = job_id st0 ->
  created_at (f st0) = created_at st0 ->
  _jobs (g w) = _jobs w ->
  identity_kept w (set_jobs <[j := f st0]> (g w)).
Proof.
  intros Hj Hid Hc Hg j' st Hj'. cbn. rewrite Hg.
  destruct (decide (j = j')) as [<-|Hne].
  - rewrite lookup_insert_eq. exists (f st0). split; [done|]. split; congruence.
  - rewrite lookup_insert_ne by done. by exists st.
Qed.

Lemma update_stage_identity_kept j s d :
  preserves identity_kept (pipeline.update_stage E j s d).
Proof.
  intros w. destruct (_jobs w !! j) as [st|] eqn:Hj.
  - rewrite (run_update_stage E j s d w st Hj). cbn -[set_jobs].
    apply (identity_kept_insert w j (with_stage s d _) st
             (fun w => set_trace _ (set_ticks S w))); done.
  - rewrite (run_update_stage_absent E j s d w Hj). reflexivity.
Qed.

Lemma add_error_identity_kept j msg :
  preserves identity_kept (pipeline.add_error E j msg).
Proof.
  intros w. destruct (_jobs w !! j) as [st|] eqn:Hj.
  - rewrite (run_add_error E j msg w st Hj). cbn -[set_jobs].
    apply (identity_kept_insert w j (with_error msg _) st
             (fun w => set_trace _ (set_ticks S w))); done.
  - rewrite (run_add_error_absent E j msg w Hj). reflexivity.
Qed.

Lemma set_asset_identity_kept j key url :
  preserves identity_kept (pipeline.set_asset j key url).
Proof.
  intros w. destruct (_jobs w !! j) as [st|] eqn:Hj.
  - rewrite (run_set_asset j key url w st Hj). cbn -[set_jobs].
    apply (identity_kept_insert w j (with_asset key url) st (fun w => w)); done.
  - rewrite (run_set_asset_absent j key url w Hj). reflexivity.
Qed.

Lemma only_disk_identity_kept {A} (m : M A) :
  preserves only_disk m -> preserves identity_kept m.
Proof. apply preserves_weaken. intros w w' ->. intros j st Hj. by exists st. Qed.
End Records.

#[global] Hint Resolve create_status_keeps_well_stamped update_stage_keeps_well_stamped
  add_error_keeps_well_stamped set_asset_keeps_well_stamped only_disk_keeps_well_stamped
  update_stage_identity_kept add_error_identity_kept set_asset_identity_kept
  only_disk_identity_kept : keeps.

Section RecordsRun.
Variable E : Env.

Lemma mutate_keeps_well_stamped mu : preserves (keeps_well_stamped E) (mutate E mu).
Proof. destruct mu; unfold mutate; keeps well_stamped_tac. Qed.

Lemma mutate_all_keeps_well_stamped mus w :
  keeps_well_stamped E w (mutate_all E mus w).
Proof.
  revert w. induction mus as [|mu mus IH]; intros w; [reflexivity|].
  cbn. etransitivity; [apply (mutate_keeps_well_stamped mu w) | apply IH].
Qed.

Lemma mutate_identity_kept mu :
  is_create mu = false -> preserves identity_kept (mutate E mu).
Proof. destruct mu; intros Hc; try done; unfold mutate; keeps identity_tac. Qed.

Lemma mutate_all_identity_kept mus w :
  forallb (fun mu => negb (is_create mu)) mus = true ->
  identity_kept w (mutate_all E mus w).
Proof.
  revert w. induction mus as [|mu mus IH]; intros w Hmus; [reflexivity|].
  cbn in Hmus. apply andb_prop in Hmus as [Hmu Hmus].
  apply negb_true_iff in Hmu. cbn.
  etransitivity; [apply (mutate_identity_kept mu Hmu w) | by apply IH].
Qed.
End RecordsRun.

(** X16. In a registry that started empty, after any sequence of
    operations (creations included), every record is filed under its own
    identifier, and when the clock never goes back its creation time is
    no later than its last update. *)
Theorem records_are_well_formed E mus w0 j st :
  (forall n m, (n <= m)%nat -> (clock E n <= clock E m)%Z) ->
  _jobs w0 = ∅ ->
  _jobs (mutate_all E mus w0) !! j = Some st ->
  job_id st = j /\ (created_at st <= updated_at st)%Z.
Proof.
  intros Hclock Hempty Hj.
  destruct (mutate_all_keeps_well_stamped E mus w0) as [_ Hkeeps].
  assert (Hw0 : well_stamped E w0).
  { intros j' st' Hj'. by rewrite Hempty in Hj'. }
  destruct (Hkeeps Hw0 j st Hj) as (Hid & nc & nu & Hlt & -> & ->).
  split; [done|]. apply Hclock. lia.
Qed.

Lemma records_are_well_formed_witness :
  exists st,
    _jobs (mutate_all env_dev
             [CreateStatus "job1"; UpdateStage "job1" TRANSCRIBING None;
              CreateStatus "job2"; ProcessJob "job1" source_mp3 false]
             empty_world) !! "job1" = Some st /\
    job_id st = "job1" /\ (created_at st <= updated_at st)%Z.
Proof.
  eexists. split; [vm_compute; reflexivity|].
  apply (records_are_well_formed env_dev
           [CreateStatus "job1"; UpdateStage "job1" TRANSCRIBING None;
            CreateStatus "job2"; ProcessJob "job1" source_mp3 false]
           empty_world "job1").
  - intros n m H. simpl. lia.
  - reflexivity.
  - vm_compute. reflexivity.
Defined.

(** X17. The operations other than [create_status], in any number and
    order, keep every registered job in the registry with the identifier
    and the creation time its record had. *)
Theorem created_at_is_kept E mus j w st :
  _jobs w !! j = Some st ->
  forallb (fun mu => negb (is_create mu)) mus = true ->
  exists st',
    _jobs (mutate_all E mus w) !! j = Some st' /\
    job_id st' = job_id st /\ created_at st' = created_at st.
Proof. intros Hj Hmus. by apply (mutate_all_identity_kept E mus w Hmus). Qed.

Lemma created_at_is_kept_witness :
  exists st',
    _jobs (mutate_all env_dev
             [ProcessJob "job1" source_mp3 true; AddError "job1" "boom";
              UpdateStage "job1" UPLOADED None]
             (uploaded env_dev)) !! "job1" = Some st' /\
    job_id st' = "job1" /\ created_at st' = 0%Z.
Proof.
  exact (created_at_is_kept env_dev
           [ProcessJob "job1" source_mp3 true; AddError "job1" "boom";
            UpdateStage "job1" UPLOADED None]
           "job1" (uploaded env_dev)
           (mkProcessingStatus "job1" UPLOADED None 0 0 []
              {["source_audio" := "/media/job1/source.mp3"]})
           eq_refl eq_refl).
Defined.

(* ------------------------------------------------------------------ *)

Section Origins.

Lemma lstrip_head s :
  lstrip s = "" \/ exists c r, lstrip s = String c r /\ is_space c = false.
Proof.
  induction s as [|c s IH]; [by left|]. cbn [lstrip].
  destruct (is_space c) eqn:Hc; [done|]. right. by exists c, s.
Qed.

Lemma rstrip_head c s :
  is_space c = false -> exists r, rstrip (String c s) = String c r.
Proof.
  intros Hc. cbn [rstrip]. destruct (rstrip s); [rewrite Hc|]; by eexists.
Qed.

Lemma rstrip_idem s : rstrip (rstrip s) = rstrip s.
Proof.
  induction s as [|c s IH]; [done|]. cbn [rstrip].
  destruct (rstrip s) as [|c' r] eqn:Hr.
  - destruct (is_space c) eqn:Hc; [done|]. cbn [rstrip]. by rewrite Hc.
  - change (rstrip (String c (String c' r))) with
      (match rstrip (String c' r) with
       | EmptyString => if is_space c then EmptyString else String c EmptyString
       | r0 => String c r0
       end).
    by rewrite IH.
Qed.

Lemma strip_idem s : strip (strip s) = strip s.
Proof.
  unfold strip. destruct (lstrip_head s) as [->|(c & r & -> & Hc)]; [done|].
  destruct (rstrip_head c r Hc) as [r' Hr']. rewrite Hr'.
  cbn [lstrip]. rewrite Hc, <- Hr'. apply rstrip_idem.
Qed.

Lemma mentions_lstrip c s : mentions c s = false -> mentions c (lstrip s) = false.
Proof.
  induction s as [|c' s IH]; [done|]. intros Hs. cbn [lstrip].
  destruct (is_space c'); [|done]. apply IH.
  cbn in Hs. by apply orb_false_elim in Hs as [_ Hs].
Qed.

Lemma mentions_rstrip c s : mentions c s = false -> mentions c (rstrip s) = false.
Proof.
  induction s as [|c' s IH]; [done|]. intros Hs. cbn in Hs.
  apply orb_false_elim in Hs as [Hc' Hs]. specialize (IH Hs). cbn [rstrip].
  destruct (rstrip s) as [|c'' r].
  - destruct (is_space c'); [done|]. cbn. by rewrite Hc'.
  - cbn [mentions] in IH |- *. by rewrite Hc', IH.
Qed.

Lemma split_comma_pieces s p : p ∈ split_comma s -> mentions "," p = false.
Proof.
  revert p. induction s as [|c s IH]; intros p Hp; cbn [split_comma] in Hp.
  - by apply list_elem_of_singleton in Hp as ->.
  - destruct (Ascii.eqb c ",") eqn:Hc.
    + apply elem_of_cons in Hp as [->|Hp]; [done | by apply IH].
    + destruct (split_comma s) as [|piece pieces].
      * apply list_elem_of_singleton in Hp as ->. cbn. by rewrite Hc.
      * apply elem_of_cons in Hp as [->|Hp].
        -- cbn [mentions]. rewrite Hc. apply IH. left.
        -- apply IH. by right.
Qed.

Lemma cors_origins_listable s o : o ∈ cors_origins_of s -> listable_origin o.
Proof.
  unfold cors_origins_of. intros Ho.
  apply list_elem_of_omap in Ho as (piece & Hpiece & Ho).
  destruct (String.eqb (strip piece) "") eqn:Hblank; [done|].
  injection Ho as <-. split; [|split].
  - by apply String.eqb_neq in Hblank.
  - apply mentions_rstrip, mentions_lstrip. by apply split_comma_pieces with s.
  - apply strip_idem.
Qed.

Lemma split_comma_single a : mentions "," a = false -> split_comma a = [a].
Proof.
  induction a as [|c a IH]; [done|]. intros Ha. cbn in Ha.
  apply orb_false_elim in Ha as [Hc Ha]. cbn [split_comma].
  by rewrite Hc, (IH Ha).
Qed.

Lemma split_comma_app a rest :
  mentions "," a = false ->
  split_comma (a +:+ "," +:+ rest) = a :: split_comma rest.
Proof.
  induction a as [|c a IH]; [done|]. intros Ha. cbn in Ha.
  apply orb_false_elim in Ha as [Hc Ha].
  change (String c a +:+ "," +:+ rest) with (String c (a +:+ "," +:+ rest)).
  cbn [split_comma]. by rewrite Hc, (IH Ha).
Qed.

Lemma split_comma_join o os :
  Forall listable_origin (o :: os) -> split_comma (join "," (o :: os)) = o :: os.
Proof.
  revert o. induction os as [|o' os IH]; intros o Hos.
  - apply Forall_cons in Hos as [(_ & Ho & _) _]. by apply split_comma_single.
  - apply Forall_cons in Hos as [(_ & Ho & _) Hos].
    change (join "," (o :: o' :: os)) with (o +:+ "," +:+ join "," (o' :: os)).
    by rewrite (split_comma_app _ _ Ho), (IH o' Hos).
Qed.

Lemma omap_listable os :
  Forall listable_origin os ->
  omap (fun origin =>
          if String.eqb (strip origin) "" then None else Some (strip origin)) os = os.
Proof.
  induction 1 as [|o os (Hne & _ & Hstrip) _ IH]; [done|].
  cbn [omap list_omap]. rewrite Hstrip.
  apply String.eqb_neq in Hne. by rewrite Hne, IH.
Qed.
End Origins.

(** X18. On an application that is not configured yet, [configure_cors]
    adds exactly one CORS middleware and marks the application, and
    configuring it again, with whatever setting, changes nothing.  The
    allowed origins are never empty: they are ["*"] when the setting
    lists no origin (it is blank, or made of commas and white space),
    and otherwise the listed origins, none of which is blank, holds a
    comma or is surrounded by white space.  The setting is taken in
    ASCII, where the white space of [strip] is all the white space that
    [str.strip] removes. *)
Theorem configure_cors_once app cors_origins :
  isascii cors_origins = true ->
  cors_configured app = false ->
  exists allowed,
    configure_cors app cors_origins =
      mkApp (allowed :: cors_middlewares app) true /\
    allowed ≠ [] /\
    (cors_origins_of cors_origins = [] -> allowed = ["*"]) /\
    (cors_origins_of cors_origins ≠ [] ->
     allowed = cors_origins_of cors_origins /\ Forall listable_origin allowed) /\
    forall again,
      configure_cors (configure_cors app cors_origins) again =
      configure_cors app cors_origins.
Proof.
  intros _ Hfresh. unfold configure_cors at 1 3 4. rewrite Hfresh.
  eexists. split; [reflexivity|].
  split; [by destruct (cors_origins_of cors_origins)|].
  split; [by intros ->|]. split; [|done].
  intros Hlisted. split; [by destruct (cors_origins_of cors_origins)|].
  destruct (cors_origins_of cors_origins) eqn:Horigins; [done|].
  rewrite <- Horigins. apply Forall_forall. intros o. apply cors_origins_listable.
Qed.

Lemma configure_cors_once_witness :
  configure_cors (mkApp [] false) " http://localhost:5173 ,, https://pod.example," =
    mkApp [["http://localhost:5173"; "https://pod.example"]] true /\
  configure_cors (mkApp [] false) " , ," = mkApp [["*"]] true.
Proof.
  split.
  - destruct (configure_cors_once (mkApp [] false)
                " http://localhost:5173 ,, https://pod.example," eq_refl eq_refl)
      as (allowed & Hrun & _ & _ & Hlisted & _).
    destruct (Hlisted ltac:(by vm_compute)) as [-> _]. exact Hrun.
  - destruct (configure_cors_once (mkApp [] false) " , ," eq_refl eq_refl)
      as (allowed & Hrun & _ & Hnone & _).
    rewrite (Hnone eq_refl) in Hrun. exact Hrun.
Defined.

(** X19. Origins that can be listed (not blank, no comma, no white space
    around them), joined with commas into the setting, are read back by
    [configure_cors] as they were, in the same order.  The origins are
    taken in ASCII, where the white space of [strip] is all the white
    space that [str.strip] removes. *)
Theorem listed_origins_are_read_back origins :
  Forall listable_origin origins ->
  Forall (fun o => isascii o = true) origins ->
  cors_origins_of (join "," origins) = origins.
Proof.
  intros Hlistable _. unfold cors_origins_of.
  destruct origins as [|o os]; [done|].
  rewrite (split_comma_join o os Hlistable). by apply omap_listable.
Qed.

Lemma listed_origins_are_read_back_witness :
  cors_origins_of (join "," ["http://localhost:5173"; "https://pod.example"]) =
  ["http://localhost:5173"; "https://pod.example"].
Proof.
  apply (listed_origins_are_read_back ["http://localhost:5173"; "https://pod.example"]).
  - repeat constructor; try done.
  - repeat constructor.
Defined.
